(** * Question-set generation pipeline: a shallow embedding

    The development follows the two route handlers of the application:
    the streaming generation endpoint (validator, sanitizer, line framing,
    the ladder of recovery tiers) and the one-shot generation endpoint.

    Modelling conventions.
    - A JavaScript string is a [string]: a sequence of code units, here the
      code units below 256.  Whitespace is the class that both [trim] and the
      regular-expression escape [\s] use (tab, line feed, vertical tab, form
      feed, carriage return, space, no-break space).
    - A JavaScript value is a [value]; a finite number is a rational.
    - [JSON.parse] belongs to the runtime, so the pipeline takes it as a
      parameter [JSON_parse : string -> option value] ([None]: it throws).
    - The generative model is a script of replies, one per call. *)

From Stdlib Require Import List String Ascii Bool Arith NArith ZArith QArith Qround Lia.
From Stdlib Require Import DecimalString.
Import ListNotations.

Set Warnings "-register-all".

Close Scope Q_scope.
Local Open Scope bool_scope.
Local Open Scope string_scope.
Local Open Scope list_scope.

(* ===================================================================== *)
(** ** Characters and strings *)
(* ===================================================================== *)

Module Text.

Definition code (c : ascii) : N := N_of_ascii c.

(** The class matched by [\s] and removed by [trim]. *)
Definition is_space (c : ascii) : bool :=
  let n := code c in
  (((9 <=? n) && (n <=? 13)) || (n =? 32) || (n =? 160))%N.

(** The class matched by [\w]; [\b] is a change of this class. *)
Definition is_word (c : ascii) : bool :=
  let n := code c in
  (((48 <=? n) && (n <=? 57)) || ((65 <=? n) && (n <=? 90))
   || (n =? 95) || ((97 <=? n) && (n <=? 122)))%N.

(** Case folding of the [i] flag, as far as it can reach an ASCII letter. *)
Definition fold_case (c : ascii) : ascii :=
  let n := code c in
  if ((65 <=? n) && (n <=? 90))%N then ascii_of_N (n + 32) else c.

(** [String.prototype.toLowerCase] on one code unit. *)
Definition lower_char (c : ascii) : ascii :=
  let n := code c in
  if (((65 <=? n) && (n <=? 90))
      || ((192 <=? n) && (n <=? 222) && negb (n =? 215)))%N
  then ascii_of_N (n + 32) else c.

Definition nl : ascii := "010"%char.
Definition sp : ascii := " "%char.

Definition is_nl (c : ascii) : bool := Ascii.eqb c nl.

Fixpoint smap (f : ascii -> ascii) (s : string) : string :=
  match s with
  | EmptyString => EmptyString
  | String c r => String (f c) (smap f r)
  end.

Definition toLowerCase (s : string) : string := smap lower_char s.

(** [s.slice(0, n)] for [n >= 0]. *)
Fixpoint take (n : nat) (s : string) : string :=
  match n, s with
  | S k, String c r => String c (take k r)
  | _, _ => EmptyString
  end.

Definition is_empty (s : string) : bool :=
  match s with EmptyString => true | String _ _ => false end.

Fixpoint trimStart (s : string) : string :=
  match s with
  | EmptyString => EmptyString
  | String c r => if is_space c then trimStart r else s
  end.

Fixpoint trimEnd (s : string) : string :=
  match s with
  | EmptyString => EmptyString
  | String c r =>
      match trimEnd r with
      | EmptyString => if is_space c then EmptyString else String c EmptyString
      | r' => String c r'
      end
  end.

Definition trim (s : string) : string := trimEnd (trimStart s).

(** The boundary after a match: end of input, or a character outside [\w]. *)
Definition at_boundary (s : string) : bool :=
  match s with
  | EmptyString => true
  | String c _ => negb (is_word c)
  end.

(** [match_word pat s]: [s] starts with [pat] up to case, and a word
    boundary follows.  [pat] is given in lower case. *)
Fixpoint match_word (pat s : string) : bool :=
  match pat with
  | EmptyString => at_boundary s
  | String p pat' =>
      match s with
      | EmptyString => false
      | String c r => Ascii.eqb p (fold_case c) && match_word pat' r
      end
  end.

Definition blank : string := "blank".

(** [s.replace(/\bblank\b/gi, '')], scanning left to right.
    [prev_word] tells whether the character before the cursor is a word
    character; [skip] counts the characters of the current match that are
    still to be dropped. *)
Fixpoint remove_blank (skip : nat) (prev_word : bool) (s : string) : string :=
  match s with
  | EmptyString => EmptyString
  | String c r =>
      match skip with
      | S k => remove_blank k true r
      | O =>
          if negb prev_word && match_word blank s
          then remove_blank 4 true r
          else String c (remove_blank 0 (is_word c) r)
      end
  end.

Definition starts_space (s : string) : bool :=
  match s with
  | EmptyString => false
  | String c _ => is_space c
  end.

(** [s.replace(/\s{2,}/g, ' ')].  [in_run] holds while the cursor is inside
    a run that has already produced its single space. *)
Fixpoint collapse_spaces (in_run : bool) (s : string) : string :=
  match s with
  | EmptyString => EmptyString
  | String c r =>
      if is_space c then
        if in_run then collapse_spaces true r
        else if starts_space r then String sp (collapse_spaces true r)
        else String c (collapse_spaces false r)
      else String c (collapse_spaces false r)
  end.

(** [s.replace(/\s+/g, ' ')]. *)
Fixpoint squeeze_spaces (in_run : bool) (s : string) : string :=
  match s with
  | EmptyString => EmptyString
  | String c r =>
      if is_space c then
        if in_run then squeeze_spaces true r
        else String sp (squeeze_spaces true r)
      else String c (squeeze_spaces false r)
  end.

(** The helper [clean] of the sanitizer, on a string. *)
Definition clean (s : string) : string :=
  trim (collapse_spaces false (remove_blank 0 false s)).

(** [s.split(/\n+/)]. *)
Fixpoint split_newlines (after_nl : bool) (s : string) : list string :=
  match s with
  | EmptyString => [EmptyString]
  | String c r =>
      if is_nl c then
        if after_nl then split_newlines true r
        else EmptyString :: split_newlines true r
      else
        match split_newlines false r with
        | x :: xs => String c x :: xs
        | [] => [String c EmptyString]
        end
  end.

(** [text.split(/\n+/).map(l => l.trim()).filter(Boolean)]. *)
Definition nonempty_lines (text : string) : list string :=
  filter (fun l => negb (is_empty l)) (map trim (split_newlines false text)).

(** One turn of the framing loop: [idx = buffer.indexOf("\n")], then
    [buffer.slice(0, idx)] and [buffer.slice(idx + 1)]; [None] when there
    is no line feed. *)
Fixpoint cut_line (buffer : string) : option (string * string) :=
  match buffer with
  | EmptyString => None
  | String c r =>
      if is_nl c then Some (EmptyString, r)
      else match cut_line r with
           | Some (l, rest) => Some (String c l, rest)
           | None => None
           end
  end.

Definition starts_with (p s : string) : bool := String.prefix p s.

Fixpoint drop (n : nat) (s : string) : string :=
  match n, s with
  | S k, String _ r => drop k r
  | _, _ => s
  end.

Definition fence : string := "```".

(** [s.replace(/^```(?:json)?/i, '')]. *)
Definition strip_fence_open (s : string) : string :=
  if starts_with fence s then
    let r := drop 3 s in
    if starts_with "json" (smap fold_case (take 4 r)) then drop 4 r else r
  else s.

(** [s.replace(/```$/i, '')]. *)
Fixpoint strip_fence_close (s : string) : string :=
  match s with
  | EmptyString => EmptyString
  | String c r => if String.eqb s fence then EmptyString else String c (strip_fence_close r)
  end.

End Text.

(* ===================================================================== *)
(** ** JavaScript values *)
(* ===================================================================== *)

Module JS.

(** A number: the finite doubles are rationals. *)
Inductive number : Type :=
| Fin (q : Q)
| PosInf
| NegInf
| NaN.

Inductive value : Type :=
| VUndef
| VNull
| VBool (b : bool)
| VNum (n : number)
| VStr (s : string)
| VArr (items : list value)
| VObj (props : list (string * value)).

(** [typeof v]. *)
Definition typeof (v : value) : string :=
  match v with
  | VUndef => "undefined"
  | VNull | VArr _ | VObj _ => "object"
  | VBool _ => "boolean"
  | VNum _ => "number"
  | VStr _ => "string"
  end.

(** [!!v]. *)
Definition truthy (v : value) : bool :=
  match v with
  | VUndef | VNull => false
  | VBool b => b
  | VNum (Fin q) => negb (Qeq_bool q 0%Q)
  | VNum NaN => false
  | VNum _ => true
  | VStr s => negb (Text.is_empty s)
  | VArr _ | VObj _ => true
  end.

Definition isArray (v : value) : bool :=
  match v with VArr _ => true | _ => false end.

Fixpoint lookup (k : string) (ps : list (string * value)) : option value :=
  match ps with
  | [] => None
  | (k', v) :: r => if String.eqb k' k then Some v else lookup k r
  end.

(** The decimal index keys under which an array or a string exposes its
    elements. *)
Definition index_key (i : nat) : string := NilZero.string_of_uint (Nat.to_uint i).

Fixpoint index_props (i : nat) (items : list value) : list (string * value) :=
  match items with
  | [] => []
  | v :: r => (index_key i, v) :: index_props (S i) r
  end.

Fixpoint chars (s : string) : list value :=
  match s with
  | EmptyString => []
  | String c r => VStr (String c EmptyString) :: chars r
  end.

(** The own enumerable properties, in order: what [{...v}] copies. *)
Definition own_props (v : value) : list (string * value) :=
  match v with
  | VObj ps => ps
  | VArr items => index_props 0 items
  | VStr s => index_props 0 (chars s)
  | _ => []
  end.

(** [v.k] for a plain object [v]; on every other value the property names
    this program reads ([question], [multipleChoiceOptions], [correctAnswer],
    [incorrectExplanations], [correctExplanation], [questions], [count],
    [A] to [D]) are undefined.  Reading from [null] or [undefined] throws,
    which the callers guard. *)
Definition get (k : string) (v : value) : value :=
  match v with
  | VObj ps => match lookup k ps with Some x => x | None => VUndef end
  | _ => VUndef
  end.

(** Assignment of one key in an object literal that follows a spread: an
    existing key keeps its place, a new key goes last. *)
Fixpoint obj_set (k : string) (v : value) (ps : list (string * value))
  : list (string * value) :=
  match ps with
  | [] => [(k, v)]
  | (k', v') :: r =>
      if String.eqb k' k then (k, v) :: r else (k', v') :: obj_set k v r
  end.

Definition keys (ps : list (string * value)) : list string := map fst ps.

(** [x === "A"] and the like. *)
Definition is_str (s : string) (v : value) : bool :=
  match v with VStr t => String.eqb t s | _ => false end.

End JS.

Import JS.

(* ===================================================================== *)
(** ** Validator and sanitizer (streaming route) *)
(* ===================================================================== *)

Definition labels : list string := ["A"; "B"; "C"; "D"].

(** [typeof v === "string" && v.trim().length >= n]. *)
Definition trimmed_string_at_least (n : nat) (v : value) : bool :=
  match v with
  | VStr s => (n <=? String.length (Text.trim s))%nat
  | _ => false
  end.

(** [typeof v !== "string" || v.trim().length === 0], negated. *)
Definition nonblank_string (v : value) : bool :=
  match v with
  | VStr s => negb (String.length (Text.trim s) =? 0)%nat
  | _ => false
  end.

Definition isValidQuestion (q : value) : bool :=
  if negb (truthy q) || negb (String.eqb (typeof q) "object") then false else
  if negb (trimmed_string_at_least 5 (get "question" q)) then false else
  let opts := get "multipleChoiceOptions" q in
  if negb (isArray opts) || negb (List.length (match opts with VArr l => l | _ => [] end) =? 4)%nat
  then false else
  if negb (forallb (fun s => nonblank_string s) (match opts with VArr l => l | _ => [] end))
  then false else
  if negb (existsb (fun l => is_str l (get "correctAnswer" q)) labels) then false else
  let ie := if truthy (get "incorrectExplanations" q)
            then get "incorrectExplanations" q else VObj [] in
  if negb (truthy ie) || negb (String.eqb (typeof ie) "object") then false else
  if negb (forallb (fun k => nonblank_string (get k ie)) labels) then false else
  if negb (nonblank_string (get "correctExplanation" q)) then false else
  true.

(** The helper [clean]: strings are cleaned, every other value is kept. *)
Definition clean (v : value) : value :=
  match v with
  | VStr s => VStr (Text.clean s)
  | _ => v
  end.

Definition clean_options (v : value) : value :=
  match v with
  | VArr items => VArr (map clean items)
  | _ => v
  end.

(** [sanitizeQuestion]: reading a property of [null] or [undefined] throws,
    and the handler of that exception returns the argument. *)
Definition sanitizeQuestion (q : value) : value :=
  match q with
  | VUndef | VNull => q
  | _ =>
      VObj (obj_set "multipleChoiceOptions" (clean_options (get "multipleChoiceOptions" q))
             (obj_set "question" (clean (get "question" q)) (own_props q)))
  end.

(** The mapping function of the one-shot route: the same cleaning, behind
    the guard [q && typeof q === 'object'], with the two explanation fields
    written back as they were read. *)
Definition sanitizeEntry (q : value) : value :=
  if truthy q && String.eqb (typeof q) "object" then
    VObj (obj_set "correctExplanation" (get "correctExplanation" q)
           (obj_set "incorrectExplanations" (get "incorrectExplanations" q)
             (obj_set "multipleChoiceOptions" (clean_options (get "multipleChoiceOptions" q))
               (obj_set "question" (clean (get "question" q)) (own_props q)))))
  else q.

(* ===================================================================== *)
(** ** Line framing *)
(* ===================================================================== *)

Module Framer.

(** The line framing of the handler, in closed form: every slice that the
    loop [while ((idx = buffer.indexOf("\n")) !== -1) { ... }] takes off the
    front of [buffer], in order, and what stays in [buffer] when the loop
    ends.  The loop itself is [drain] below; that it hands these slices to
    the parser, and leaves this rest, is proved of it. *)
Fixpoint drained (buffer : string) : list string * string :=
  match buffer with
  | EmptyString => ([], EmptyString)
  | String c r =>
      let (ls, rest) := drained r in
      if Text.is_nl c then (EmptyString :: ls, rest)
      else match ls with
           | [] => ([], String c rest)
           | l :: ls' => (String c l :: ls', rest)
           end
  end.

(** The slices after [trim], without those that [if (!line) continue]
    skips: the candidates handed to the parser. *)
Definition candidates (slices : list string) : list string :=
  filter (fun l => negb (Text.is_empty l)) (map Text.trim slices).

(** The chunks of a stream, appended to the buffer one at a time. *)
Fixpoint feed (chunks : list string) (buffer : string) : list string * string :=
  match chunks with
  | [] => ([], buffer)
  | txt :: more =>
      let (slices, rest) := drained (buffer ++ txt) in
      let (later, final) := feed more rest in
      (candidates slices ++ later, final)
  end.

End Framer.

(* ===================================================================== *)
(** ** Requested count *)
(* ===================================================================== *)

(** [x > 0] on numbers. *)
Definition positive (n : number) : bool :=
  match n with
  | Fin q => negb (Qle_bool q 0%Q)
  | PosInf => true
  | NegInf | NaN => false
  end.

(** [Math.min(10, x)] for a positive [x]. *)
Definition min10 (n : number) : Q :=
  match n with
  | Fin q => if Qle_bool 10%Q q then 10%Q else q
  | _ => 10%Q
  end.

(** [typeof c === "number" && c > 0 ? Math.min(10, c) : 10]. *)
Definition clampCount (c : value) : Q :=
  match c with
  | VNum n => if positive n then min10 n else 10%Q
  | _ => 10%Q
  end.

(** The count of a request body. *)
Definition effectiveCount (body : value) : Q := clampCount (get "count" body).

(* ===================================================================== *)
(** ** The generative model, events and the session *)
(* ===================================================================== *)

(** One reply of the model to [generateContent] (or one chunk of its
    stream): the text, or an exception. *)
Inductive reply : Type :=
| Throws
| Says (s : string).

(** The reply to [generateContentStream?.(...)]. *)
Inductive stream_reply : Type :=
| StreamThrows
| NoStream
| Stream (chunks : list reply).

(** A model for one session: the reply to the streaming call and the reply
    to the [n]-th call of [generateContent].  The orchestrator is sequential,
    so a script of replies covers every behaviour of the model, whatever the
    prompts. *)
Record model : Type := {
  open_stream : stream_reply;
  generate : nat -> reply
}.

(** The lines written to the response.  Of a diagnostic line only the stage
    is kept (time stamps and sizes are left out). *)
Inductive event : Type :=
| Server (stage : string)
| Question (index : Z) (question : value)
| Progress (completed : Z) (total : Q)
| Done
| Error.

(** The tier that accepted a unit. *)
Inductive tier : Type :=
| Primary | Trailing | Bulk (round : nat) | Single | Retry | Filler
| Fallback | FallbackTopup.

(** The state of one request: the counter [emitted], the set
    [existingQuestions] of the single-item tier (the code creates it, empty,
    when that tier starts, and nothing before reads or writes it), the number
    of calls made to [generateContent], and the lines written so far.
    [accepted] is a ghost record of every accepted unit as it was before
    sanitizing, with its tier; the code has no such variable. *)
Record session : Type := {
  emitted : Z;
  existingQuestions : list string;
  calls : nat;
  out : list event;
  accepted : list (tier * value)
}.

Definition initial : session :=
  {| emitted := 0; existingQuestions := []; calls := 0; out := []; accepted := [] |}.

(** How a block of the handler ends. *)
Inductive outcome (A : Type) : Type :=
| Returned (a : A)
| Thrown
| OutOfFuel.
Arguments Returned {A} a.
Arguments Thrown {A}.
Arguments OutOfFuel {A}.

Definition M (A : Type) : Type := session -> outcome A * session.

Definition ret {A} (a : A) : M A := fun st => (Returned a, st).

Definition bind {A B} (m : M A) (f : A -> M B) : M B :=
  fun st =>
    match m st with
    | (Returned a, st') => f a st'
    | (Thrown, st') => (Thrown, st')
    | (OutOfFuel, st') => (OutOfFuel, st')
    end.

(** [try { m } catch { return dflt }]. *)
Definition try_or {A} (dflt : A) (m : M A) : M A :=
  fun st =>
    match m st with
    | (Thrown, st') => (Returned dflt, st')
    | r => r
    end.

Definition out_of_fuel {A} : M A := fun st => (OutOfFuel, st).

Declare Scope pipeline_scope.
Delimit Scope pipeline_scope with pipeline.
Notation "x <- m ;; k" := (bind m (fun x => k))
  (at level 61, m at next level, right associativity) : pipeline_scope.
Notation "m ;;; k" := (bind m (fun _ => k))
  (at level 61, right associativity) : pipeline_scope.
Local Open Scope pipeline_scope.

(** [controller.enqueue(encoder.encode(JSON.stringify(e) + "\n"))]. *)
Definition enqueue (e : event) : M unit :=
  fun st =>
    (Returned tt,
     {| emitted := emitted st; existingQuestions := existingQuestions st;
        calls := calls st; out := out st ++ [e]; accepted := accepted st |}).

Definition read_emitted : M Z := fun st => (Returned (emitted st), st).

Definition bump_emitted : M Z :=
  fun st =>
    (Returned (emitted st + 1)%Z,
     {| emitted := (emitted st + 1)%Z; existingQuestions := existingQuestions st;
        calls := calls st; out := out st; accepted := accepted st |}).

Definition record_accepted (t : tier) (q : value) : M unit :=
  fun st =>
    (Returned tt,
     {| emitted := emitted st; existingQuestions := existingQuestions st;
        calls := calls st; out := out st; accepted := accepted st ++ [(t, q)] |}).

(** [existingQuestions.has(norm)]. *)
Definition seen (norm : string) : M bool :=
  fun st => (Returned (existsb (String.eqb norm) (existingQuestions st)), st).

(** [existingQuestions.add(norm)]. *)
Definition remember (norm : string) : M unit :=
  fun st =>
    (Returned tt,
     {| emitted := emitted st;
        existingQuestions :=
          if existsb (String.eqb norm) (existingQuestions st)
          then existingQuestions st else existingQuestions st ++ [norm];
        calls := calls st; out := out st; accepted := accepted st |}).

(** The fingerprint of a stem. *)
Definition normalize (s : string) : string :=
  Text.take 140 (Text.squeeze_spaces false (Text.toLowerCase s)).

(** [candidate.question || ''] of a candidate that passed the validator. *)
Definition stem (q : value) : string :=
  match get "question" q with
  | VStr s => s
  | _ => EmptyString
  end.

Definition fingerprint (q : value) : string := normalize (stem q).

(** A number in a template string. *)
Definition decimal (z : Z) : string := NilZero.string_of_int (Z.to_int z).

(** The filler unit of slot [n]. *)
Definition synthetic (n : Z) (topic : string) : value :=
  VObj
    [ ("question",
       VStr ("Synthetic recovery question " ++ decimal n ++ " for " ++ topic
             ++ ": Choose the best option."));
      ("multipleChoiceOptions",
       VArr [ VStr "A. Conceptual distractor"; VStr "B. Another distractor";
              VStr "C. Correct answer"; VStr "D. Plausible but wrong" ]);
      ("correctAnswer", VStr "C");
      ("incorrectExplanations",
       VObj [ ("A", VStr "A does not address the core requirement.");
              ("B", VStr "B is irrelevant to the topic focus.");
              ("C", VStr "C best fits the topic context.");
              ("D", VStr "D introduces an unsupported idea.") ]);
      ("correctExplanation",
       VStr "C directly satisfies the constraints of the topic while others do not.") ].

(* ===================================================================== *)
(** ** The streaming route: the orchestrator *)
(* ===================================================================== *)

Section Orchestrator.

Variable JSON_parse : string -> option value.
Variable upstream : model.
Variable count : Q.
Variable topic : string.

(** [emitted < count]; its negation is [emitted >= count]. *)
Definition short_of (e : Z) : bool := negb (Qle_bool count (inject_Z e)).

Definition throw {A} : M A := fun st => (Thrown, st).

(** [await model.generateContent(...)], then [.response.text()]. *)
Definition generateContent : M string :=
  fun st =>
    let st' := {| emitted := emitted st; existingQuestions := existingQuestions st;
                  calls := S (calls st); out := out st; accepted := accepted st |} in
    match generate upstream (calls st) with
    | Says s => (Returned s, st')
    | Throws => (Thrown, st')
    end.

(** [emitted += 1], the question line, the progress line. *)
Definition emit_question (q : value) : M unit :=
  n <- bump_emitted ;;
  enqueue (Question n q) ;;;
  enqueue (Progress n count).

Definition accept (sanitize : bool) (t : tier) (obj : value) : M unit :=
  record_accepted t obj ;;;
  emit_question (if sanitize then sanitizeQuestion obj else obj).

Definition diag (stage : option string) : M unit :=
  match stage with
  | Some s => enqueue (Server s)
  | None => ret tt
  end.

(** The body [try { obj = JSON.parse(line); if (isValidQuestion(obj)) ...
    else ... } catch { ... }] shared by the line loops; the result tells
    whether the line was accepted. *)
Definition try_line (sanitize : bool) (t : tier) (on_invalid on_error : option string)
    (line : string) : M bool :=
  match JSON_parse line with
  | None => diag on_error ;;; ret false
  | Some obj =>
      if isValidQuestion obj
      then accept sanitize t obj ;;; ret true
      else diag on_invalid ;;; ret false
  end.

(** The framing loop of one chunk. *)
Fixpoint drain (fuel : nat) (buffer : string) : M string :=
  match Text.cut_line buffer with
  | None => ret buffer
  | Some (slice, rest) =>
      match fuel with
      | O => out_of_fuel
      | S fuel' =>
          let line := Text.trim slice in
          (if Text.is_empty line then ret false
           else try_line true Primary (Some "invalid") None line) ;;;
          drain fuel' rest
      end
  end.

(** [for await (const chunk of result.stream)]. *)
Fixpoint consume (chunks : list reply) (buffer : string) : M string :=
  match chunks with
  | [] => ret buffer
  | Throws :: _ => throw
  | Says txt :: more =>
      let buffer := (buffer ++ txt)%string in
      enqueue (Server "chunk") ;;;
      buffer' <- drain (String.length buffer) buffer ;;
      consume more buffer'
  end.

(** The loop of the flush, which leaves as soon as the target is met. *)
Fixpoint flush_lines (lines : list string) : M unit :=
  match lines with
  | [] => ret tt
  | line :: more =>
      e <- read_emitted ;;
      if short_of e then
        try_line true Trailing (Some "invalid-trailing") (Some "parse-error-trailing") line ;;;
        flush_lines more
      else ret tt
  end.

Definition flush (buffer : string) : M unit :=
  e <- read_emitted ;;
  if (0 <? String.length (Text.trim buffer))%nat && short_of e
  then flush_lines (Text.nonempty_lines buffer)
  else ret tt.

(** The loop of a top-up round: it leaves right after the acceptance that
    meets the target. *)
Fixpoint topup_lines (sanitize : bool) (t : tier) (on_invalid on_error : option string)
    (lines : list string) : M unit :=
  match lines with
  | [] => ret tt
  | line :: more =>
      ok <- try_line sanitize t on_invalid on_error line ;;
      e <- read_emitted ;;
      if ok && negb (short_of e) then ret tt
      else topup_lines sanitize t on_invalid on_error more
  end.

Definition third_round : M unit :=
  e <- read_emitted ;;
  if short_of e then
    enqueue (Server "final-retry") ;;;
    t3 <- generateContent ;;
    topup_lines true (Bulk 3) None None (Text.nonempty_lines t3)
  else ret tt.

Definition second_round : M unit :=
  e <- read_emitted ;;
  if short_of e then
    enqueue (Server "second-retry") ;;;
    t2 <- generateContent ;;
    topup_lines true (Bulk 2) None None (Text.nonempty_lines t2) ;;;
    third_round
  else ret tt.

Definition bulk_topup : M unit :=
  e <- read_emitted ;;
  if short_of e then
    enqueue (Server "fallback-topup") ;;;
    text <- generateContent ;;
    topup_lines true (Bulk 1) (Some "invalid-fallback") (Some "parse-error-fallback")
      (Text.nonempty_lines text) ;;;
    second_round
  else ret tt.

(** The text of a single reply without its code fences. *)
Definition unfence (raw : string) : string :=
  Text.trim (Text.strip_fence_close (Text.strip_fence_open raw)).

(** One candidate of the single-item tier: accepted when it is valid and
    its fingerprint is new. *)
Definition try_candidate (t : tier) (candidate : option value) : M bool :=
  match candidate with
  | None => ret false
  | Some c =>
      if truthy c && isValidQuestion c then
        let norm := fingerprint c in
        dup <- seen norm ;;
        if dup then ret false
        else remember norm ;;; accept true t c ;;; ret true
      else ret false
  end.

(** The guarded part of one turn of the single-item loop; [true] stands
    for [continue]. *)
Definition attempt : M bool :=
  try_or false
    (single <- generateContent ;;
     ok <- try_candidate Single (JSON_parse (unfence (Text.trim single))) ;;
     if ok then ret true
     else
       retry <- generateContent ;;
       try_candidate Retry (JSON_parse (unfence (Text.trim retry)))).

Definition fill : M unit :=
  e <- read_emitted ;;
  if short_of e then
    n <- bump_emitted ;;
    record_accepted Filler (synthetic n topic) ;;;
    enqueue (Question n (sanitizeQuestion (synthetic n topic))) ;;;
    enqueue (Progress n count)
  else ret tt.

(** [while (emitted < count) { ... }]. *)
Fixpoint single_loop (fuel : nat) : M unit :=
  e <- read_emitted ;;
  if short_of e then
    match fuel with
    | O => out_of_fuel
    | S fuel' =>
        continue <- attempt ;;
        (if continue then ret tt else fill) ;;;
        single_loop fuel'
    end
  else ret tt.

Definition single_recovery : M unit :=
  e <- read_emitted ;;
  if short_of e then
    enqueue (Server "final-single-regeneration") ;;;
    single_loop (Z.to_nat (Qceiling count - e)%Z)
  else ret tt.

(** The branch taken when the model returned a stream. *)
Definition streaming (chunks : list reply) : M unit :=
  enqueue (Server "stream-open") ;;;
  buffer <- consume chunks EmptyString ;;
  flush buffer ;;;
  bulk_topup ;;;
  single_recovery ;;;
  enqueue Done.

(** The first loop of the branch without a stream: no test of the target. *)
Fixpoint each_line (lines : list string) : M unit :=
  match lines with
  | [] => ret tt
  | line :: more => try_line false Fallback None None line ;;; each_line more
  end.

(** The branch taken when there is no stream. *)
Definition fallback : M unit :=
  enqueue (Server "fallback") ;;;
  text <- generateContent ;;
  each_line (Text.nonempty_lines text) ;;;
  e <- read_emitted ;;
  (if short_of e then
     enqueue (Server "fallback-topup") ;;;
     t2 <- generateContent ;;
     topup_lines false FallbackTopup None None (Text.nonempty_lines t2)
   else ret tt) ;;;
  enqueue Done.

(** The body of [start(controller)] inside its [try]. *)
Definition start : M unit :=
  enqueue (Server "received") ;;;
  enqueue (Server "prompt-built") ;;;
  match open_stream upstream with
  | StreamThrows => throw
  | Stream chunks => streaming chunks
  | NoStream => fallback
  end.

(** [start(controller)]: an exception writes the error line and fails the
    stream. *)
Definition run : outcome unit * session :=
  match start initial with
  | (Thrown, st) => (Thrown, snd (enqueue Error st))
  | r => r
  end.

End Orchestrator.

(** The requests of both routes: the configured key and the JSON body
    ([None] when [req.json()] throws). *)
Record request : Type := {
  apiKey : string;
  body : option value
}.

(** The response of the streaming route: a plain status, or the line
    stream with the way it ended. *)
Inductive stream_response : Type :=
| Reject (status : nat)
| Lines (ended : outcome unit) (lines : list event).

Section Routes.

Variable JSON_parse : string -> option value.

(** [String(v)] of the runtime for the values that are not strings; [None]
    when the conversion throws, as it does on an object or an array that
    yields no primitive (an object with an own [toString] that is no
    function, for one). *)
Variable String_of : value -> option string.

(** [String(v)]. *)
Definition to_text (v : value) : option string :=
  match v with
  | VStr s => Some s
  | _ => String_of v
  end.

(** [String(v || "").trim()]. *)
Definition text_field (v : value) : option string :=
  option_map Text.trim (to_text (if truthy v then v else VStr EmptyString)).

(** [Array.isArray(body.recentMistakes) ? body.recentMistakes.filter((q) =>
    typeof q === "string" && q.trim().length > 0) : []]. *)
Definition recentMistakes (b : value) : list string :=
  match get "recentMistakes" b with
  | VArr items =>
      flat_map (fun q => match q with
                         | VStr s => if (0 <? String.length (Text.trim s))%nat then [s] else []
                         | _ => []
                         end) items
  | _ => []
  end.

(** [difficulty]: [body.difficulty || "Medium"]. *)
Definition difficulty (b : value) : value :=
  if truthy (get "difficulty" b) then get "difficulty" b else VStr "Medium".

(** The prompt, as the values that its template interpolates (the text
    around them is fixed, and the streaming route also puts in the count, a
    number): [None] when building it throws, which
    [String(difficulty).toLowerCase()] does when the difficulty has no
    string form.  The later prompts of a session interpolate the same
    values, so they cannot throw once this one is built. *)
Record prompt : Type := {
  about_section : string;
  about_topic : string;
  about_mistakes : list string;
  about_difficulty : string
}.

Definition build_prompt (section topic : string) (b : value) : option prompt :=
  match to_text (difficulty b) with
  | Some d =>
      Some {| about_section := section; about_topic := topic;
              about_mistakes := recentMistakes b;
              about_difficulty := Text.toLowerCase d |}
  | None => None
  end.

(** The handler of the streaming route.  An exception before the stream
    exists is caught by the handler, which answers 500. *)
Definition POST_stream (req : request) (upstream : model) : stream_response :=
  if Text.is_empty (apiKey req) then Reject 500 else
  match body req with
  | None | Some VNull | Some VUndef => Reject 500
  | Some b =>
      match text_field (get "section" b), text_field (get "topic" b) with
      | Some section, Some topic =>
          let count := effectiveCount b in
          if Text.is_empty section || Text.is_empty topic then Reject 400
          else
            match build_prompt section topic b with
            | None => Reject 500
            | Some _ =>
                let (ended, st) := run JSON_parse upstream count topic in
                Lines ended (out st)
            end
      | _, _ => Reject 500
      end
  end.

End Routes.

(* ===================================================================== *)
(** ** The one-shot route *)
(* ===================================================================== *)

(** A JSON response: the status and the value given to [JSON.stringify]. *)
Record response : Type := {
  status : nat;
  payload : value
}.

Definition error_body (message : string) : value := VObj [("error", VStr message)].

Definition bad_gateway (text : string) : response :=
  {| status := 502;
     payload := VObj [("error", VStr "Model did not return valid JSON"); ("raw", VStr text)] |}.

Section OneShot.

Variable JSON_parse : string -> option value.
Variable String_of : value -> option string.

(** The handler of the one-shot route; [answer] is the reply of the model
    to its single call.  The count is computed and not used afterwards.  An
    exception anywhere is caught by the handler, which answers 500. *)
Definition POST_generate (req : request) (answer : reply) : response :=
  if Text.is_empty (apiKey req)
  then {| status := 500; payload := error_body "Missing GOOGLE_API_KEY" |} else
  match body req with
  | None | Some VNull | Some VUndef =>
      {| status := 500; payload := error_body "Internal error" |}
  | Some b =>
      match text_field String_of (get "section" b), text_field String_of (get "topic" b) with
      | Some section, Some topic =>
          let count := effectiveCount b in
          if Text.is_empty section || Text.is_empty topic
          then {| status := 400; payload := error_body "Missing section or topic" |}
          else
            match build_prompt String_of section topic b with
            | None => {| status := 500; payload := error_body "Internal error" |}
            | Some _ =>
                match answer with
                | Throws => {| status := 500; payload := error_body "Internal error" |}
                | Says text =>
                    match JSON_parse text with
                    | None => bad_gateway text
                    | Some parsed =>
                        match get "questions" parsed with
                        | VArr items =>
                            if truthy parsed then
                              {| status := 200;
                                 payload :=
                                   VObj (obj_set "questions" (VArr (map sanitizeEntry items))
                                           (own_props parsed)) |}
                            else bad_gateway text
                        | _ => bad_gateway text
                        end
                    end
                end
            end
      | _, _ => {| status := 500; payload := error_body "Internal error" |}
      end
  end.

End OneShot.

(* ===================================================================== *)
(** ** The validator contract, in the words of the specification *)
(* ===================================================================== *)

Module Contract.

Definition nonblank (v : value) : Prop :=
  exists s, v = VStr s /\ Text.trim s <> EmptyString.

Definition stem_ok (q : value) : Prop :=
  exists s, get "question" q = VStr s /\ 5 <= String.length (Text.trim s).

Definition options_ok (q : value) : Prop :=
  exists items, get "multipleChoiceOptions" q = VArr items
                /\ List.length items = 4 /\ Forall nonblank items.

Definition answer_ok (q : value) : Prop :=
  exists l, In l labels /\ get "correctAnswer" q = VStr l.

Definition explanations_ok (q : value) : Prop :=
  exists props, get "incorrectExplanations" q = VObj props
                /\ forall l, In l labels -> nonblank (get l (VObj props)).

(** The rationale as the contract words it: a string that is not empty. *)
Definition rationale_nonempty (q : value) : Prop :=
  exists s, get "correctExplanation" q = VStr s /\ s <> EmptyString.

(** The rationale as the validator tests it: not empty after trimming. *)
Definition rationale_nonblank (q : value) : Prop :=
  nonblank (get "correctExplanation" q).

Definition stated (q : value) : Prop :=
  stem_ok q /\ options_ok q /\ answer_ok q /\ explanations_ok q /\ rationale_nonempty q.

Definition tested (q : value) : Prop :=
  stem_ok q /\ options_ok q /\ answer_ok q /\ explanations_ok q /\ rationale_nonblank q.

End Contract.

(* ===================================================================== *)
(** ** Concrete inputs *)
(* ===================================================================== *)

Module Sample.

Definition dquote : ascii := "034"%char.

(** JSON text written with apostrophes in place of the double quotes. *)
Definition json (s : string) : string :=
  Text.smap (fun c => if Ascii.eqb c "'"%char then dquote else c) s.

Definition unit_with (stem rationale : string) : value :=
  VObj
    [ ("question", VStr stem);
      ("multipleChoiceOptions", VArr [VStr "A. 1"; VStr "B. 2"; VStr "C. 3"; VStr "D. 4"]);
      ("correctAnswer", VStr "D");
      ("incorrectExplanations",
       VObj [("A", VStr "too small"); ("B", VStr "too small");
             ("C", VStr "too small"); ("D", VStr "the sum")]);
      ("correctExplanation", VStr rationale) ].

Definition line_with (stem rationale : string) : string :=
  json ("{'question':'" ++ stem
        ++ "','multipleChoiceOptions':['A. 1','B. 2','C. 3','D. 4'],'correctAnswer':'D',"
        ++ "'incorrectExplanations':{'A':'too small','B':'too small','C':'too small','D':'the sum'},"
        ++ "'correctExplanation':'" ++ rationale ++ "'}").

Definition q1 : value := unit_with "What is 2 + 2?" "2 + 2 = 4".
Definition q2 : value := unit_with "What is 1 + 3?" "1 + 3 = 4".
Definition line1 : string := line_with "What is 2 + 2?" "2 + 2 = 4".
Definition line2 : string := line_with "What is 1 + 3?" "1 + 3 = 4".

(** A unit whose rationale is one space. *)
Definition q_blank_rationale : value := unit_with "What is 2 + 2?" " ".

(** [JSON.parse] on the texts used below: the two lines, an empty document
    and a document with an empty array; any other text is taken to be a
    syntax error. *)
Definition empty_batch : string := json "{'questions':[]}".

Definition parse (text : string) : option value :=
  if String.eqb text line1 then Some q1
  else if String.eqb text line2 then Some q2
  else if String.eqb text empty_batch then Some (VObj [("questions", VArr [])])
  else None.

(** [String(v)] on the values that are not strings, as far as the samples
    need it.  On an object read from JSON: an own [toString] is no
    function, so the object yields no primitive and the conversion throws;
    without one, the inherited [toString] gives the text of a plain
    object.  The samples reach the conversion on an object only; the text
    of a number or of an array is not needed here and stands empty. *)
Definition to_string (v : value) : option string :=
  match v with
  | VObj props =>
      match lookup "toString" props with
      | Some _ => None
      | None => Some "[object Object]"
      end
  | VUndef => Some "undefined"
  | VNull => Some "null"
  | VBool true => Some "true"
  | VBool false => Some "false"
  | VStr s => Some s
  | VNum _ | VArr _ => Some EmptyString
  end.

Definition newline : string := String Text.nl EmptyString.

Definition body_of (n : Q) : value :=
  VObj [("section", VStr "Math"); ("topic", VStr "Algebra"); ("count", VNum (Fin n))].

Definition req_of (n : Q) : request :=
  {| apiKey := "key"; body := Some (body_of n) |}.

(** A model that answers every non-streaming call with [r]. *)
Definition always (s : stream_reply) (r : reply) : model :=
  {| open_stream := s; generate := fun _ => r |}.

(** The two valid lines in one chunk, and one valid line sent twice. *)
Definition two_lines : string := line1 ++ newline ++ line2 ++ newline.
Definition twice : string := line1 ++ newline ++ line1 ++ newline.

(** The texts of the framing examples. *)
Definition abc : string := "A" ++ newline ++ "B" ++ newline ++ "C".
Definition ab : string := "A" ++ newline ++ "B".
Definition c_newline : string := "C" ++ newline.

(** A request whose difficulty has no string form. *)
Definition unprintable : request :=
  {| apiKey := "key";
     body := Some (VObj [("section", VStr "Math"); ("topic", VStr "Algebra");
                         ("difficulty", VObj [("toString", VNum (Fin 1))])]) |}.

(** A model that streams the first valid line once, answers the three bulk
    rounds with an empty text and every later call with that same line. *)
Definition echoes : model :=
  {| open_stream := Stream [Says (line1 ++ newline)];
     generate := fun k => if (k <? 3)%nat then Says EmptyString else Says line1 |}.

(** [JSON.parse] for the framing examples: the texts "A", "B" and "C" are
    taken to be three valid units, any other text a syntax error. *)
Definition letters (text : string) : option value :=
  if String.eqb text "A" then Some (unit_with "Unit A of the stream" "r")
  else if String.eqb text "B" then Some (unit_with "Unit B of the stream" "r")
  else if String.eqb text "C" then Some (unit_with "Unit C of the stream" "r")
  else None.

(** A model whose stream is empty, whose first [n] calls return an empty
    text and whose later calls throw. *)
Definition fails_from (n : nat) : model :=
  {| open_stream := Stream [];
     generate := fun k => if (k <? n)%nat then Says EmptyString else Throws |}.

End Sample.

(* ===================================================================== *)
(** ** Predicates and auxiliary functions of the proofs *)
(* ===================================================================== *)

Module Shape.
Import Text.

Ltac each_char c := destruct c as [[] [] [] [] [] [] [] []].

(** A pattern made of word characters only. *)
Fixpoint all_word (pat : string) : bool :=
  match pat with
  | EmptyString => true
  | String p r => is_word p && all_word r
  end.

(** No whole-word occurrence of the placeholder, when the character before
    [s] is a word character or not according to [prev_word]. *)
Fixpoint quiet (prev_word : bool) (s : string) : bool :=
  match s with
  | EmptyString => true
  | String c r => (prev_word || negb (match_word blank s)) && quiet (is_word c) r
  end.

(** No two whitespace characters in a row. *)
Fixpoint tight (s : string) : bool :=
  match s with
  | EmptyString => true
  | String c r => negb (is_space c && starts_space r) && tight r
  end.

Definition stem_key : string := "question".
Definition options_key : string := "multipleChoiceOptions".

(** The two writes of the sanitizer, on a property list. *)
Definition written (ps : list (string * value)) (s o : value) : list (string * value) :=
  obj_set options_key o (obj_set stem_key s ps).

Definition guarded (q : value) : bool := truthy q && String.eqb (typeof q) "object".

(** The two guards on the options. *)
Definition options_test (v : value) : bool :=
  isArray v && (List.length (match v with VArr l => l | _ => [] end) =? 4)%nat
  && forallb nonblank_string (match v with VArr l => l | _ => [] end).

(** The explanations, as the validator reads them: [x || {}], then the
    object test, then the four keys. *)
Definition explanations_test (x : value) : bool :=
  let ie := if truthy x then x else VObj [] in
  truthy ie && String.eqb (typeof ie) "object"
  && forallb (fun k => nonblank_string (get k ie)) labels.

(** The whole text of a stream. *)
Fixpoint concat (chunks : list string) : string :=
  match chunks with
  | [] => EmptyString
  | txt :: more => (txt ++ concat more)%string
  end.

(** A request that passes the checks of a route and lets it build its
    prompt: a key, a body that is a value with properties, a section and a
    topic that have a string form and are not blank, a difficulty that has
    a string form. *)
Definition well_formed (String_of : value -> option string) (req : request) : bool :=
  negb (Text.is_empty (apiKey req))
  && match body req with
     | None | Some VNull | Some VUndef => false
     | Some b =>
         match text_field String_of (get "section" b),
               text_field String_of (get "topic" b) with
         | Some section, Some topic =>
             negb (Text.is_empty section) && negb (Text.is_empty topic)
             && match build_prompt String_of section topic b with
                | Some _ => true
                | None => false
                end
         | _, _ => false
         end
     end.

(** A request that a route answers with 400: it has a key and a body, its
    section and topic have a string form, and one of the two is blank. *)
Definition lacks_field (String_of : value -> option string) (req : request) : bool :=
  negb (Text.is_empty (apiKey req))
  && match body req with
     | None | Some VNull | Some VUndef => false
     | Some b =>
         match text_field String_of (get "section" b),
               text_field String_of (get "topic" b) with
         | Some section, Some topic => Text.is_empty section || Text.is_empty topic
         | _, _ => false
         end
     end.

End Shape.

(* ===================================================================== *)
(** ** Reading the response and the session *)
(* ===================================================================== *)

Module Trace.

(** The [index] fields of the question lines, in order. *)
Fixpoint question_indices (evs : list event) : list Z :=
  match evs with
  | [] => []
  | Question i _ :: r => i :: question_indices r
  | _ :: r => question_indices r
  end.

(** The units of the question lines, in order. *)
Fixpoint question_units (evs : list event) : list value :=
  match evs with
  | [] => []
  | Question _ q :: r => q :: question_units r
  | _ :: r => question_units r
  end.

Definition is_diagnostic (e : event) : bool :=
  match e with Server _ => true | _ => false end.

Definition is_question (e : event) : bool :=
  match e with Question _ _ => true | _ => false end.

(** [1, 2, ..., n]. *)
Definition numbered (n : nat) : list Z := map Z.of_nat (seq 1 n).

(** The unit as the response shows it: the branch without a stream writes
    the parsed object itself, every other tier writes the sanitized one. *)
Definition shown (a : tier * value) : value :=
  match fst a with
  | Fallback | FallbackTopup => snd a
  | _ => sanitizeQuestion (snd a)
  end.

(** The tiers that consult the set of fingerprints. *)
Definition checks_duplicates (t : tier) : bool :=
  match t with Single | Retry => true | _ => false end.

(** The fingerprints of the units accepted by the tiers [keep]. *)
Definition fingerprints (keep : tier -> bool) (acc : list (tier * value)) : list string :=
  map (fun a => fingerprint (snd a)) (filter (fun a => keep (fst a)) acc).

(** A tier and the sanitizing flag it is run with. *)
Definition coherent (sanitize : bool) (t : tier) : bool :=
  match t with
  | Fallback | FallbackTopup => negb sanitize
  | Single | Retry => false
  | _ => sanitize
  end.

(** The invariant of a session: the question lines are numbered from one
    without a gap, they show the accepted units, and the set of
    fingerprints holds those of the single-item tier, once each. *)
Record wf (st : session) : Prop := {
  wf_indices : question_indices (out st) = numbered (List.length (accepted st));
  wf_emitted : emitted st = Z.of_nat (List.length (accepted st));
  wf_units : question_units (out st) = map shown (accepted st);
  wf_seen : existingQuestions st = fingerprints checks_duplicates (accepted st);
  wf_nodup : NoDup (existingQuestions st)
}.

Definition preserves {A} (m : M A) : Prop := forall st, wf st -> wf (snd (m st)).

(** The command does not run out of fuel, whatever the state. *)
Definition fueled {A} (m : M A) : Prop := forall st, fst (m st) <> OutOfFuel.

(** The diagnostic lines among [evs]. *)
Definition diagnostics (evs : list event) : list event := filter is_diagnostic evs.

(** From [st] to [st'] the count of accepted units went up by [k], and no
    diagnostic line was written. *)
Definition advances (k : Z) (st st' : session) : Prop :=
  emitted st' = (emitted st + k)%Z
  /\ exists evs, out st' = out st ++ evs /\ diagnostics evs = [].

(** The units that the lines [lines] give when each is parsed and
    validated. *)
Definition valid_units (JSON_parse : string -> option value) (lines : list string)
  : list value :=
  flat_map (fun l => match JSON_parse l with
                     | Some obj => if isValidQuestion obj then [obj] else []
                     | None => []
                     end) lines.

(** The command only adds to the record of accepted units. *)
Definition grows {A} (m : M A) : Prop :=
  forall st, exists more, accepted (snd (m st)) = accepted st ++ more.

(** The command keeps the count of accepted units between [lo] and the
    larger of [lo] and [top], however it ends. *)
Definition within (top lo : Z) {A} (m : M A) : Prop :=
  forall st o st',
    m st = (o, st') ->
    (lo <= emitted st <= Z.max lo top)%Z ->
    (lo <= emitted st' <= Z.max lo top)%Z.

End Trace.
(* ===================================================================== *)
(** ** Reading a whole response *)
(* ===================================================================== *)

Module Lines.

(** Every question line is followed at once by a progress line that
    carries its index and the total [total]; no progress line stands
    anywhere else. *)
Fixpoint paired (total : Q) (evs : list event) : Prop :=
  match evs with
  | [] => True
  | Question i _ :: rest =>
      match rest with
      | Progress c t :: rest' => c = i /\ t = total /\ paired total rest'
      | _ => False
      end
  | Progress _ _ :: _ => False
  | _ :: rest => paired total rest
  end.

Definition is_terminal (e : event) : bool :=
  match e with Done | Error => true | _ => false end.

(** No terminal line among [evs]. *)
Definition open_ended (evs : list event) : Prop :=
  Forall (fun e => is_terminal e = false) evs.

(** A command keeps a property of the session, however it ends. *)
Definition keeps {A} (P : session -> Prop) (m : M A) : Prop :=
  forall st, P st -> P (snd (m st)).

(** A command that keeps [P] and, when it returns, has written the
    terminal line last. *)
Definition closes {A} (P : session -> Prop) (m : M A) : Prop :=
  forall st, P st ->
    match fst (m st) with
    | Returned _ => exists st', P st' /\ out (snd (m st)) = out st' ++ [Done]
    | _ => P (snd (m st))
    end.

(** The lines of a session start with [pre] and hold no terminal line
    after it. *)
Definition opens (pre : list event) (st : session) : Prop :=
  exists body, out st = pre ++ body /\ open_ended body.

(** A command does not throw from a state that satisfies [P]. *)
Definition calm {A} (P : session -> Prop) (m : M A) : Prop :=
  forall st, P st -> fst (m st) <> Thrown.

(** Every accepted unit passed the validator. *)
Definition all_valid (st : session) : Prop :=
  Forall (fun a => isValidQuestion (snd a) = true) (accepted st).

Definition counted (st : session) : Prop := (0 <= emitted st)%Z.

(** At most [c] calls of [generateContent] so far. *)
Definition capped (c : nat) (st : session) : Prop := calls st <= c.

(** A command makes at most [k] calls of [generateContent] from a state
    that satisfies [P]. *)
Definition costs {A} (P : session -> Prop) (k : nat) (m : M A) : Prop :=
  forall st, P st -> calls (snd (m st)) <= calls st + k.

(** The state after one more call of [generateContent]. *)
Definition called (st : session) : session :=
  {| emitted := emitted st; existingQuestions := existingQuestions st;
     calls := S (calls st); out := out st; accepted := accepted st |}.

(** The session [st] with the lines [o] in place of its own. *)
Definition with_out (st : session) (o : list event) : session :=
  {| emitted := emitted st; existingQuestions := existingQuestions st;
     calls := calls st; out := o; accepted := accepted st |}.

(** A command that never reads the lines written so far and only appends
    to them: its result, the rest of its final state and the lines it adds
    are the same whatever was written before. *)
Definition steady {A} (m : M A) : Prop :=
  forall st, exists (r : outcome A) (core : session) (evs : list event),
    forall pre, m (with_out st pre) = (r, with_out core (pre ++ evs)).

(** The primary tier on a list of candidates, one after the other: what
    the framing loops of all chunks do together. *)
Fixpoint handle_all (JSON_parse : string -> option value) (count : Q)
    (candidates : list string) : M unit :=
  match candidates with
  | [] => ret tt
  | line :: more =>
      bind (try_line JSON_parse count true Primary (Some "invalid") None line)
           (fun _ => handle_all JSON_parse count more)
  end.

(** A model that streams the chunks [chunks] and answers the calls of
    [generateContent] by [answers]. *)
Definition streams (chunks : list string) (answers : nat -> reply) : model :=
  {| open_stream := Stream (map Says chunks); generate := answers |}.

(** Every line but the marker of a chunk. *)
Definition not_chunk (e : event) : bool :=
  match e with
  | Server stage => negb (String.eqb stage "chunk")
  | _ => true
  end.

(** The tiers that come after the stream and its flush. *)
Definition after_stream (t : tier) : bool :=
  match t with
  | Bulk _ | Single | Retry | Filler => true
  | _ => false
  end.

(** A command only adds to the record of accepted units, and only units
    of the tiers [ok]. *)
Definition adds (ok : tier -> bool) {A} (m : M A) : Prop :=
  forall st, exists more,
    accepted (snd (m st)) = accepted st ++ more
    /\ forallb (fun a => ok (fst a)) more = true.

(** The slots [from + 1], ..., [from + n] filled by the filler. *)
Fixpoint fillers (topic : string) (from : Z) (n : nat) : list (tier * value) :=
  match n with
  | O => []
  | S k => (Filler, synthetic (from + 1) topic) :: fillers topic (from + 1) k
  end.

(** The texts of the chunks that did not fail. *)
Fixpoint texts (chunks : list reply) : list string :=
  match chunks with
  | [] => []
  | Says s :: more => s :: texts more
  | Throws :: more => texts more
  end.

Definition says (r : reply) : bool :=
  match r with Says _ => true | Throws => false end.

End Lines.

(* ===================================================================== *)
(** ** The practice page: the reader of the streaming route *)
(* ===================================================================== *)

(** The effect that loads a practice session posts to the streaming route
    and reads the body chunk by chunk, the page staying mounted.  Of its
    state the array [built] is modelled, from which the questions of the
    session are taken; the counters of the progress display are not.  A
    chunk is the text that the decoder gives for it. *)
Module Client.

(** A JavaScript array with holes. *)
Definition array : Type := list (option value).

(** [a[i] = v] for an array index [i]: the array grows, with holes, when
    [i] is at or past its length. *)
Fixpoint array_set (i : nat) (v : value) (a : array) : array :=
  match i, a with
  | O, [] => [Some v]
  | O, _ :: r => Some v :: r
  | S k, [] => None :: array_set k v []
  | S k, x :: r => x :: array_set k v r
  end.

(** [a.filter(Boolean)]: holes are not visited. *)
Definition compact (a : array) : list value :=
  flat_map (fun x => match x with
                     | Some v => if truthy v then [v] else []
                     | None => []
                     end) a.

(** [n - 1]. *)
Definition minus_one (n : number) : number :=
  match n with
  | Fin q => Fin (q - 1)%Q
  | _ => n
  end.

(** [n >= 0]. *)
Definition nonneg (n : number) : bool :=
  match n with
  | Fin q => Qle_bool 0 q
  | PosInf => true
  | _ => false
  end.

(** The array index that a number used as a property key denotes: an
    integer from 0 to 2^32 - 2.  Any other key names a plain property,
    which [filter] does not visit. *)
Definition array_index (n : number) : option nat :=
  match n with
  | Fin q =>
      if Qle_bool 0 q && Qeq_bool q (inject_Z (Qfloor q)) && (Qfloor q <? 2 ^ 32 - 1)%Z
      then Some (Z.to_nat (Qfloor q)) else None
  | _ => None
  end.

Section Reader.

Variable JSON_parse : string -> option value.

(** The conversion to a number of a value that is not one. *)
Variable Number_of : value -> number.

Definition to_number (v : value) : number :=
  match v with
  | VNum n => n
  | _ => Number_of v
  end.

(** The part of the message handler that writes [built]. *)
Definition on_message (msg : value) (built : array) : array :=
  if is_str "question" (get "type" msg) && truthy (get "question" msg) then
    let i := minus_one (to_number (get "index" msg)) in
    if nonneg i then
      match array_index i with
      | Some k => array_set k (get "question" msg) built
      | None => built
      end
    else built
  else built.

(** [try { const msg = JSON.parse(line); ... } catch {}]. *)
Definition on_line (line : string) (built : array) : array :=
  match JSON_parse line with
  | Some msg => on_message msg built
  | None => built
  end.

(** [while ((idx = buf.indexOf("\n")) !== -1) { ... }]; [None] when the
    fuel runs out. *)
Fixpoint drain (fuel : nat) (buf : string) (built : array) : option (string * array) :=
  match Text.cut_line buf with
  | None => Some (buf, built)
  | Some (slice, rest) =>
      match fuel with
      | O => None
      | S fuel' =>
          let line := Text.trim slice in
          drain fuel' rest (if Text.is_empty line then built else on_line line built)
      end
  end.

(** [while (true) { const { value, done } = await reader.read(); ... }] on
    a body that ends. *)
Fixpoint read (chunks : list string) (buf : string) (built : array) : option array :=
  match chunks with
  | [] => Some built
  | txt :: more =>
      let buf := (buf ++ txt)%string in
      match drain (String.length buf) buf built with
      | Some (buf', built') => read more buf' built'
      | None => None
      end
  end.

(** [qs = built.filter(Boolean)], the questions of the session. *)
Definition questions (chunks : list string) : option (list value) :=
  option_map compact (read chunks EmptyString []).

End Reader.

(** The guard of the page on its questions.  [parsed_choices] stands for
    [parseQuestionText(text).choices.length], [None] when the call throws;
    [answers i] is [answers[i]], undefined when there is none. *)
Section Guard.

Variable parsed_choices : value -> option nat.
Variable questions : list value.
Variable answers : nat -> value.

(** The test shared by [allAnswered] and [isCurrentQuestionValid]: four
    options in the unit, or else four choices parsed from its text. *)
Definition has_choices (q : value) : bool :=
  let by_text :=
    match parsed_choices (if truthy (get "question" q) then get "question" q
                          else VStr EmptyString) with
    | Some n => (4 <=? n)%nat
    | None => false
    end in
  match get "multipleChoiceOptions" q with
  | VArr options => if (4 <=? List.length options)%nat then true else by_text
  | _ => by_text
  end.

(** The callback of [questions.every]; reading a property of [null] or
    [undefined] throws ([None]). *)
Definition answered_or_skipped (q : value) (idx : nat) : option bool :=
  match q with
  | VNull | VUndef => None
  | _ => Some (negb (has_choices q) || truthy (answers idx))
  end.

(** [qs.every(callback)] from the index [idx] on: it stops at the first
    [false]. *)
Fixpoint every_from (idx : nat) (qs : list value) : option bool :=
  match qs with
  | [] => Some true
  | q :: more =>
      match answered_or_skipped q idx with
      | Some true => every_from (S idx) more
      | r => r
      end
  end.

Definition allAnswered : option bool :=
  if (0 <? List.length questions)%nat then every_from 0 questions else Some false.

Definition isCurrentQuestionValid (currentIdx : nat) : bool :=
  match nth_error questions currentIdx with
  | Some current => if truthy current then has_choices current else false
  | None => false
  end.

Definition canProceedNext (currentIdx : nat) : bool :=
  if negb (isCurrentQuestionValid currentIdx) then true
  else truthy (answers currentIdx).

End Guard.

(** What the reader looks at in the message of a line: its type and, in
    a question line, the index and the unit.  The other fields of a line
    (time stamps, sizes, the text of an error) are free. *)
Definition reads (e : event) (msg : value) : Prop :=
  match e with
  | Server _ => get "type" msg = VStr "server"
  | Question index question =>
      get "type" msg = VStr "question"
      /\ get "index" msg = VNum (Fin (inject_Z index))
      /\ get "question" msg = question
  | Progress _ _ => get "type" msg = VStr "progress"
  | Done => get "type" msg = VStr "done"
  | Error => get "type" msg = VStr "error"
  end.

(** No line feed in [s]. *)
Fixpoint one_line (s : string) : bool :=
  match s with
  | EmptyString => true
  | String c r => negb (Text.is_nl c) && one_line r
  end.

(** The text [w] carries the line [e] to the reader: it holds no line
    feed, and the parser of the page reads it as a message of [e]. *)
Definition carried (parse : string -> option value) (e : event) (w : string) : Prop :=
  one_line w = true
  /\ Text.trim w <> EmptyString
  /\ exists msg, parse (Text.trim w) = Some msg /\ reads e msg.

(** The text of a body made of the lines [ws]: each is followed by a
    line feed. *)
Fixpoint body_text (ws : list string) : string :=
  match ws with
  | [] => EmptyString
  | w :: more => (w ++ String Text.nl (body_text more))%string
  end.

(** An example: the lines of the response to a request for two questions
    whose stream brings the two valid lines in one chunk, as JSON texts,
    and [JSON.parse] on these texts. *)
Definition sample_lines : list string :=
  [ Sample.json "{'type':'server','stage':'received','t':0}";
    Sample.json ("{'type':'server','stage':'prompt-built','t':0,'section':'Math',"
                 ++ "'topic':'Algebra','difficulty':'Medium','count':2}");
    Sample.json "{'type':'server','stage':'stream-open','t':0,'ttfbMs':0}";
    Sample.json "{'type':'server','stage':'chunk','t':0,'size':450}";
    (Sample.json "{'type':'question','index':1,'question':" ++ Sample.line1 ++ "}")%string;
    Sample.json "{'type':'progress','completed':1,'total':2}";
    (Sample.json "{'type':'question','index':2,'question':" ++ Sample.line2 ++ "}")%string;
    Sample.json "{'type':'progress','completed':2,'total':2}";
    Sample.json "{'type':'done'}" ].

Definition sample_messages : list value :=
  [ VObj [("type", VStr "server"); ("stage", VStr "received"); ("t", VNum (Fin 0))];
    VObj [("type", VStr "server"); ("stage", VStr "prompt-built"); ("t", VNum (Fin 0));
          ("section", VStr "Math"); ("topic", VStr "Algebra");
          ("difficulty", VStr "Medium"); ("count", VNum (Fin 2))];
    VObj [("type", VStr "server"); ("stage", VStr "stream-open"); ("t", VNum (Fin 0));
          ("ttfbMs", VNum (Fin 0))];
    VObj [("type", VStr "server"); ("stage", VStr "chunk"); ("t", VNum (Fin 0));
          ("size", VNum (Fin 450))];
    VObj [("type", VStr "question"); ("index", VNum (Fin 1)); ("question", Sample.q1)];
    VObj [("type", VStr "progress"); ("completed", VNum (Fin 1)); ("total", VNum (Fin 2))];
    VObj [("type", VStr "question"); ("index", VNum (Fin 2)); ("question", Sample.q2)];
    VObj [("type", VStr "progress"); ("completed", VNum (Fin 2)); ("total", VNum (Fin 2))];
    VObj [("type", VStr "done")] ].

Fixpoint table (keys : list string) (values : list value) (line : string) : option value :=
  match keys, values with
  | k :: keys', v :: values' => if String.eqb line k then Some v else table keys' values' line
  | _, _ => None
  end.

Definition sample_parse : string -> option value := table sample_lines sample_messages.

(** The body of that response, cut in two in the middle of a line. *)
Definition sample_chunks : list string :=
  let body := body_text sample_lines in
  [substring 0 100 body; substring 100 (String.length body - 100) body].

End Client.

(* ===================================================================== *)
(** * Properties *)
(* ===================================================================== *)

(** ** Character classes *)

Module TextFacts.
Import Text.
Import Shape.

Lemma fold_case_word (c : ascii) : is_word (fold_case c) = is_word c.
Proof. each_char c; reflexivity. Qed.

Lemma space_not_word (c : ascii) : is_space c = true -> is_word c = false.
Proof. each_char c; intros H; try reflexivity; discriminate H. Qed.

Lemma folded_is_word (p c : ascii) :
  is_word p = true -> Ascii.eqb p (fold_case c) = true -> is_word c = true.
Proof.
  intros Hp H. apply Ascii.eqb_eq in H. subst p.
  now rewrite fold_case_word in Hp.
Qed.

Lemma no_match_at_nonword (p : ascii) (pat : string) (c : ascii) (r : string) :
  is_word p = true -> is_word c = false -> match_word (String p pat) (String c r) = false.
Proof.
  intros Hp Hc. simpl. destruct (Ascii.eqb p (fold_case c)) eqn:E; [|reflexivity].
  apply (folded_is_word _ _ Hp) in E. congruence.
Qed.

Lemma blank_cons (c : ascii) (r : string) :
  match_word blank (String c r) = Ascii.eqb "b" (fold_case c) && match_word "lank" r.
Proof. reflexivity. Qed.

Lemma blank_at_nonword (c : ascii) (r : string) :
  is_word c = false -> match_word blank (String c r) = false.
Proof. intros H. unfold blank. now apply no_match_at_nonword. Qed.

(** A match at [c] followed by the text [r'] gives a match at [c] followed
    by [r], when every match of the tail in [r'] is one in [r]. *)
Lemma blank_transfer (c : ascii) (r r' : string) :
  (match_word "lank" r' = true -> match_word "lank" r = true) ->
  match_word blank (String c r) = false -> match_word blank (String c r') = false.
Proof.
  rewrite !blank_cons. intros Ht H.
  destruct (Ascii.eqb "b" (fold_case c)); [|reflexivity]. cbn [andb] in H |- *.
  destruct (match_word "lank" r') eqn:E; [|reflexivity].
  rewrite (Ht eq_refl) in H. discriminate.
Qed.

(** ** Removing the placeholder word *)

Lemma quiet_weaken (s : string) : quiet false s = true -> quiet true s = true.
Proof. destruct s; simpl; [easy|]. intros H. apply andb_true_iff in H. tauto. Qed.

Lemma quiet_any (p : bool) (s : string) : quiet false s = true -> quiet p s = true.
Proof. destruct p; [apply quiet_weaken | easy]. Qed.

Lemma remove_blank_fixed (s : string) :
  forall p, quiet p s = true -> remove_blank 0 p s = s.
Proof.
  induction s as [|c r IH]; intros p H; [reflexivity|].
  cbn [quiet] in H. apply andb_true_iff in H. destruct H as [H1 H2].
  cbn [remove_blank].
  assert (E : negb p && match_word blank (String c r) = false).
  { destruct p; [reflexivity|]. cbn [orb] in H1. apply negb_true_iff in H1.
    cbn [negb andb]. exact H1. }
  rewrite E. now rewrite IH.
Qed.

Lemma match_word_boundary (pat : string) :
  forall s, match_word pat s = true -> at_boundary (drop (String.length pat) s) = true.
Proof.
  induction pat as [|a pat IH]; intros s H; [destruct s; exact H|].
  destruct s as [|c r]; [discriminate H|].
  simpl in H. apply andb_true_iff in H. simpl. apply IH. tauto.
Qed.

Lemma remove_blank_word_head (c : ascii) (r : string) :
  remove_blank 0 true (String c r) = String c (remove_blank 0 (is_word c) r).
Proof. reflexivity. Qed.

(** A match found in the output was already a match in the input. *)
Lemma match_after_removal (pat : string) :
  all_word pat = true ->
  forall s, match_word pat (remove_blank 0 true s) = true -> match_word pat s = true.
Proof.
  induction pat as [|a pat IH]; intros Hw s H.
  - destruct s; [reflexivity|]. now rewrite remove_blank_word_head in H.
  - simpl in Hw. apply andb_true_iff in Hw. destruct Hw as [Ha Hw].
    destruct s as [|c r]; [discriminate H|].
    rewrite remove_blank_word_head in H. cbn [match_word] in H |- *.
    apply andb_true_iff in H. destruct H as [E H].
    rewrite E. rewrite (folded_is_word _ _ Ha E) in H.
    now rewrite (IH Hw r H).
Qed.

Lemma quiet_after_boundary (r : string) :
  at_boundary r = true ->
  quiet true (remove_blank 0 true r) = true -> quiet false (remove_blank 0 true r) = true.
Proof.
  destruct r as [|x r]; [easy|]. intros Hb.
  rewrite remove_blank_word_head. cbn [quiet]. simpl in Hb.
  apply negb_true_iff in Hb. intros H.
  now rewrite (blank_at_nonword x _ Hb).
Qed.

Lemma remove_blank_quiet (s : string) :
  forall k p,
    (k = 0 \/ at_boundary (drop k s) = true) ->
    quiet (match k with 0 => p | S _ => false end) (remove_blank k p s) = true.
Proof.
  induction s as [|c r IH]; intros k p Hk; [now destruct k|].
  destruct k as [|k].
  - cbn [remove_blank].
    destruct (negb p && match_word blank (String c r)) eqn:E.
    + apply andb_true_iff in E. destruct E as [Ep Em].
      apply negb_true_iff in Ep. subst p.
      apply (IH 4 true). right.
      exact (match_word_boundary blank (String c r) Em).
    + cbn [quiet]. rewrite (IH 0 (is_word c) (or_introl eq_refl)), andb_true_r.
      destruct p; [reflexivity|]. cbn [negb andb orb] in E |- *.
      apply negb_true_iff.
      destruct (is_word c) eqn:Hc; [|now apply blank_at_nonword].
      revert E. apply blank_transfer.
      apply (match_after_removal "lank" eq_refl).
  - destruct Hk as [Hk|Hk]; [discriminate Hk|].
    cbn [remove_blank]. simpl in Hk.
    destruct k as [|k].
    + apply quiet_after_boundary; [exact Hk|].
      apply (IH 0 true). now left.
    + apply (IH (S k) true). now right.
Qed.

(** ** Collapsing runs of whitespace *)

Lemma collapse_nonspace (b : bool) (c : ascii) (r : string) :
  is_space c = false ->
  collapse_spaces b (String c r) = String c (collapse_spaces false r).
Proof. intros H. simpl. now rewrite H. Qed.

Lemma match_after_collapse (pat : string) :
  all_word pat = true ->
  forall s, match_word pat (collapse_spaces false s) = true -> match_word pat s = true.
Proof.
  induction pat as [|a pat IH]; intros Hw s H.
  - destruct s as [|c r]; [reflexivity|]. simpl in H |- *.
    destruct (is_space c) eqn:Hs.
    + now rewrite (space_not_word _ Hs).
    + exact H.
  - simpl in Hw. apply andb_true_iff in Hw. destruct Hw as [Ha Hw].
    destruct s as [|c r]; [discriminate H|].
    destruct (is_space c) eqn:Hs.
    + exfalso. cbn [collapse_spaces] in H. rewrite Hs in H.
      destruct (starts_space r).
      * rewrite (no_match_at_nonword a pat sp _ Ha eq_refl) in H. discriminate.
      * rewrite (no_match_at_nonword a pat c _ Ha (space_not_word _ Hs)) in H.
        discriminate.
    + rewrite (collapse_nonspace _ _ _ Hs) in H. cbn [match_word] in H |- *.
      apply andb_true_iff in H. destruct H as [E H].
      now rewrite E, (IH Hw r H).
Qed.

Lemma collapse_quiet (s : string) :
  forall p b, quiet p s = true -> quiet p (collapse_spaces b s) = true.
Proof.
  induction s as [|c r IH]; intros p b H; [exact H|].
  cbn [quiet] in H. apply andb_true_iff in H. destruct H as [H1 H2].
  destruct (is_space c) eqn:Hs.
  - rewrite (space_not_word _ Hs) in H2.
    simpl. rewrite Hs. destruct b.
    + apply quiet_any. now apply IH.
    + destruct (starts_space r).
      * cbn [quiet].
        rewrite (blank_at_nonword sp _ eq_refl).
        rewrite orb_true_r. simpl. now apply IH.
      * cbn [quiet].
        rewrite (blank_at_nonword c _ (space_not_word _ Hs)).
        rewrite orb_true_r, (space_not_word _ Hs). simpl. now apply IH.
  - rewrite (collapse_nonspace _ _ _ Hs). cbn [quiet].
    rewrite (IH _ false H2), andb_true_r.
    destruct p; [reflexivity|]. cbn [orb] in H1 |- *.
    apply negb_true_iff in H1. apply negb_true_iff.
    revert H1. apply blank_transfer.
    apply (match_after_collapse "lank" eq_refl).
Qed.

Lemma collapse_fixed (s : string) : tight s = true -> collapse_spaces false s = s.
Proof.
  induction s as [|c r IH]; [reflexivity|]. simpl. intros H.
  apply andb_true_iff in H. destruct H as [H1 H2]. rewrite (IH H2).
  destruct (is_space c); [|reflexivity].
  simpl in H1. apply negb_true_iff in H1. now rewrite H1.
Qed.

Lemma collapse_starts (s : string) :
  starts_space (collapse_spaces false s) = starts_space s.
Proof.
  destruct s as [|c r]; [reflexivity|]. simpl.
  destruct (is_space c) eqn:Hs; [|simpl; exact Hs].
  destruct (starts_space r); simpl; [reflexivity|exact Hs].
Qed.

Lemma collapse_tight (s : string) :
  forall b, tight (collapse_spaces b s) = true
            /\ (b = true -> starts_space (collapse_spaces b s) = false).
Proof.
  induction s as [|c r IH]; intros b; [now split|].
  destruct (is_space c) eqn:Hs.
  - simpl. rewrite Hs. destruct b.
    + apply IH.
    + destruct (starts_space r) eqn:Hr.
      * split; [|discriminate]. cbn [tight].
        destruct (IH true) as [Ht Hn]. rewrite Ht, (Hn eq_refl).
        now rewrite andb_false_r.
      * split; [|discriminate]. cbn [tight].
        rewrite collapse_starts, Hr, andb_false_r.
        apply (IH false).
  - rewrite (collapse_nonspace _ _ _ Hs). split.
    + cbn [tight]. rewrite Hs. simpl. apply (IH false).
    + intros _. exact Hs.
Qed.

(** ** Trimming *)

Lemma trimEnd_cons (c : ascii) (r : string) :
  trimEnd (String c r)
  = if is_empty (trimEnd r) && is_space c then EmptyString else String c (trimEnd r).
Proof. simpl. destruct (trimEnd r); simpl; [destruct (is_space c)|]; reflexivity. Qed.

Lemma trimEnd_idem (s : string) : trimEnd (trimEnd s) = trimEnd s.
Proof.
  induction s as [|c r IH]; [reflexivity|].
  rewrite trimEnd_cons.
  destruct (is_empty (trimEnd r) && is_space c) eqn:E; [reflexivity|].
  now rewrite trimEnd_cons, IH, E.
Qed.

Lemma trimStart_starts (s : string) : starts_space (trimStart s) = false.
Proof.
  induction s as [|c r IH]; [reflexivity|]. simpl.
  destruct (is_space c) eqn:Hs; [exact IH|exact Hs].
Qed.

Lemma trimStart_fixed (s : string) : starts_space s = false -> trimStart s = s.
Proof. destruct s; simpl; [easy|]. now intros ->. Qed.

Lemma trimEnd_starts (s : string) :
  starts_space s = false -> starts_space (trimEnd s) = false.
Proof.
  destruct s as [|c r]; [easy|]. rewrite trimEnd_cons. simpl. intros H.
  now destruct (is_empty (trimEnd r) && is_space c).
Qed.

Lemma trim_idem (s : string) : trim (trim s) = trim s.
Proof.
  unfold trim.
  rewrite (trimStart_fixed (trimEnd (trimStart s))).
  - apply trimEnd_idem.
  - apply trimEnd_starts, trimStart_starts.
Qed.

Lemma trimStart_quiet (s : string) :
  quiet false s = true -> quiet false (trimStart s) = true.
Proof.
  induction s as [|c r IH]; [easy|]. intros H. simpl.
  destruct (is_space c) eqn:Hs; [|exact H].
  apply IH. cbn [quiet] in H. apply andb_true_iff in H.
  rewrite (space_not_word _ Hs) in H. tauto.
Qed.

Lemma match_after_trimEnd (pat : string) :
  forall s, match_word pat (trimEnd s) = true -> match_word pat s = true.
Proof.
  induction pat as [|a pat IH]; intros s H.
  - destruct s as [|c r]; [reflexivity|]. rewrite trimEnd_cons in H.
    destruct (is_empty (trimEnd r) && is_space c) eqn:E; [|exact H].
    apply andb_true_iff in E. simpl. now rewrite (space_not_word c (proj2 E)).
  - destruct s as [|c r]; [discriminate H|]. rewrite trimEnd_cons in H.
    destruct (is_empty (trimEnd r) && is_space c); [discriminate H|].
    cbn [match_word] in H |- *. apply andb_true_iff in H.
    destruct H as [E H]. now rewrite E, (IH r H).
Qed.

Lemma trimEnd_quiet (s : string) :
  forall p, quiet p s = true -> quiet p (trimEnd s) = true.
Proof.
  induction s as [|c r IH]; intros p H; [exact H|].
  rewrite trimEnd_cons.
  destruct (is_empty (trimEnd r) && is_space c) eqn:E; [reflexivity|].
  cbn [quiet] in H |- *. apply andb_true_iff in H. destruct H as [H1 H2].
  rewrite (IH _ H2), andb_true_r.
  destruct p; [reflexivity|]. cbn [orb] in H1 |- *.
  apply negb_true_iff in H1. apply negb_true_iff.
  revert H1. apply blank_transfer.
  apply match_after_trimEnd.
Qed.

Lemma trimStart_tight (s : string) : tight s = true -> tight (trimStart s) = true.
Proof.
  induction s as [|c r IH]; [easy|]. intros H. simpl.
  destruct (is_space c); [|exact H].
  apply IH. simpl in H. apply andb_true_iff in H. tauto.
Qed.

Lemma trimEnd_starts_rev (s : string) :
  starts_space (trimEnd s) = true -> starts_space s = true.
Proof.
  destruct s as [|c r]; [easy|]. rewrite trimEnd_cons.
  now destruct (is_empty (trimEnd r) && is_space c).
Qed.

Lemma trimEnd_tight (s : string) : tight s = true -> tight (trimEnd s) = true.
Proof.
  induction s as [|c r IH]; [easy|]. intros H. rewrite trimEnd_cons.
  destruct (is_empty (trimEnd r) && is_space c); [reflexivity|].
  simpl in H |- *. apply andb_true_iff in H. destruct H as [H1 H2].
  rewrite (IH H2), andb_true_r.
  apply negb_true_iff in H1. apply negb_true_iff.
  destruct (is_space c); [|reflexivity]. simpl in H1 |- *.
  destruct (starts_space (trimEnd r)) eqn:E; [|reflexivity].
  apply trimEnd_starts_rev in E. congruence.
Qed.

(** ** The cleaning of one string *)

Lemma clean_quiet (s : string) : quiet false (clean s) = true.
Proof.
  unfold clean, trim.
  apply trimEnd_quiet, trimStart_quiet, collapse_quiet.
  apply (remove_blank_quiet s 0 false). now left.
Qed.

Lemma clean_tight (s : string) : tight (clean s) = true.
Proof.
  unfold clean, trim. apply trimEnd_tight, trimStart_tight, collapse_tight.
Qed.

Lemma clean_idem (s : string) : clean (clean s) = clean s.
Proof.
  unfold clean at 1.
  rewrite (remove_blank_fixed _ _ (clean_quiet s)).
  rewrite (collapse_fixed _ (clean_tight s)).
  unfold clean. apply trim_idem.
Qed.

End TextFacts.

(* ===================================================================== *)
(** ** Objects *)
(* ===================================================================== *)

Module ObjFacts.

Lemma lookup_set_same (k : string) (v : value) (ps : list (string * value)) :
  lookup k (obj_set k v ps) = Some v.
Proof.
  induction ps as [|[k' v'] r IH]; simpl.
  - now rewrite String.eqb_refl.
  - destruct (String.eqb k' k) eqn:E; simpl.
    + now rewrite String.eqb_refl.
    + now rewrite E.
Qed.

Lemma lookup_set_other (k k' : string) (v : value) (ps : list (string * value)) :
  k <> k' -> lookup k' (obj_set k v ps) = lookup k' ps.
Proof.
  intros Hk. induction ps as [|[k0 v0] r IH]; simpl.
  - apply String.eqb_neq in Hk. now rewrite Hk.
  - destruct (String.eqb k0 k) eqn:E; simpl.
    + apply String.eqb_eq in E. subst k0.
      apply String.eqb_neq in Hk. now rewrite Hk.
    + now rewrite IH.
Qed.

Lemma set_same (k : string) (v : value) (ps : list (string * value)) :
  lookup k ps = Some v -> obj_set k v ps = ps.
Proof.
  induction ps as [|[k' v'] r IH]; simpl; [discriminate|].
  destruct (String.eqb k' k) eqn:E.
  - apply String.eqb_eq in E. now intros [= ->]; subst.
  - intros H. now rewrite IH.
Qed.

Lemma get_set_same (k : string) (v : value) (ps : list (string * value)) :
  get k (VObj (obj_set k v ps)) = v.
Proof. simpl. now rewrite lookup_set_same. Qed.

Lemma get_set_other (k k' : string) (v : value) (ps : list (string * value)) :
  k <> k' -> get k' (VObj (obj_set k v ps)) = get k' (VObj ps).
Proof. intros H. simpl. now rewrite lookup_set_other. Qed.

(** Writing back the value that a key already reads as changes no read. *)
Lemma get_set_own (k k' : string) (ps : list (string * value)) :
  get k' (VObj (obj_set k (get k (VObj ps)) ps)) = get k' (VObj ps).
Proof.
  destruct (String.eqb k k') eqn:E.
  - apply String.eqb_eq in E. subst. apply get_set_same.
  - apply String.eqb_neq in E. now apply get_set_other.
Qed.

Lemma keys_set_present (k : string) (v : value) (ps : list (string * value)) :
  In k (keys ps) -> keys (obj_set k v ps) = keys ps.
Proof.
  induction ps as [|[k' v'] r IH]; simpl; [easy|].
  destruct (String.eqb k' k) eqn:E.
  - apply String.eqb_eq in E. now subst.
  - intros [H|H]; [subst; now rewrite String.eqb_refl in E|].
    simpl. now rewrite IH.
Qed.

Lemma clean_value_idem (v : value) : clean (clean v) = clean v.
Proof. destruct v; simpl; try reflexivity. now rewrite TextFacts.clean_idem. Qed.

Lemma clean_options_idem (v : value) : clean_options (clean_options v) = clean_options v.
Proof.
  destruct v; simpl; try reflexivity. f_equal.
  rewrite map_map. apply map_ext. intros. apply clean_value_idem.
Qed.

End ObjFacts.

(* ===================================================================== *)
(** ** The sanitizer *)
(* ===================================================================== *)

Module SanitizerFacts.
Import ObjFacts.
Import Shape.

Lemma keys_differ : options_key <> stem_key.
Proof. discriminate. Qed.

Lemma written_stem ps s o : get stem_key (VObj (written ps s o)) = s.
Proof.
  unfold written. rewrite get_set_other by exact keys_differ.
  apply get_set_same.
Qed.

Lemma written_options ps s o : get options_key (VObj (written ps s o)) = o.
Proof. unfold written. apply get_set_same. Qed.

Lemma written_again ps s o : written (written ps s o) s o = written ps s o.
Proof.
  unfold written at 1.
  assert (Hs : lookup stem_key (written ps s o) = Some s).
  { unfold written. rewrite lookup_set_other by exact keys_differ.
    apply lookup_set_same. }
  rewrite (set_same _ _ _ Hs).
  apply set_same. unfold written. apply lookup_set_same.
Qed.

Lemma sanitizeQuestion_shape (q : value) :
  q <> VUndef -> q <> VNull ->
  sanitizeQuestion q
  = VObj (written (own_props q) (clean (get stem_key q)) (clean_options (get options_key q))).
Proof. destruct q; intros H1 H2; try reflexivity; congruence. Qed.

Lemma sanitizeEntry_shape (q : value) :
  guarded q = true ->
  sanitizeEntry q
  = VObj (obj_set "correctExplanation" (get "correctExplanation" q)
           (obj_set "incorrectExplanations" (get "incorrectExplanations" q)
              (written (own_props q) (clean (get stem_key q))
                       (clean_options (get options_key q))))).
Proof. unfold sanitizeEntry, guarded. now intros ->. Qed.

Lemma sanitizeEntry_unguarded (q : value) : guarded q = false -> sanitizeEntry q = q.
Proof. unfold sanitizeEntry, guarded. now intros ->. Qed.

End SanitizerFacts.

(* ===================================================================== *)
(** ** The validator *)
(* ===================================================================== *)

Module ValidatorFacts.
Import Contract.
Import Shape.

Lemma is_empty_length (s : string) : (String.length s =? 0)%nat = Text.is_empty s.
Proof. now destruct s. Qed.

Lemma is_empty_true (s : string) : Text.is_empty s = true <-> s = EmptyString.
Proof. destruct s; simpl; split; congruence. Qed.

Lemma nonblank_string_iff (v : value) : nonblank_string v = true <-> nonblank v.
Proof.
  unfold nonblank. destruct v; simpl; try (split; [discriminate | intros (s0 & [=] & _)]).
  rewrite is_empty_length, negb_true_iff. split.
  - intros H. exists s. split; [reflexivity|].
    intros E. apply is_empty_true in E. congruence.
  - intros (s0 & [= <-] & H). destruct (Text.trim s); [congruence|reflexivity].
Qed.

Lemma trimmed_string_iff (n : nat) (v : value) :
  trimmed_string_at_least n v = true
  <-> exists s, v = VStr s /\ n <= String.length (Text.trim s).
Proof.
  destruct v; simpl; try (split; [discriminate | intros (s0 & [=] & _)]).
  rewrite Nat.leb_le. split.
  - intros H. now exists s.
  - now intros (s0 & [= <-] & H).
Qed.

Lemma options_iff (v : value) :
  options_test v = true
  <-> exists items, v = VArr items /\ List.length items = 4 /\ Forall nonblank items.
Proof.
  unfold options_test. destruct v; simpl; try (split; [discriminate | intros (l & [=] & _)]).
  rewrite andb_true_iff, Nat.eqb_eq, forallb_forall. split.
  - intros [Hl Hf]. exists items. repeat split; [exact Hl|].
    apply Forall_forall. intros x Hx. now apply nonblank_string_iff, Hf.
  - intros (l & [= <-] & Hl & Hf). split; [exact Hl|].
    rewrite Forall_forall in Hf.
    intros x Hx. now apply nonblank_string_iff, Hf.
Qed.

Lemma answer_iff (v : value) :
  existsb (fun l => is_str l v) labels = true <-> exists l, In l labels /\ v = VStr l.
Proof.
  rewrite existsb_exists. split.
  - intros (l & Hl & H). exists l. split; [exact Hl|].
    destruct v; try discriminate H. simpl in H. apply String.eqb_eq in H. now subst.
  - intros (l & Hl & ->). exists l. split; [exact Hl|]. simpl. apply String.eqb_refl.
Qed.

Lemma explanations_iff (x : value) :
  explanations_test x = true
  <-> exists props, x = VObj props /\ forall l, In l labels -> nonblank (get l (VObj props)).
Proof.
  unfold explanations_test. split.
  - intros H. apply andb_true_iff in H. destruct H as [_ H].
    rewrite forallb_forall in H.
    assert (HA := H "A" (or_introl eq_refl)).
    destruct x as [| |b|n|s|l|props];
      try (destruct (truthy _); discriminate HA).
    exists props. split; [reflexivity|]. intros l Hl.
    apply nonblank_string_iff. exact (H l Hl).
  - intros (props & -> & H). cbn [truthy typeof]. rewrite String.eqb_refl.
    cbn [andb]. apply forallb_forall. intros l Hl. apply nonblank_string_iff. now apply H.
Qed.

(** The validator as one conjunction of its guards. *)
Lemma isValidQuestion_guards (q : value) :
  isValidQuestion q
  = (truthy q && String.eqb (typeof q) "object")
    && trimmed_string_at_least 5 (get "question" q)
    && options_test (get "multipleChoiceOptions" q)
    && existsb (fun l => is_str l (get "correctAnswer" q)) labels
    && explanations_test (get "incorrectExplanations" q)
    && nonblank_string (get "correctExplanation" q).
Proof.
  unfold isValidQuestion, explanations_test, options_test.
  destruct (truthy q && String.eqb (typeof q) "object") eqn:E0.
  2:{ apply andb_false_iff in E0.
      destruct E0 as [-> | ->]; simpl; [reflexivity | now rewrite orb_true_r]. }
  apply andb_true_iff in E0. destruct E0 as [-> ->]. cbn [negb orb andb].
  destruct (trimmed_string_at_least 5 (get "question" q)); [|reflexivity].
  cbn [negb andb].
  destruct (isArray (get "multipleChoiceOptions" q)); [|reflexivity].
  cbn [negb orb andb].
  destruct (List.length _ =? 4)%nat; [|reflexivity]. cbn [negb andb].
  destruct (forallb nonblank_string _); [|reflexivity]. cbn [negb andb].
  destruct (existsb _ labels); [|reflexivity]. cbn [negb andb].
  set (ie := if truthy (get "incorrectExplanations" q)
             then get "incorrectExplanations" q else VObj []).
  destruct (truthy ie); [|reflexivity]. cbn [negb orb andb].
  destruct (String.eqb (typeof ie) "object"); [|reflexivity]. cbn [negb andb].
  destruct (forallb _ labels); [|reflexivity]. cbn [negb andb].
  now destruct (nonblank_string (get "correctExplanation" q)).
Qed.

Lemma stem_is_object (q : value) : stem_ok q -> exists props, q = VObj props.
Proof.
  intros (s & H & _). destruct q; try discriminate H. now exists props.
Qed.

End ValidatorFacts.

(* ===================================================================== *)
(** ** Line framing *)
(* ===================================================================== *)

Module FramerFacts.
Import Framer.
Import Shape.

Lemma candidates_app (a b : list string) :
  candidates (a ++ b) = candidates a ++ candidates b.
Proof. unfold candidates. now rewrite map_app, filter_app. Qed.

Lemma candidates_cons (l : string) (ls : list string) :
  candidates (l :: ls) = candidates [l] ++ candidates ls.
Proof. exact (candidates_app [l] ls). Qed.

Lemma candidates_empty (ls : list string) :
  candidates (EmptyString :: ls) = candidates ls.
Proof. reflexivity. Qed.

(** The unfolding of [drained] on a character that is no line feed. *)
Lemma drained_char (c : ascii) (r : string) :
  Text.is_nl c = false ->
  drained (String c r)
  = match fst (drained r) with
    | [] => ([], String c (snd (drained r)))
    | l :: ls => (String c l :: ls, snd (drained r))
    end.
Proof. intros H. simpl. rewrite H. now destruct (drained r) as [[|l ls] rest]. Qed.

Lemma drained_nl (c : ascii) (r : string) :
  Text.is_nl c = true ->
  drained (String c r) = (EmptyString :: fst (drained r), snd (drained r)).
Proof. intros H. simpl. rewrite H. now destruct (drained r). Qed.

(** Appending to the buffer: the slices already cut stay, and the loop
    goes on with what was left. *)
Lemma drained_app (a b : string) :
  drained (a ++ b)
  = (fst (drained a) ++ fst (drained (snd (drained a) ++ b)),
     snd (drained (snd (drained a) ++ b))).
Proof.
  induction a as [|c r IH]; [simpl; now destruct (drained b)|].
  change (String c r ++ b)%string with (String c (r ++ b)).
  destruct (Text.is_nl c) eqn:E.
  - rewrite !(drained_nl _ _ E), IH. reflexivity.
  - rewrite !(drained_char _ _ E), IH. cbn [fst snd].
    destruct (fst (drained r)) as [|l ls]; cbn [fst snd app].
    + change (String c (snd (drained r)) ++ b)%string
        with (String c (snd (drained r) ++ b)).
      rewrite (drained_char _ _ E).
      now destruct (fst (drained (snd (drained r) ++ b))).
    + reflexivity.
Qed.

(** What is left in the buffer holds no line feed. *)
Lemma drained_rest (s : string) : drained (snd (drained s)) = ([], snd (drained s)).
Proof.
  induction s as [|c r IH]; [reflexivity|].
  destruct (Text.is_nl c) eqn:E.
  - now rewrite (drained_nl _ _ E).
  - rewrite (drained_char _ _ E).
    destruct (fst (drained r)); cbn [snd]; [|exact IH].
    rewrite (drained_char _ _ E), IH. reflexivity.
Qed.

Lemma append_assoc (a b c : string) : ((a ++ b) ++ c = a ++ (b ++ c))%string.
Proof. induction a; simpl; [reflexivity|now f_equal]. Qed.

Lemma append_empty (a : string) : (a ++ "")%string = a.
Proof. induction a; simpl; congruence. Qed.

(** Feeding the chunks one at a time cuts the same slices as the loop
    would cut from the whole text at once. *)
Lemma feed_whole (chunks : list string) :
  forall buffer,
    drained buffer = ([], buffer) ->
    feed chunks buffer
    = (candidates (fst (drained (buffer ++ concat chunks))),
       snd (drained (buffer ++ concat chunks))).
Proof.
  induction chunks as [|txt more IH]; intros buffer Hb.
  - cbn [feed concat]. now rewrite append_empty, Hb.
  - cbn [feed concat].
    rewrite <- append_assoc, (drained_app (buffer ++ txt)).
    destruct (drained (buffer ++ txt)) as [slices rest] eqn:E.
    assert (Hr : drained rest = ([], rest)).
    { pose proof (drained_rest (buffer ++ txt)) as H. now rewrite E in H. }
    rewrite (IH rest Hr). cbn [fst snd]. now rewrite candidates_app.
Qed.

(** [split(/\n+/)] against the slices of the loop: the first piece is the
    first slice, and the later pieces hold the same candidates. *)
Lemma split_drained (s : string) :
  (candidates (Text.split_newlines true s)
   = candidates (fst (drained s)) ++ candidates [snd (drained s)])
  /\ (exists x xs,
        Text.split_newlines false s = x :: xs
        /\ match fst (drained s) with
           | [] => x = snd (drained s) /\ xs = []
           | l :: ls => x = l /\ candidates xs = candidates ls ++ candidates [snd (drained s)]
           end).
Proof.
  induction s as [|c r [IHa (x & xs & IHb & IHc)]].
  - split; [reflexivity|]. now exists EmptyString, [].
  - destruct (Text.is_nl c) eqn:E.
    + rewrite (drained_nl _ _ E). cbn [fst snd Text.split_newlines]. rewrite E.
      split; [now rewrite candidates_empty|].
      exists EmptyString, (Text.split_newlines true r). now repeat split.
    + rewrite (drained_char _ _ E). cbn [Text.split_newlines]. rewrite E, IHb.
      destruct (fst (drained r)) as [|l ls]; cbn [fst snd].
      * destruct IHc as [-> ->]. split; [reflexivity|].
        now exists (String c (snd (drained r))), [].
      * destruct IHc as [-> Hxs]. split.
        -- rewrite (candidates_cons (String c l) xs), Hxs.
           rewrite (candidates_cons (String c l) ls).
           now rewrite app_assoc.
        -- now exists (String c l), xs.
Qed.

Lemma nonempty_lines_drained (s : string) :
  Text.nonempty_lines s
  = candidates (fst (drained s)) ++ candidates [snd (drained s)].
Proof.
  destruct (split_drained s) as [_ (x & xs & Hs & H)].
  change (Text.nonempty_lines s) with (candidates (Text.split_newlines false s)).
  rewrite Hs. destruct (fst (drained s)) as [|l ls].
  - now destruct H as [-> ->].
  - destruct H as [-> Hxs].
    now rewrite (candidates_cons l xs), Hxs, (candidates_cons l ls), app_assoc.
Qed.

(** A blank text has no line to flush. *)
Lemma all_space_trim (s : string) :
  Text.trim s = EmptyString -> forall c, In c (list_ascii_of_string s) -> Text.is_space c = true.
Proof.
  unfold Text.trim. intros H.
  assert (E : Text.trimStart s = EmptyString).
  { pose proof (TextFacts.trimStart_starts s) as Hs.
    destruct (Text.trimStart s) as [|c r]; [reflexivity|].
    rewrite TextFacts.trimEnd_cons in H. cbn [Text.starts_space] in Hs.
    rewrite Hs, andb_false_r in H. discriminate H. }
  clear H. induction s as [|c r IH]; intros x Hx; [contradiction|].
  cbn [Text.trimStart] in E. destruct (Text.is_space c) eqn:Hc; [|discriminate E].
  destruct Hx as [<- | Hx]; [exact Hc | now apply IH].
Qed.

Lemma trim_all_space (s : string) :
  (forall c, In c (list_ascii_of_string s) -> Text.is_space c = true) ->
  Text.trim s = EmptyString.
Proof.
  intros H. unfold Text.trim.
  assert (E : Text.trimStart s = EmptyString).
  { induction s as [|c r IH]; [reflexivity|]. cbn [Text.trimStart].
    rewrite (H c (or_introl eq_refl)). apply IH. intros x Hx. apply H. now right. }
  now rewrite E.
Qed.

Lemma split_all_space (s : string) :
  (forall c, In c (list_ascii_of_string s) -> Text.is_space c = true) ->
  forall b, Forall (fun l => Text.trim l = EmptyString) (Text.split_newlines b s).
Proof.
  induction s as [|c r IH]; intros H b.
  - repeat constructor.
  - assert (Hr : forall x, In x (list_ascii_of_string r) -> Text.is_space x = true)
      by (intros x Hx; apply H; now right).
    cbn [Text.split_newlines]. destruct (Text.is_nl c).
    + destruct b; [now apply IH|]. constructor; [reflexivity | now apply IH].
    + specialize (IH Hr false).
      destruct (Text.split_newlines false r) as [|x xs].
      * constructor; [|constructor]. apply trim_all_space.
        intros y [<- | []]. apply H. now left.
      * inversion IH as [|? ? Hx Hxs]. subst. constructor; [|exact Hxs].
        apply trim_all_space. intros y [<- | Hy]; [apply H; now left|].
        apply (all_space_trim x Hx y Hy).
Qed.

Lemma blank_no_lines (s : string) :
  Text.trim s = EmptyString -> Text.nonempty_lines s = [].
Proof.
  intros H. unfold Text.nonempty_lines.
  pose proof (split_all_space s (all_space_trim s H) false) as F.
  induction F as [|l ls Hl _ IH]; [reflexivity|].
  cbn [map filter]. now rewrite Hl.
Qed.

Lemma candidates_nonempty (ls : list string) :
  Forall (fun l => l <> EmptyString /\ Text.trim l = l) (candidates ls).
Proof.
  apply Forall_forall. intros l H. unfold candidates in H.
  apply filter_In in H. destruct H as [H Hn].
  apply in_map_iff in H. destruct H as (x & <- & _). split.
  - intros E. rewrite E in Hn. discriminate.
  - apply TextFacts.trim_idem.
Qed.

End FramerFacts.

(* ===================================================================== *)
(** ** The session invariant *)
(* ===================================================================== *)

Module SessionFacts.
Import Trace.
Local Open Scope pipeline_scope.

Lemma indices_app (a b : list event) :
  question_indices (a ++ b) = question_indices a ++ question_indices b.
Proof.
  induction a as [|e a IH]; [reflexivity|].
  destruct e; simpl; rewrite IH; reflexivity.
Qed.

Lemma units_app (a b : list event) :
  question_units (a ++ b) = question_units a ++ question_units b.
Proof.
  induction a as [|e a IH]; [reflexivity|].
  destruct e; simpl; rewrite IH; reflexivity.
Qed.

Lemma numbered_succ (n : nat) : numbered (S n) = numbered n ++ [Z.of_nat (S n)].
Proof. unfold numbered. now rewrite seq_S, map_app. Qed.

Lemma fingerprints_app keep (a b : list (tier * value)) :
  fingerprints keep (a ++ b) = fingerprints keep a ++ fingerprints keep b.
Proof. unfold fingerprints. now rewrite filter_app, map_app. Qed.

Lemma wf_initial : wf initial.
Proof. split; try reflexivity. constructor. Qed.

Section Preservation.

Variable JSON_parse : string -> option value.
Variable upstream : model.
Variable count : Q.
Variable topic : string.

Lemma preserves_ret {A} (a : A) : preserves (ret a).
Proof. intros st H. exact H. Qed.

Lemma preserves_bind {A B} (m : M A) (f : A -> M B) :
  preserves m -> (forall a, preserves (f a)) -> preserves (bind m f).
Proof.
  intros Hm Hf st H. unfold bind. specialize (Hm st H).
  destruct (m st) as [[a| |] st']; simpl in Hm |- *; [now apply Hf | exact Hm | exact Hm].
Qed.

Lemma preserves_try_or {A} (d : A) (m : M A) : preserves m -> preserves (try_or d m).
Proof.
  intros Hm st H. unfold try_or. specialize (Hm st H).
  now destruct (m st) as [[a| |] st'].
Qed.

Lemma preserves_throw {A} : preserves (@throw A).
Proof. intros st H. exact H. Qed.

Lemma preserves_out_of_fuel {A} : preserves (@out_of_fuel A).
Proof. intros st H. exact H. Qed.

Lemma preserves_read_emitted : preserves read_emitted.
Proof. intros st H. exact H. Qed.

Lemma preserves_seen (norm : string) : preserves (seen norm).
Proof. intros st H. exact H. Qed.

Lemma preserves_generateContent : preserves (generateContent upstream).
Proof.
  intros st [H1 H2 H3 H4 H5]. unfold generateContent.
  destruct (generate upstream (calls st)); split; assumption.
Qed.

Lemma preserves_enqueue (e : event) : is_question e = false -> preserves (enqueue e).
Proof.
  intros He st [H1 H2 H3 H4 H5]. split; cbn; try assumption.
  - rewrite indices_app, H1. destruct e; try discriminate He; apply app_nil_r.
  - rewrite units_app, H3. destruct e; try discriminate He; apply app_nil_r.
Qed.

Lemma preserves_diag (stage : option string) : preserves (diag stage).
Proof. destruct stage; [now apply preserves_enqueue | apply preserves_ret]. Qed.

(** The state after [accept]. *)
Lemma accept_state (sanitize : bool) (t : tier) (obj : value) (st : session) :
  accept count sanitize t obj st
  = (Returned tt,
     {| emitted := (emitted st + 1)%Z;
        existingQuestions := existingQuestions st;
        calls := calls st;
        out := (out st ++ [Question (emitted st + 1)
                             (if sanitize then sanitizeQuestion obj else obj)])
               ++ [Progress (emitted st + 1) count];
        accepted := accepted st ++ [(t, obj)] |}).
Proof. reflexivity. Qed.

Lemma shown_coherent (sanitize : bool) (t : tier) (obj : value) :
  coherent sanitize t = true \/ (checks_duplicates t = true /\ sanitize = true) ->
  shown (t, obj) = if sanitize then sanitizeQuestion obj else obj.
Proof.
  destruct t, sanitize; intros [H|[H E]]; try discriminate; reflexivity.
Qed.

(** One acceptance keeps the numbering and the record of units. *)
Lemma accept_numbering (sanitize : bool) (t : tier) (obj : value) (st : session) :
  coherent sanitize t = true \/ (checks_duplicates t = true /\ sanitize = true) ->
  wf st ->
  let st' := snd (accept count sanitize t obj st) in
  question_indices (out st') = numbered (List.length (accepted st'))
  /\ emitted st' = Z.of_nat (List.length (accepted st'))
  /\ question_units (out st') = map shown (accepted st').
Proof.
  intros Hc [H1 H2 H3 H4 H5]. rewrite accept_state. cbn [snd out accepted emitted].
  rewrite !indices_app, !units_app, H1, H3, length_app, map_app. cbn.
  rewrite !app_nil_r, Nat.add_1_r, numbered_succ, H2, (shown_coherent _ _ _ Hc).
  repeat split. f_equal. f_equal. lia. lia.
Qed.

Lemma preserves_accept (sanitize : bool) (t : tier) (obj : value) :
  coherent sanitize t = true -> preserves (accept count sanitize t obj).
Proof.
  intros Hc st H.
  destruct (accept_numbering sanitize t obj st (or_introl Hc) H) as (A1 & A2 & A3).
  destruct H as [H1 H2 H3 H4 H5].
  split; try assumption. rewrite accept_state. cbn [snd existingQuestions accepted].
  rewrite fingerprints_app, <- H4.
  assert (E : checks_duplicates t = false) by (destruct t, sanitize; easy).
  unfold fingerprints at 1. cbn. rewrite E. cbn. now rewrite app_nil_r.
Qed.

Create HintDb pipeline.
#[local] Hint Resolve preserves_bind preserves_try_or preserves_accept preserves_diag
  preserves_generateContent preserves_seen preserves_read_emitted : pipeline.
#[local] Hint Extern 1 (preserves (ret _)) => apply preserves_ret : pipeline.
#[local] Hint Extern 1 (preserves throw) => apply preserves_throw : pipeline.
#[local] Hint Extern 1 (preserves out_of_fuel) => apply preserves_out_of_fuel : pipeline.
#[local] Hint Extern 1 (preserves (enqueue _)) => apply preserves_enqueue; reflexivity : pipeline.
#[local] Hint Extern 2 (preserves (if ?b then _ else _)) => destruct b : pipeline.
#[local] Hint Extern 2 (preserves (match ?x with Some _ => _ | None => _ end)) =>
  destruct x : pipeline.

Lemma preserves_try_line (sanitize : bool) (t : tier) (d1 d2 : option string) (line : string) :
  coherent sanitize t = true -> preserves (try_line JSON_parse count sanitize t d1 d2 line).
Proof. intros Hc. unfold try_line. auto 6 with pipeline. Qed.
#[local] Hint Resolve preserves_try_line : pipeline.

Lemma preserves_drain (fuel : nat) :
  forall buffer, preserves (drain JSON_parse count fuel buffer).
Proof.
  induction fuel as [|fuel IH]; intros buffer; cbn [drain];
    destruct (Text.cut_line buffer) as [[slice rest]|]; auto 6 with pipeline.
Qed.
#[local] Hint Resolve preserves_drain : pipeline.

Lemma preserves_consume (chunks : list reply) :
  forall buffer, preserves (consume JSON_parse count chunks buffer).
Proof.
  induction chunks as [|[|txt] more IH]; intros buffer; cbn [consume];
    auto 6 with pipeline.
Qed.

Lemma preserves_flush_lines (lines : list string) :
  preserves (flush_lines JSON_parse count lines).
Proof. induction lines as [|line more IH]; cbn [flush_lines]; auto 8 with pipeline. Qed.

Lemma preserves_topup_lines (sanitize : bool) (t : tier) (d1 d2 : option string)
    (lines : list string) :
  coherent sanitize t = true ->
  preserves (topup_lines JSON_parse count sanitize t d1 d2 lines).
Proof.
  intros Hc. induction lines as [|line more IH]; cbn [topup_lines]; auto 8 with pipeline.
Qed.

Lemma preserves_each_line (lines : list string) :
  preserves (each_line JSON_parse count lines).
Proof. induction lines as [|line more IH]; cbn [each_line]; auto 8 with pipeline. Qed.

#[local] Hint Resolve preserves_consume preserves_flush_lines preserves_topup_lines
  preserves_each_line : pipeline.

Lemma preserves_flush (buffer : string) : preserves (flush JSON_parse count buffer).
Proof. unfold flush. auto 8 with pipeline. Qed.

Lemma preserves_bulk_topup : preserves (bulk_topup JSON_parse upstream count).
Proof. unfold bulk_topup, second_round, third_round. auto 20 with pipeline. Qed.

Lemma nodup_snoc (x : string) (l : list string) :
  NoDup l -> ~ In x l -> NoDup (l ++ [x]).
Proof.
  induction l as [|y l IH]; intros Hl Hx; [repeat constructor; easy|].
  cbn. apply NoDup_cons_iff in Hl. destruct Hl as [Hy Hl]. constructor.
  - rewrite in_app_iff. intros [H|[H|[]]]; [easy|]. subst. apply Hx. now left.
  - apply IH; [exact Hl|]. intros H. apply Hx. now right.
Qed.

Lemma not_seen (norm : string) (l : list string) :
  existsb (String.eqb norm) l = false -> ~ In norm l.
Proof.
  intros H Hin. assert (E : existsb (String.eqb norm) l = true).
  { apply existsb_exists. exists norm. split; [exact Hin | apply String.eqb_refl]. }
  congruence.
Qed.

(** The state after a candidate of the single-item tier: either nothing
    changed, or its fingerprint was new and the unit was accepted. *)
Lemma try_candidate_state (t : tier) (candidate : option value) (st : session) :
  (try_candidate count t candidate st = (Returned false, st))
  \/ (exists c,
        candidate = Some c /\ isValidQuestion c = true
        /\ existsb (String.eqb (fingerprint c)) (existingQuestions st) = false
        /\ try_candidate count t candidate st
           = (Returned true,
              {| emitted := (emitted st + 1)%Z;
                 existingQuestions := existingQuestions st ++ [fingerprint c];
                 calls := calls st;
                 out := (out st ++ [Question (emitted st + 1) (sanitizeQuestion c)])
                        ++ [Progress (emitted st + 1) count];
                 accepted := accepted st ++ [(t, c)] |})).
Proof.
  destruct candidate as [c|]; [|now left]. unfold try_candidate.
  destruct (truthy c && isValidQuestion c) eqn:E; [|now left].
  apply andb_true_iff in E. destruct E as [_ E].
  unfold bind, seen.
  destruct (existsb (String.eqb (fingerprint c)) (existingQuestions st)) eqn:D.
  - left. now destruct st.
  - right. exists c. repeat split; try assumption.
    unfold remember. rewrite D. reflexivity.
Qed.

Lemma preserves_try_candidate (t : tier) (candidate : option value) :
  checks_duplicates t = true -> preserves (try_candidate count t candidate).
Proof.
  intros Ht st H.
  destruct (try_candidate_state t candidate st) as [E|(c & _ & _ & D & E)].
  - now rewrite E.
  - pose proof (accept_numbering true t c st (or_intror (conj Ht eq_refl)) H) as A.
    rewrite accept_state in A. cbn [snd] in A. destruct A as (A1 & A2 & A3).
    destruct H as [H1 H2 H3 H4 H5]. rewrite E. cbn [snd].
    split; cbn [out accepted emitted existingQuestions]; try assumption.
    + rewrite fingerprints_app, <- H4. unfold fingerprints at 1. cbn. now rewrite Ht.
    + apply nodup_snoc; [exact H5 | now apply not_seen].
Qed.
#[local] Hint Resolve preserves_try_candidate : pipeline.

Lemma preserves_attempt : preserves (attempt JSON_parse upstream count).
Proof. unfold attempt. auto 10 with pipeline. Qed.

(** A filler is accepted like any unit of a guarded tier. *)
Lemma fill_state (st : session) :
  fill count topic st
  = if short_of count (emitted st)
    then accept count true Filler (synthetic (emitted st + 1) topic) st
    else (Returned tt, st).
Proof. unfold fill, bind, read_emitted. now destruct (short_of count (emitted st)). Qed.

Lemma preserves_fill : preserves (fill count topic).
Proof.
  intros st H. rewrite fill_state. destruct (short_of count (emitted st)); [|exact H].
  now apply preserves_accept.
Qed.
#[local] Hint Resolve preserves_attempt preserves_fill : pipeline.

Lemma preserves_single_loop (fuel : nat) :
  preserves (single_loop JSON_parse upstream count topic fuel).
Proof. induction fuel as [|fuel IH]; cbn [single_loop]; auto 10 with pipeline. Qed.
#[local] Hint Resolve preserves_single_loop preserves_flush preserves_bulk_topup : pipeline.

Lemma preserves_single_recovery :
  preserves (single_recovery JSON_parse upstream count topic).
Proof. unfold single_recovery. auto 10 with pipeline. Qed.
#[local] Hint Resolve preserves_single_recovery : pipeline.

Lemma preserves_start : preserves (start JSON_parse upstream count topic).
Proof.
  unfold start, streaming, fallback.
  destruct (open_stream upstream); auto 20 with pipeline.
Qed.

(** Every session, however it ends, satisfies the invariant. *)
Lemma run_wf : wf (snd (run JSON_parse upstream count topic)).
Proof.
  unfold run. pose proof (preserves_start initial wf_initial) as H.
  destruct (start JSON_parse upstream count topic initial) as [[[]| |] st];
    cbn [snd] in *; try exact H.
  now apply preserves_enqueue.
Qed.

(** The question lines of a response are numbered 1, 2, ... in order. *)
Lemma run_numbered :
  let st := snd (run JSON_parse upstream count topic) in
  question_indices (out st) = numbered (Z.to_nat (emitted st)).
Proof.
  cbn. destruct run_wf as [H1 H2 _ _ _]. now rewrite H1, H2, Nat2Z.id.
Qed.

(** *** Termination and completion *)

Lemma short_of_ceiling (e : Z) : short_of count e = true <-> (e < Qceiling count)%Z.
Proof.
  unfold short_of. rewrite negb_true_iff. split.
  - intros H. apply Z.lt_nge. intros Hle.
    assert (Hq : (count <= inject_Z e)%Q).
    { apply Qle_trans with (inject_Z (Qceiling count)); [apply Qle_ceiling|].
      now rewrite <- Zle_Qle. }
    apply Qle_bool_iff in Hq. congruence.
  - intros H. destruct (Qle_bool count (inject_Z e)) eqn:E; [|reflexivity].
    apply Qle_bool_iff in E. exfalso.
    assert (Hlt : (inject_Z (Qceiling count - 1) < count)%Q) by apply Qceiling_lt.
    assert (Hle : (inject_Z e <= inject_Z (Qceiling count - 1))%Q)
      by (rewrite <- Zle_Qle; lia).
    apply (Qlt_irrefl count).
    eapply Qle_lt_trans; [exact E|]. eapply Qle_lt_trans; [exact Hle | exact Hlt].
Qed.

Lemma fueled_ret {A} (a : A) : fueled (ret a).
Proof. intros st. discriminate. Qed.

Lemma fueled_bind {A B} (m : M A) (f : A -> M B) :
  fueled m -> (forall a, fueled (f a)) -> fueled (bind m f).
Proof.
  intros Hm Hf st. unfold bind. specialize (Hm st).
  destruct (m st) as [[a| |] st']; cbn in *; [apply Hf | discriminate | congruence].
Qed.

Lemma fueled_try_or {A} (d : A) (m : M A) : fueled m -> fueled (try_or d m).
Proof.
  intros Hm st. unfold try_or. specialize (Hm st).
  destruct (m st) as [[a| |] st']; cbn in *; [discriminate | discriminate | congruence].
Qed.

Lemma fueled_enqueue (e : event) : fueled (enqueue e).
Proof. intros st. discriminate. Qed.

Lemma fueled_generateContent : fueled (generateContent upstream).
Proof. intros st. unfold generateContent. destruct (generate upstream (calls st)); discriminate. Qed.

Lemma fueled_try_line (sanitize : bool) (t : tier) (d1 d2 : option string) (line : string) :
  fueled (try_line JSON_parse count sanitize t d1 d2 line).
Proof.
  intros st. unfold try_line. destruct (JSON_parse line) as [obj|];
    [destruct (isValidQuestion obj)|]; try destruct d1; try destruct d2; discriminate.
Qed.

Lemma fueled_try_candidate (t : tier) (candidate : option value) :
  fueled (try_candidate count t candidate).
Proof.
  intros st. destruct (try_candidate_state t candidate st) as [E|(c & _ & _ & _ & E)];
    rewrite E; discriminate.
Qed.

#[local] Hint Resolve fueled_bind fueled_try_or fueled_enqueue fueled_generateContent
  fueled_try_line fueled_try_candidate : pipeline.
#[local] Hint Extern 1 (fueled (ret _)) => apply fueled_ret : pipeline.
#[local] Hint Extern 1 (fueled throw) => (intros ?; discriminate) : pipeline.
#[local] Hint Extern 1 (fueled read_emitted) => (intros ?; discriminate) : pipeline.
#[local] Hint Extern 1 (fueled (diag _)) => (intros ?; unfold diag; auto with pipeline) : pipeline.
#[local] Hint Extern 2 (fueled (if ?b then _ else _)) => destruct b : pipeline.
#[local] Hint Extern 2 (fueled (match ?x with Some _ => _ | None => _ end)) =>
  destruct x : pipeline.

Lemma cut_line_shorter (buffer slice rest : string) :
  Text.cut_line buffer = Some (slice, rest) -> String.length rest < String.length buffer.
Proof.
  revert slice rest. induction buffer as [|c r IH]; intros slice rest; [discriminate|].
  cbn. destruct (Text.is_nl c).
  - intros [= <- <-]. lia.
  - destruct (Text.cut_line r) as [[l rest']|]; [|discriminate].
    intros [= <- <-]. specialize (IH l rest' eq_refl). lia.
Qed.

(** The fuel given to the framing loop is enough. *)
Lemma fueled_drain (fuel : nat) :
  forall buffer, String.length buffer <= fuel -> fueled (drain JSON_parse count fuel buffer).
Proof.
  induction fuel as [|fuel IH]; intros buffer Hl; cbn [drain];
    destruct (Text.cut_line buffer) as [[slice rest]|] eqn:E; auto with pipeline.
  - apply cut_line_shorter in E. lia.
  - apply cut_line_shorter in E.
    apply fueled_bind; [auto with pipeline|]. intros _. apply IH. lia.
Qed.

Lemma fueled_consume (chunks : list reply) :
  forall buffer, fueled (consume JSON_parse count chunks buffer).
Proof.
  induction chunks as [|[|txt] more IH]; intros buffer; cbn [consume];
    auto using fueled_drain with pipeline.
Qed.

Lemma fueled_flush_lines (lines : list string) : fueled (flush_lines JSON_parse count lines).
Proof. induction lines; cbn [flush_lines]; auto 8 with pipeline. Qed.

Lemma fueled_topup_lines (sanitize : bool) (t : tier) (d1 d2 : option string)
    (lines : list string) :
  fueled (topup_lines JSON_parse count sanitize t d1 d2 lines).
Proof. induction lines; cbn [topup_lines]; auto 8 with pipeline. Qed.

Lemma fueled_each_line (lines : list string) : fueled (each_line JSON_parse count lines).
Proof. induction lines; cbn [each_line]; auto 8 with pipeline. Qed.

#[local] Hint Resolve fueled_consume fueled_flush_lines fueled_topup_lines
  fueled_each_line : pipeline.

Lemma fueled_flush (buffer : string) : fueled (flush JSON_parse count buffer).
Proof. unfold flush. auto 8 with pipeline. Qed.

Lemma fueled_bulk_topup : fueled (bulk_topup JSON_parse upstream count).
Proof. unfold bulk_topup, second_round, third_round. auto 20 with pipeline. Qed.

Lemma advances_refl (st : session) : advances 0 st st.
Proof. split; [lia|]. exists []. now rewrite app_nil_r. Qed.

Lemma advances_trans (a b : Z) (st st1 st2 : session) :
  advances a st st1 -> advances b st1 st2 -> advances (a + b) st st2.
Proof.
  intros [Ha (e1 & O1 & D1)] [Hb (e2 & O2 & D2)]. split; [lia|].
  exists (e1 ++ e2). split; [now rewrite O2, O1, app_assoc|].
  unfold diagnostics in *. now rewrite filter_app, D1, D2.
Qed.

Lemma advances_call (st : session) :
  advances 0 st {| emitted := emitted st; existingQuestions := existingQuestions st;
                   calls := S (calls st); out := out st; accepted := accepted st |}.
Proof. split; [cbn; lia|]. exists []. cbn. now rewrite app_nil_r. Qed.

Lemma try_candidate_advances (t : tier) (candidate : option value) (st : session) :
  exists b st', try_candidate count t candidate st = (Returned b, st')
                /\ advances (if b then 1 else 0) st st'.
Proof.
  destruct (try_candidate_state t candidate st) as [E|(c & _ & _ & _ & E)].
  - exists false, st. split; [exact E | apply advances_refl].
  - eexists true, _. split; [exact E|]. split; [reflexivity|]. cbn [out].
    eexists. rewrite <- app_assoc. split; [reflexivity | reflexivity].
Qed.

(** The guarded part of a turn always returns: a unit accepted, or
    nothing; an exception of the model leaves no line. *)
Lemma attempt_advances (st : session) :
  exists b st', attempt JSON_parse upstream count st = (Returned b, st')
                /\ advances (if b then 1 else 0) st st'.
Proof.
  unfold attempt, try_or, bind, generateContent.
  destruct (generate upstream (calls st)) as [|single].
  { eexists false, _. split; [reflexivity | apply advances_call]. }
  match goal with |- context [try_candidate count Single ?c ?s] =>
    destruct (try_candidate_advances Single c s) as (b1 & st1 & E1 & A1); rewrite E1 end.
  pose proof (advances_trans _ _ _ _ _ (advances_call st) A1) as A01.
  destruct b1.
  { eexists true, st1. split; [reflexivity | exact A01]. }
  cbn [ret]. destruct (generate upstream (calls st1)) as [|retry].
  { eexists false, _. split; [reflexivity|].
    exact (advances_trans _ _ _ _ _ A01 (advances_call st1)). }
  match goal with |- context [try_candidate count Retry ?c ?s] =>
    destruct (try_candidate_advances Retry c s) as (b2 & st2 & E2 & A2); rewrite E2 end.
  exists b2, st2. split; [reflexivity|].
  pose proof (advances_trans _ _ _ _ _ (advances_trans _ _ _ _ _ A01 (advances_call st1)) A2) as A.
  now destruct b2.
Qed.

Lemma fill_advances (st : session) :
  short_of count (emitted st) = true ->
  exists st', fill count topic st = (Returned tt, st') /\ advances 1 st st'.
Proof.
  intros H. rewrite fill_state, H, accept_state. eexists. split; [reflexivity|].
  split; [reflexivity|]. cbn [out]. eexists. rewrite <- app_assoc. now split.
Qed.

(** The loop of the single-item tier ends by its own test, with the target
    met, whatever the model replies or throws. *)
Lemma single_loop_completes (fuel : nat) :
  forall st,
    (Qceiling count - emitted st <= Z.of_nat fuel)%Z ->
    exists st',
      single_loop JSON_parse upstream count topic fuel st = (Returned tt, st')
      /\ short_of count (emitted st') = false
      /\ advances (Z.max 0 (Qceiling count - emitted st)) st st'.
Proof.
  induction fuel as [|fuel IH]; intros st Hf.
  - cbn [single_loop]. unfold bind, read_emitted.
    destruct (short_of count (emitted st)) eqn:E.
    + apply short_of_ceiling in E. lia.
    + exists st. split; [reflexivity|]. split; [exact E|].
      replace (Z.max 0 (Qceiling count - emitted st)) with 0%Z by lia.
      apply advances_refl.
  - cbn [single_loop]. unfold bind at 1. unfold read_emitted.
    destruct (short_of count (emitted st)) eqn:E.
    2:{ exists st. split; [reflexivity|]. split; [exact E|].
        assert (~ (emitted st < Qceiling count)%Z)
          by (intros H; apply short_of_ceiling in H; congruence).
        replace (Z.max 0 (Qceiling count - emitted st)) with 0%Z by lia.
        apply advances_refl. }
    unfold bind at 1.
    destruct (attempt_advances st) as (b & st1 & E1 & A1). rewrite E1.
    assert (exists st2, ((if b then ret tt else fill count topic) st1 = (Returned tt, st2))
                        /\ advances 1 st st2) as (st2 & E2 & A2).
    { destruct b.
      - exists st1. split; [reflexivity | exact A1].
      - assert (Hs : short_of count (emitted st1) = true).
        { destruct A1 as [-> _]. now rewrite Z.add_0_r. }
        destruct (fill_advances st1 Hs) as (st2 & E2 & A2).
        exists st2. split; [exact E2|].
        exact (advances_trans _ _ _ _ _ A1 A2). }
    unfold bind. rewrite E2.
    destruct (IH st2) as (st' & E' & S' & A').
    { destruct A2 as [-> _]. apply short_of_ceiling in E. lia. }
    exists st'. split; [exact E'|]. split; [exact S'|].
    apply short_of_ceiling in E.
    replace (Z.max 0 (Qceiling count - emitted st))
      with (1 + Z.max 0 (Qceiling count - emitted st2))%Z
      by (destruct A2 as [-> _]; lia).
    exact (advances_trans _ _ _ _ _ A2 A').
Qed.

Lemma single_recovery_completes (st : session) :
  exists st',
    single_recovery JSON_parse upstream count topic st = (Returned tt, st')
    /\ short_of count (emitted st') = false
    /\ emitted st' = Z.max (emitted st) (Qceiling count)
    /\ exists evs,
         out st' = out st ++ evs
         /\ diagnostics evs
            = if short_of count (emitted st)
              then [Server "final-single-regeneration"] else [].
Proof.
  unfold single_recovery, bind, read_emitted.
  destruct (short_of count (emitted st)) eqn:E.
  - cbn [enqueue].
    match goal with |- context [single_loop _ _ _ _ ?f ?s] =>
      destruct (single_loop_completes f s) as (st' & E' & S' & A') end.
    { cbn [emitted]. apply short_of_ceiling in E. lia. }
    exists st'. split; [exact E'|]. split; [exact S'|]. split.
    + destruct A' as [-> _]. cbn [emitted]. apply short_of_ceiling in E. lia.
    + destruct A' as [_ (evs & O & D)]. cbn [out] in O.
      exists (Server "final-single-regeneration" :: evs).
      split; [now rewrite O, <- app_assoc|].
      unfold diagnostics in *. cbn. now rewrite D.
  - exists st. split; [reflexivity|]. split; [exact E|]. split.
    + assert (~ (emitted st < Qceiling count)%Z)
        by (intros H; apply short_of_ceiling in H; congruence).
      lia.
    + exists []. now rewrite app_nil_r.
Qed.

Lemma fueled_single_recovery : fueled (single_recovery JSON_parse upstream count topic).
Proof.
  intros st. destruct (single_recovery_completes st) as (st' & E & _). rewrite E. discriminate.
Qed.

#[local] Hint Resolve fueled_flush fueled_bulk_topup fueled_single_recovery : pipeline.

(** No session runs out of fuel: the bounds given to its loops are enough. *)
Lemma run_fueled : fst (run JSON_parse upstream count topic) <> OutOfFuel.
Proof.
  assert (H : fueled (start JSON_parse upstream count topic)).
  { unfold start, streaming, fallback. destruct (open_stream upstream); auto 20 with pipeline. }
  unfold run. specialize (H initial).
  now destruct (start JSON_parse upstream count topic initial) as [[[]| |] st].
Qed.

Lemma bind_returned {A B} (m : M A) (f : A -> M B) (st st' : session) (b : B) :
  bind m f st = (Returned b, st') ->
  exists a st1, m st = (Returned a, st1) /\ f a st1 = (Returned b, st').
Proof.
  unfold bind. destruct (m st) as [[a| |] st1]; try discriminate.
  intros H. now exists a, st1.
Qed.

(** A session of the streaming branch that reaches its terminal line has
    met the target. *)
Lemma streaming_reaches_target (chunks : list reply) (st st' : session) :
  streaming JSON_parse upstream count topic chunks st = (Returned tt, st') ->
  short_of count (emitted st') = false /\ exists evs, out st' = evs ++ [Done].
Proof.
  unfold streaming. intros H.
  apply bind_returned in H. destruct H as (_ & s1 & _ & H).
  apply bind_returned in H. destruct H as (buffer & s2 & _ & H).
  apply bind_returned in H. destruct H as (_ & s3 & _ & H).
  apply bind_returned in H. destruct H as (_ & s4 & _ & H).
  apply bind_returned in H. destruct H as (u & s5 & H5 & H).
  destruct (single_recovery_completes s4) as (s5' & E & S & _ & _).
  rewrite E in H5. injection H5 as E5. subst s5.
  cbn in H. injection H as E'. subst st'. cbn. split; [exact S|]. now exists (out s5').
Qed.

(** *** The primary stream and the line framer *)

Lemma cut_line_drained (buffer : string) :
  match Text.cut_line buffer with
  | None => Framer.drained buffer = ([], buffer)
  | Some (slice, rest) =>
      Framer.drained buffer
      = (slice :: fst (Framer.drained rest), snd (Framer.drained rest))
  end.
Proof.
  induction buffer as [|c r IH]; [reflexivity|].
  cbn [Text.cut_line]. destruct (Text.is_nl c) eqn:E.
  - now rewrite (FramerFacts.drained_nl _ _ E).
  - rewrite (FramerFacts.drained_char _ _ E).
    destruct (Text.cut_line r) as [[l rest]|]; now rewrite IH.
Qed.

Lemma valid_units_app (a b : list string) :
  valid_units JSON_parse (a ++ b) = valid_units JSON_parse a ++ valid_units JSON_parse b.
Proof. unfold valid_units. apply flat_map_app. Qed.

(** One line: accepted exactly when it parses to a valid unit. *)
Lemma try_line_accepted (sanitize : bool) (t : tier) (d1 d2 : option string)
    (line : string) (st : session) :
  exists b st',
    try_line JSON_parse count sanitize t d1 d2 line st = (Returned b, st')
    /\ accepted st' = accepted st ++ map (pair t) (valid_units JSON_parse [line]).
Proof.
  unfold try_line, valid_units. cbn [flat_map]. rewrite app_nil_r.
  destruct (JSON_parse line) as [obj|]; [destruct (isValidQuestion obj)|].
  - eexists _, _. split; [reflexivity|]. reflexivity.
  - destruct d1; eexists _, _; (split; [reflexivity|]); cbn; now rewrite app_nil_r.
  - destruct d2; eexists _, _; (split; [reflexivity|]); cbn; now rewrite app_nil_r.
Qed.

(** The framing loop of the handler hands to the parser the candidates of
    [Framer.drained], in order, and leaves its rest in the buffer. *)
Lemma drain_accepted (fuel : nat) :
  forall buffer st,
    String.length buffer <= fuel ->
    exists st',
      drain JSON_parse count fuel buffer st = (Returned (snd (Framer.drained buffer)), st')
      /\ accepted st'
         = accepted st
           ++ map (pair Primary)
                (valid_units JSON_parse (Framer.candidates (fst (Framer.drained buffer)))).
Proof.
  induction fuel as [|fuel IH]; intros buffer st Hl; cbn [drain];
    pose proof (cut_line_drained buffer) as Hd;
    destruct (Text.cut_line buffer) as [[slice rest]|] eqn:E.
  - apply cut_line_shorter in E. lia.
  - rewrite Hd. exists st. split; [reflexivity|]. cbn. now rewrite app_nil_r.
  - apply cut_line_shorter in E. rewrite Hd. cbn [fst snd].
    rewrite FramerFacts.candidates_cons, valid_units_app, map_app.
    unfold bind at 1.
    assert (exists b st1,
               (if Text.is_empty (Text.trim slice) then ret false
                else try_line JSON_parse count true Primary (Some "invalid") None
                       (Text.trim slice)) st = (Returned b, st1)
               /\ accepted st1
                  = accepted st
                    ++ map (pair Primary)
                         (valid_units JSON_parse (Framer.candidates [slice])))
      as (b & st1 & E1 & A1).
    { unfold Framer.candidates. cbn [map filter].
      destruct (Text.is_empty (Text.trim slice)); cbn [negb].
      - exists false, st. split; [reflexivity|]. cbn. now rewrite app_nil_r.
      - apply try_line_accepted. }
    rewrite E1. destruct (IH rest st1) as (st' & E' & A'); [lia|].
    exists st'. split; [exact E'|]. now rewrite A', A1, <- app_assoc.
  - rewrite Hd. exists st. split; [reflexivity|]. cbn. now rewrite app_nil_r.
Qed.

(** A stream without failure: the primary tier accepts every valid
    candidate that the framer cuts from the chunks, whatever the target. *)
Lemma consume_accepted (chunks : list string) :
  forall buffer st,
    exists st',
      consume JSON_parse count (map Says chunks) buffer st
      = (Returned (snd (Framer.feed chunks buffer)), st')
      /\ accepted st'
         = accepted st
           ++ map (pair Primary) (valid_units JSON_parse (fst (Framer.feed chunks buffer))).
Proof.
  induction chunks as [|txt more IH]; intros buffer st.
  - exists st. split; [reflexivity|]. cbn. now rewrite app_nil_r.
  - cbn [map consume Framer.feed]. unfold bind at 1. cbn [enqueue]. unfold bind at 1.
    match goal with |- context [drain _ _ ?f ?b ?s] =>
      destruct (drain_accepted f b s (le_n _)) as (st1 & E1 & A1) end.
    rewrite E1.
    destruct (Framer.drained (buffer ++ txt)) as [slices rest] eqn:Ed. cbn [fst snd] in *.
    destruct (IH rest st1) as (st' & E' & A'). rewrite E'.
    destruct (Framer.feed more rest) as [later final]. cbn [fst snd] in *.
    exists st'. split; [reflexivity|].
    now rewrite A', A1, valid_units_app, map_app, <- app_assoc.
Qed.

(** *** The record of accepted units only grows *)

Lemma grows_same {A} (m : M A) :
  (forall st, accepted (snd (m st)) = accepted st) -> grows m.
Proof. intros H st. exists []. now rewrite H, app_nil_r. Qed.

Lemma grows_bind {A B} (m : M A) (f : A -> M B) :
  grows m -> (forall a, grows (f a)) -> grows (bind m f).
Proof.
  intros Hm Hf st. unfold bind. destruct (Hm st) as [l1 H1].
  destruct (m st) as [[a| |] st1]; cbn [snd] in *; try (now exists l1).
  destruct (Hf a st1) as [l2 H2]. exists (l1 ++ l2). now rewrite H2, H1, app_assoc.
Qed.

Lemma grows_try_or {A} (d : A) (m : M A) : grows m -> grows (try_or d m).
Proof.
  intros Hm st. unfold try_or. destruct (Hm st) as [l H].
  destruct (m st) as [[a| |] st1]; now exists l.
Qed.

Lemma grows_generateContent : grows (generateContent upstream).
Proof.
  apply grows_same. intros st. unfold generateContent.
  now destruct (generate upstream (calls st)).
Qed.

Lemma grows_try_line (sanitize : bool) (t : tier) (d1 d2 : option string) (line : string) :
  grows (try_line JSON_parse count sanitize t d1 d2 line).
Proof.
  intros st. destruct (try_line_accepted sanitize t d1 d2 line st) as (b & st' & E & H).
  rewrite E. eexists. exact H.
Qed.

Lemma grows_try_candidate (t : tier) (candidate : option value) :
  grows (try_candidate count t candidate).
Proof.
  intros st. destruct (try_candidate_state t candidate st) as [E|(c & _ & _ & _ & E)];
    rewrite E; cbn [snd accepted]; [exists []; now rewrite app_nil_r | now eexists].
Qed.

Lemma grows_fill : grows (fill count topic).
Proof.
  intros st. rewrite fill_state. destruct (short_of count (emitted st)).
  - rewrite accept_state. now eexists.
  - exists []. now rewrite app_nil_r.
Qed.

#[local] Hint Resolve grows_bind grows_try_or grows_generateContent grows_try_line
  grows_try_candidate grows_fill : pipeline.
#[local] Hint Extern 1 (grows (ret _)) => (apply grows_same; reflexivity) : pipeline.
#[local] Hint Extern 1 (grows throw) => (apply grows_same; reflexivity) : pipeline.
#[local] Hint Extern 1 (grows out_of_fuel) => (apply grows_same; reflexivity) : pipeline.
#[local] Hint Extern 1 (grows read_emitted) => (apply grows_same; reflexivity) : pipeline.
#[local] Hint Extern 1 (grows (enqueue _)) => (apply grows_same; reflexivity) : pipeline.
#[local] Hint Extern 2 (grows (if ?b then _ else _)) => destruct b : pipeline.

Lemma grows_flush_lines (lines : list string) : grows (flush_lines JSON_parse count lines).
Proof. induction lines; cbn [flush_lines]; auto 8 with pipeline. Qed.

Lemma grows_topup_lines (sanitize : bool) (t : tier) (d1 d2 : option string)
    (lines : list string) :
  grows (topup_lines JSON_parse count sanitize t d1 d2 lines).
Proof. induction lines; cbn [topup_lines]; auto 8 with pipeline. Qed.

Lemma grows_single_loop (fuel : nat) :
  grows (single_loop JSON_parse upstream count topic fuel).
Proof.
  induction fuel; cbn [single_loop]; unfold attempt; auto 12 with pipeline.
Qed.

#[local] Hint Resolve grows_flush_lines grows_topup_lines grows_single_loop : pipeline.

Lemma grows_after_stream :
  forall buffer,
    grows (flush JSON_parse count buffer ;;;
           bulk_topup JSON_parse upstream count ;;;
           single_recovery JSON_parse upstream count topic ;;;
           enqueue Done).
Proof.
  intros buffer.
  unfold flush, bulk_topup, second_round, third_round, single_recovery.
  auto 25 with pipeline.
Qed.

Lemma streaming_accepts_primary (chunks : list string) (st : session) :
  exists more,
    accepted (snd (streaming JSON_parse upstream count topic (map Says chunks) st))
    = (accepted st
       ++ map (pair Primary) (valid_units JSON_parse (fst (Framer.feed chunks EmptyString))))
      ++ more.
Proof.
  unfold streaming. unfold bind at 1. cbn [enqueue]. unfold bind at 1.
  match goal with |- context [consume _ _ _ ?b ?s] =>
    destruct (consume_accepted chunks b s) as (st1 & E1 & A1) end.
  rewrite E1. cbn [accepted] in A1. rewrite <- A1.
  apply grows_after_stream.
Qed.

(** On a stream without failure, the session accepts every valid line
    that the framer cuts from the chunks, before anything else and however
    many they are. *)
Lemma run_accepts_primary (chunks : list string) :
  open_stream upstream = Stream (map Says chunks) ->
  exists more,
    accepted (snd (run JSON_parse upstream count topic))
    = map (pair Primary) (valid_units JSON_parse (fst (Framer.feed chunks EmptyString)))
      ++ more.
Proof.
  intros Hs. unfold run, start. rewrite Hs.
  unfold bind at 1. cbn [enqueue]. unfold bind at 1. cbn [enqueue].
  match goal with |- context [streaming _ _ _ _ _ ?s] =>
    destruct (streaming_accepts_primary chunks s) as [more Hm];
    destruct (streaming JSON_parse upstream count topic (map Says chunks) s)
      as [[[]| |] st2]
  end; exists more; exact Hm.
Qed.

(** So the response holds at least as many question lines as the stream
    holds valid delimited lines. *)
Lemma run_counts_primary (chunks : list string) :
  open_stream upstream = Stream (map Says chunks) ->
  List.length (valid_units JSON_parse (fst (Framer.feed chunks EmptyString)))
  <= List.length (question_indices (out (snd (run JSON_parse upstream count topic)))).
Proof.
  intros Hs. destruct (run_accepts_primary chunks Hs) as [more H].
  destruct run_wf as [H1 _ _ _ _]. rewrite H1, H. unfold numbered.
  rewrite length_map, length_seq, length_app, length_map. lia.
Qed.

(** *** How many units a session accepts *)

Section Bounds.

Variable lo : Z.

Let top : Z := Qceiling count.

Lemma within_same {A} (m : M A) :
  (forall st, emitted (snd (m st)) = emitted st) -> within top lo m.
Proof. intros H st o st' Hrun Hb. specialize (H st). rewrite Hrun in H. cbn in H. lia. Qed.

Lemma within_bind {A B} (m : M A) (f : A -> M B) :
  within top lo m -> (forall a, within top lo (f a)) -> within top lo (bind m f).
Proof.
  intros Hm Hf st o st' Hrun Hb. unfold bind in Hrun.
  destruct (m st) as [[a| |] st1] eqn:E1; specialize (Hm st _ st1 E1 Hb).
  - exact (Hf a st1 o st' Hrun Hm).
  - now injection Hrun as _ <-.
  - now injection Hrun as _ <-.
Qed.

Lemma try_line_emitted (sanitize : bool) (t : tier) (d1 d2 : option string)
    (line : string) (st : session) :
  exists b st',
    try_line JSON_parse count sanitize t d1 d2 line st = (Returned b, st')
    /\ emitted st' = (emitted st + (if b then 1 else 0))%Z.
Proof.
  unfold try_line.
  destruct (JSON_parse line) as [obj|]; [destruct (isValidQuestion obj)|].
  - eexists true, _. split; [reflexivity|]. reflexivity.
  - destruct d1; eexists false, _; (split; [reflexivity|]); cbn; lia.
  - destruct d2; eexists false, _; (split; [reflexivity|]); cbn; lia.
Qed.

Lemma within_flush_lines (lines : list string) :
  within top lo (flush_lines JSON_parse count lines).
Proof.
  induction lines as [|line more IH]; intros st o st' Hrun Hb.
  - now injection Hrun as _ <-.
  - cbn [flush_lines] in Hrun. unfold bind at 1 in Hrun. unfold read_emitted in Hrun.
    destruct (short_of count (emitted st)) eqn:E; [|now injection Hrun as _ <-].
    apply short_of_ceiling in E. unfold bind in Hrun.
    destruct (try_line_emitted true Trailing (Some "invalid-trailing")
                (Some "parse-error-trailing") line st) as (b & st1 & E1 & A1).
    rewrite E1 in Hrun. apply (IH st1 o st' Hrun).
    rewrite A1. subst top. destruct b; lia.
Qed.

Lemma within_flush (buffer : string) : within top lo (flush JSON_parse count buffer).
Proof.
  intros st o st' Hrun Hb. unfold flush, bind, read_emitted in Hrun.
  destruct ((0 <? String.length (Text.trim buffer))%nat && short_of count (emitted st)).
  - exact (within_flush_lines _ st o st' Hrun Hb).
  - now injection Hrun as _ <-.
Qed.

(** A top-up loop entered short of the target stops at the target. *)
Lemma topup_lines_within (sanitize : bool) (t : tier) (d1 d2 : option string)
    (lines : list string) :
  forall st o st',
    topup_lines JSON_parse count sanitize t d1 d2 lines st = (o, st') ->
    short_of count (emitted st) = true ->
    (lo <= emitted st <= Z.max lo top)%Z ->
    (lo <= emitted st' <= Z.max lo top)%Z.
Proof.
  induction lines as [|line more IH]; intros st o st' Hrun Hs Hb.
  - now injection Hrun as _ <-.
  - cbn [topup_lines] in Hrun. unfold bind at 1 in Hrun.
    destruct (try_line_emitted sanitize t d1 d2 line st) as (b & st1 & E1 & A1).
    rewrite E1 in Hrun. unfold bind, read_emitted in Hrun.
    pose proof Hs as Hlt. apply short_of_ceiling in Hlt.
    destruct b; cbn [andb] in Hrun.
    + destruct (short_of count (emitted st1)) eqn:E; cbn [negb] in Hrun.
      * apply (IH st1 o st' Hrun E). rewrite A1. subst top. lia.
      * injection Hrun as _ <-. rewrite A1. subst top. lia.
    + rewrite Z.add_0_r in A1.
      apply (IH st1 o st' Hrun); rewrite A1; assumption.
Qed.

(** One guarded round: the stage marker, the call, the loop, what follows. *)
Lemma round_within (stage : string) (sanitize : bool) (t : tier) (d1 d2 : option string)
    (next : M unit) :
  within top lo next ->
  within top lo
    (e <- read_emitted ;;
     if short_of count e then
       enqueue (Server stage) ;;;
       text <- generateContent upstream ;;
       topup_lines JSON_parse count sanitize t d1 d2 (Text.nonempty_lines text) ;;;
       next
     else ret tt).
Proof.
  intros Hn st o st' Hrun Hb. unfold bind at 1 in Hrun. unfold read_emitted in Hrun.
  destruct (short_of count (emitted st)) eqn:E; [|now injection Hrun as _ <-].
  unfold bind at 1 in Hrun. cbn [enqueue] in Hrun.
  unfold bind at 1 in Hrun. unfold generateContent in Hrun.
  destruct (generate upstream _) as [|text]; [now injection Hrun as _ <-|].
  cbn [calls] in Hrun. unfold bind in Hrun.
  match type of Hrun with context [topup_lines _ _ ?s ?tt ?a ?b ?l ?x] =>
    destruct (topup_lines JSON_parse count s tt a b l x) as [[[]| |] st2] eqn:Et;
    pose proof (topup_lines_within s tt a b l x _ st2 Et E Hb) as Ht
  end.
  - exact (Hn st2 o st' Hrun Ht).
  - now injection Hrun as _ <-.
  - now injection Hrun as _ <-.
Qed.

Lemma within_bulk_topup : within top lo (bulk_topup JSON_parse upstream count).
Proof.
  unfold bulk_topup, second_round, third_round.
  apply round_within. apply round_within.
  intros st o st' Hrun.
  apply (round_within "final-retry" true (Bulk 3) None None (ret tt)
           ltac:(apply within_same; reflexivity) st o st').
  rewrite <- Hrun. unfold bind, read_emitted.
  destruct (short_of count (emitted st)); [|reflexivity]. cbn [enqueue].
  unfold generateContent. destruct (generate upstream _); [reflexivity|].
  now destruct (topup_lines _ _ _ _ _ _ _ _) as [[[]| |] ?].
Qed.

End Bounds.

Lemma streaming_count (chunks : list string) (st st' : session) :
  wf st ->
  streaming JSON_parse upstream count topic (map Says chunks) st = (Returned tt, st') ->
  emitted st'
  = Z.max (Qceiling count)
      (emitted st
       + Z.of_nat (List.length
                     (valid_units JSON_parse (fst (Framer.feed chunks EmptyString))))).
Proof.
  intros Hwf Hrun. unfold streaming in Hrun.
  apply bind_returned in Hrun. destruct Hrun as (u0 & s0 & E0 & Hrun).
  assert (Hwf0 : wf s0).
  { pose proof (preserves_enqueue (Server "stream-open") eq_refl st Hwf) as H.
    now rewrite E0 in H. }
  assert (Hs0 : accepted s0 = accepted st) by (inversion E0; reflexivity).
  apply bind_returned in Hrun. destruct Hrun as (buffer & s1 & Ec & Hrun).
  destruct (consume_accepted chunks EmptyString s0) as (s1' & E1 & A1).
  rewrite E1 in Ec. injection Ec as Eb Es. subst buffer s1'.
  assert (Hwf1 : wf s1).
  { pose proof (preserves_consume (map Says chunks) EmptyString s0 Hwf0) as H.
    now rewrite E1 in H. }
  set (n := List.length (valid_units JSON_parse (fst (Framer.feed chunks EmptyString)))) in *.
  assert (He : emitted s1 = (emitted st + Z.of_nat n)%Z).
  { destruct Hwf1 as [_ H2 _ _ _]. destruct Hwf as [_ H2' _ _ _].
    rewrite H2, A1, Hs0, length_app, length_map, H2'. fold n. lia. }
  apply bind_returned in Hrun. destruct Hrun as (u2 & s2 & Ef & Hrun).
  assert (B2 : (emitted s1 <= emitted s2 <= Z.max (emitted s1) (Qceiling count))%Z)
    by (apply (within_flush (emitted s1) _ s1 _ s2 Ef); lia).
  apply bind_returned in Hrun. destruct Hrun as (u3 & s3 & Eb & Hrun).
  assert (B3 : (emitted s1 <= emitted s3 <= Z.max (emitted s1) (Qceiling count))%Z)
    by (exact (within_bulk_topup (emitted s1) s2 _ s3 Eb B2)).
  apply bind_returned in Hrun. destruct Hrun as (u4 & s4 & E4 & Hrun).
  destruct (single_recovery_completes s3) as (s4' & E4' & _ & H4 & _).
  rewrite E4' in E4. injection E4 as Es. subst s4'.
  injection Hrun as <-. cbn [emitted]. lia.
Qed.

(** A stream without failure, and a session that reaches its terminal
    line: the number of accepted units is the target, or the number of valid
    lines that the framer cut from the chunks when that is larger. *)
Lemma run_stream_count (chunks : list string) :
  open_stream upstream = Stream (map Says chunks) ->
  fst (run JSON_parse upstream count topic) = Returned tt ->
  emitted (snd (run JSON_parse upstream count topic))
  = Z.max (Qceiling count)
      (Z.of_nat (List.length
                   (valid_units JSON_parse (fst (Framer.feed chunks EmptyString))))).
Proof.
  intros Hs.
  set (s00 := snd (enqueue (Server "prompt-built")
                     (snd (enqueue (Server "received") initial)))).
  assert (Hstart : start JSON_parse upstream count topic initial
                   = streaming JSON_parse upstream count topic (map Says chunks) s00)
    by (unfold start; rewrite Hs; reflexivity).
  assert (Hwf : wf s00).
  { apply (preserves_enqueue (Server "prompt-built") eq_refl).
    apply (preserves_enqueue (Server "received") eq_refl). exact wf_initial. }
  unfold run. rewrite Hstart.
  destruct (streaming JSON_parse upstream count topic (map Says chunks) s00)
    as [[[]| |] st'] eqn:E; cbn [fst snd]; try discriminate.
  intros _. now rewrite (streaming_count chunks s00 st' Hwf E).
Qed.

(** The question lines of such a session, in full: numbered from 1 to the
    target, or to the number of valid delimited lines of the stream when
    that is larger. *)
Lemma run_stream_questions (chunks : list string) :
  open_stream upstream = Stream (map Says chunks) ->
  fst (run JSON_parse upstream count topic) = Returned tt ->
  question_indices (out (snd (run JSON_parse upstream count topic)))
  = numbered
      (Z.to_nat
         (Z.max (Qceiling count)
            (Z.of_nat (List.length
                         (valid_units JSON_parse (fst (Framer.feed chunks EmptyString))))))).
Proof.
  intros Hs Hr. pose proof run_numbered as H. cbn zeta in H.
  now rewrite H, (run_stream_count chunks Hs Hr).
Qed.

End Preservation.

End SessionFacts.

(* ===================================================================== *)
(** ** The requested count *)
(* ===================================================================== *)

Module CountFacts.

Lemma ten_positive : (0 < 10)%Q /\ (10 <= 10)%Q /\ (1 <= 10)%Q.
Proof. repeat split; unfold Qlt, Qle; simpl; lia. Qed.

Lemma not_Qle_bool (x y : Q) : Qle_bool x y = false -> (y < x)%Q.
Proof.
  intros H. apply Qnot_le_lt. intros Hle. apply Qle_bool_iff in Hle. congruence.
Qed.

(** The effective count is the supplied number itself, or the default. *)
Lemma clampCount_cases (c : value) :
  clampCount c = 10%Q
  \/ exists q, c = VNum (Fin q) /\ (0 < q)%Q /\ (q < 10)%Q /\ clampCount c = q.
Proof.
  destruct c as [| | |[q| | |]| | |]; try (now left).
  cbn. destruct (Qle_bool q 0) eqn:E0; [now left|]. cbn.
  destruct (Qle_bool 10 q) eqn:E10; [now left|].
  right. exists q. repeat split; now apply not_Qle_bool.
Qed.

Lemma clampCount_bounds (c : value) : (0 < clampCount c)%Q /\ (clampCount c <= 10)%Q.
Proof.
  destruct (clampCount_cases c) as [-> | (q & _ & H0 & H10 & ->)].
  - split; apply ten_positive.
  - split; [exact H0 | now apply Qlt_le_weak].
Qed.

Lemma clampCount_below_one (c : value) :
  (clampCount c < 1)%Q ->
  exists q, c = VNum (Fin q) /\ (0 < q)%Q /\ (q < 1)%Q /\ clampCount c = q.
Proof.
  destruct (clampCount_cases c) as [E | (q & Hc & H0 & H10 & E)]; rewrite E; intros H.
  - exfalso. revert H. unfold Qlt. simpl. lia.
  - now exists q.
Qed.

Lemma clampCount_integer (z : Z) : (1 <= clampCount (VNum (Fin (inject_Z z))))%Q.
Proof.
  destruct (clampCount_cases (VNum (Fin (inject_Z z)))) as [-> | (q & [= <-] & H0 & _ & ->)].
  - apply ten_positive.
  - change 1%Q with (inject_Z 1). rewrite <- Zle_Qle.
    change 0%Q with (inject_Z 0) in H0. rewrite <- Zlt_Qlt in H0. lia.
Qed.

Lemma clampCount_default (c : value) :
  match c with VNum n => positive n = false | _ => True end -> clampCount c = 10%Q.
Proof. destruct c; try reflexivity. cbn. now intros ->. Qed.

End CountFacts.

(* ===================================================================== *)
(** ** The sanitizer of the one-shot route *)
(* ===================================================================== *)

Module EntryFacts.
Import Shape ObjFacts SanitizerFacts.

Ltac look :=
  repeat first [ rewrite lookup_set_same
               | rewrite lookup_set_other by discriminate ].

Lemma written_frame (ps : list (string * value)) (s o : value) (k : string) :
  k <> stem_key -> k <> options_key ->
  get k (VObj (written ps s o)) = get k (VObj ps).
Proof.
  intros H1 H2. unfold written.
  rewrite !get_set_other by (intros E; symmetry in E; contradiction).
  reflexivity.
Qed.

(** What the sanitizer writes: the cleaned stem and the cleaned options,
    as many as before. *)
Lemma sanitizeQuestion_writes (props : list (string * value)) :
  get "question" (sanitizeQuestion (VObj props)) = clean (get "question" (VObj props))
  /\ get "multipleChoiceOptions" (sanitizeQuestion (VObj props))
     = clean_options (get "multipleChoiceOptions" (VObj props)).
Proof.
  rewrite sanitizeQuestion_shape by discriminate.
  split; [apply written_stem | apply written_options].
Qed.

(** A unit that has both fields keeps its fields, in their order. *)
Lemma sanitizeQuestion_keys (props : list (string * value)) :
  In "question" (keys props) -> In "multipleChoiceOptions" (keys props) ->
  keys (own_props (sanitizeQuestion (VObj props))) = keys props.
Proof.
  intros H1 H2. rewrite sanitizeQuestion_shape by discriminate.
  cbn [own_props]. unfold written.
  rewrite keys_set_present; rewrite keys_set_present; auto.
Qed.

End EntryFacts.

(* ===================================================================== *)
(** ** The one-shot route *)
(* ===================================================================== *)

Module OneShotFacts.
Import Shape.

Section Handler.

Variable JSON_parse : string -> option value.
Variable String_of : value -> option string.

(** After its checks, and with its prompt built, the handler depends on
    the reply of the model only. *)
Lemma POST_generate_well_formed (req : request) (answer : reply) :
  well_formed String_of req = true ->
  POST_generate JSON_parse String_of req answer
  = match answer with
    | Throws => {| status := 500; payload := error_body "Internal error" |}
    | Says text =>
        match JSON_parse text with
        | None => bad_gateway text
        | Some parsed =>
            match get "questions" parsed with
            | VArr items =>
                if truthy parsed then
                  {| status := 200;
                     payload := VObj (obj_set "questions" (VArr (map sanitizeEntry items))
                                        (own_props parsed)) |}
                else bad_gateway text
            | _ => bad_gateway text
            end
        end
    end.
Proof.
  unfold well_formed, POST_generate. intros H.
  apply andb_true_iff in H. destruct H as [Hk Hb].
  apply negb_true_iff in Hk. rewrite Hk.
  destruct (body req) as [b|]; [|discriminate Hb].
  assert (G : forall b' (r : response),
             match text_field String_of (get "section" b'),
                   text_field String_of (get "topic" b') with
             | Some section, Some topic =>
                 negb (Text.is_empty section) && negb (Text.is_empty topic)
                 && match build_prompt String_of section topic b' with
                    | Some _ => true
                    | None => false
                    end
             | _, _ => false
             end = true ->
             match text_field String_of (get "section" b'),
                   text_field String_of (get "topic" b') with
             | Some section, Some topic =>
                 let count := effectiveCount b' in
                 if Text.is_empty section || Text.is_empty topic
                 then {| status := 400; payload := error_body "Missing section or topic" |}
                 else
                   match build_prompt String_of section topic b' with
                   | None => {| status := 500; payload := error_body "Internal error" |}
                   | Some _ => r
                   end
             | _, _ => {| status := 500; payload := error_body "Internal error" |}
             end = r).
  { intros b' r G.
    destruct (text_field String_of (get "section" b')) as [section|]; [|discriminate G].
    destruct (text_field String_of (get "topic" b')) as [topic|]; [|discriminate G].
    apply andb_true_iff in G. destruct G as [G Hp].
    apply andb_true_iff in G. destruct G as [Hs Ht].
    apply negb_true_iff in Hs. apply negb_true_iff in Ht. rewrite Hs, Ht. cbn [orb].
    now destruct (build_prompt String_of section topic b'). }
  destruct b; try discriminate Hb; apply G; exact Hb.
Qed.

(** A request that fails a check, or whose prompt cannot be built, is
    answered before the model is called: 400 when the section or the topic
    is blank, 500 in every other case. *)
Lemma POST_generate_rejected (req : request) (answer : reply) :
  well_formed String_of req = false ->
  status (POST_generate JSON_parse String_of req answer)
  = (if lacks_field String_of req then 400 else 500)
  /\ exists message,
       payload (POST_generate JSON_parse String_of req answer) = error_body message.
Proof.
  unfold well_formed, lacks_field, POST_generate. intros H.
  destruct (Text.is_empty (apiKey req)); [split; [reflexivity | now eexists]|].
  cbn [negb andb] in H |- *.
  destruct (body req) as [b|]; [|split; [reflexivity | now eexists]].
  assert (G : forall b',
             match text_field String_of (get "section" b'),
                   text_field String_of (get "topic" b') with
             | Some section, Some topic =>
                 negb (Text.is_empty section) && negb (Text.is_empty topic)
                 && match build_prompt String_of section topic b' with
                    | Some _ => true
                    | None => false
                    end
             | _, _ => false
             end = false ->
             let r :=
               match text_field String_of (get "section" b'),
                     text_field String_of (get "topic" b') with
               | Some section, Some topic =>
                   let count := effectiveCount b' in
                   if Text.is_empty section || Text.is_empty topic
                   then {| status := 400; payload := error_body "Missing section or topic" |}
                   else
                     match build_prompt String_of section topic b' with
                     | None => {| status := 500; payload := error_body "Internal error" |}
                     | Some _ =>
                         match answer with
                         | Throws => {| status := 500; payload := error_body "Internal error" |}
                         | Says text =>
                             match JSON_parse text with
                             | None => bad_gateway text
                             | Some parsed =>
                                 match get "questions" parsed with
                                 | VArr items =>
                                     if truthy parsed then
                                       {| status := 200;
                                          payload :=
                                            VObj (obj_set "questions"
                                                    (VArr (map sanitizeEntry items))
                                                    (own_props parsed)) |}
                                     else bad_gateway text
                                 | _ => bad_gateway text
                                 end
                             end
                         end
                     end
               | _, _ => {| status := 500; payload := error_body "Internal error" |}
               end in
             status r
             = (if match text_field String_of (get "section" b'),
                          text_field String_of (get "topic" b') with
                   | Some section, Some topic => Text.is_empty section || Text.is_empty topic
                   | _, _ => false
                   end then 400 else 500)
             /\ exists message, payload r = error_body message).
  { intros b' Hb. cbn zeta.
    destruct (text_field String_of (get "section" b')) as [section|];
      [|split; [reflexivity | now eexists]].
    destruct (text_field String_of (get "topic" b')) as [topic|];
      [|split; [reflexivity | now eexists]].
    destruct (Text.is_empty section || Text.is_empty topic) eqn:E;
      [split; [reflexivity | now eexists]|].
    apply orb_false_iff in E. destruct E as [E1 E2]. rewrite E1, E2 in Hb.
    cbn [negb andb] in Hb.
    destruct (build_prompt String_of section topic b'); [discriminate Hb|].
    split; [reflexivity | now eexists]. }
  destruct b; try (split; [reflexivity | now eexists]); apply G; exact H.
Qed.

Lemma questions_is_object (parsed : value) (items : list value) :
  get "questions" parsed = VArr items -> exists props, parsed = VObj props.
Proof. destruct parsed; try discriminate. intros _. now exists props. Qed.

End Handler.

(** A difficulty without a string form: the prompt cannot be built, and
    both routes answer 500 before the model is called. *)
Lemma unprintable_difficulty_rejected (upstream : model) (answer : reply) :
  well_formed Sample.to_string Sample.unprintable = false
  /\ POST_stream Sample.parse Sample.to_string Sample.unprintable upstream = Reject 500
  /\ POST_generate Sample.parse Sample.to_string Sample.unprintable answer
     = {| status := 500; payload := error_body "Internal error" |}.
Proof. repeat split. Qed.

End OneShotFacts.

(* ===================================================================== *)
(** ** The filler *)
(* ===================================================================== *)

Module FillerFacts.
Import Shape TextFacts.

Lemma trimEnd_nonspace (c : ascii) (r : string) :
  Text.is_space c = false -> Text.trimEnd (String c r) = String c (Text.trimEnd r).
Proof. intros H. now rewrite trimEnd_cons, H, andb_false_r. Qed.

(** A text that starts with five characters outside the whitespace class
    keeps them when trimmed. *)
Lemma trim_head (c1 c2 c3 c4 c5 : ascii) (r : string) :
  Text.is_space c1 = false -> Text.is_space c2 = false -> Text.is_space c3 = false ->
  Text.is_space c4 = false -> Text.is_space c5 = false ->
  5 <= String.length (Text.trim (String c1 (String c2 (String c3 (String c4 (String c5 r)))))).
Proof.
  intros H1 H2 H3 H4 H5. unfold Text.trim. cbn [Text.trimStart]. rewrite H1.
  rewrite !trimEnd_nonspace by assumption. cbn [String.length]. lia.
Qed.

Lemma clean_synth (rest : string) : 5 <= String.length (Text.clean ("Synth" ++ rest)).
Proof.
  unfold Text.clean.
  change (Text.remove_blank 0 false ("Synth" ++ rest))
    with (String "S" (String "y" (String "n" (String "t" (String "h"
            (Text.remove_blank 0 true rest)))))).
  change (Text.collapse_spaces false
            (String "S" (String "y" (String "n" (String "t" (String "h"
               (Text.remove_blank 0 true rest)))))))
    with (String "S" (String "y" (String "n" (String "t" (String "h"
            (Text.collapse_spaces false (Text.remove_blank 0 true rest))))))).
  now apply trim_head.
Qed.

Lemma filler_stem (n : Z) (topic : string) :
  exists rest, get "question" (synthetic n topic) = VStr ("Synth" ++ rest).
Proof. eexists. cbn. reflexivity. Qed.

(** The filler passes the validator, before and after the sanitizer,
    whatever the slot and the topic. *)
Lemma filler_valid (n : Z) (topic : string) :
  isValidQuestion (synthetic n topic) = true
  /\ isValidQuestion (sanitizeQuestion (synthetic n topic)) = true.
Proof.
  destruct (filler_stem n topic) as [rest Hstem]. split.
  - rewrite ValidatorFacts.isValidQuestion_guards, Hstem.
    replace (trimmed_string_at_least 5 (VStr ("Synth" ++ rest))) with true; [reflexivity|].
    symmetry. apply Nat.leb_le. now apply trim_head.
  - rewrite ValidatorFacts.isValidQuestion_guards.
    unfold synthetic in *.
    rewrite (proj1 (EntryFacts.sanitizeQuestion_writes _)), Hstem.
    cbn [clean].
    replace (trimmed_string_at_least 5 (VStr (Text.clean ("Synth" ++ rest)))) with true;
      [reflexivity|].
    symmetry. apply Nat.leb_le.
    replace (Text.trim (Text.clean ("Synth" ++ rest))) with (Text.clean ("Synth" ++ rest))
      by (unfold Text.clean; now rewrite trim_idem).
    apply clean_synth.
Qed.

End FillerFacts.
(* ===================================================================== *)
(** ** Properties kept along a whole session *)
(* ===================================================================== *)

Module InvariantFacts.
Import Trace Lines.
Local Open Scope pipeline_scope.

Lemma keeps_ret {A} (P : session -> Prop) (a : A) : keeps P (ret a).
Proof. intros st H. exact H. Qed.

Lemma keeps_bind {A B} (P : session -> Prop) (m : M A) (f : A -> M B) :
  keeps P m -> (forall a, keeps P (f a)) -> keeps P (bind m f).
Proof.
  intros Hm Hf st H. unfold bind. specialize (Hm st H).
  destruct (m st) as [[a| |] st']; cbn [snd] in *; try exact Hm.
  now apply Hf.
Qed.

Lemma keeps_try_or {A} (P : session -> Prop) (d : A) (m : M A) :
  keeps P m -> keeps P (try_or d m).
Proof.
  intros Hm st H. unfold try_or. specialize (Hm st H).
  now destruct (m st) as [[a| |] st'].
Qed.

(** A property of the session that the primitive steps keep is kept by
    every stage of the orchestrator. *)
Section Invariant.

Variable JSON_parse : string -> option value.
Variable upstream : model.
Variable count : Q.
Variable topic : string.
Variable P : session -> Prop.

Hypothesis P_marker : forall s, keeps P (enqueue (Server s)).
Hypothesis P_accept :
  forall sanitize t obj,
    isValidQuestion obj = true -> coherent sanitize t = true \/ checks_duplicates t = true ->
    keeps P (accept count sanitize t obj).
Hypothesis P_fill : keeps P (fill count topic).
Hypothesis P_call : keeps P (generateContent upstream).
Hypothesis P_remember : forall norm, keeps P (remember norm).

Create HintDb stages.
#[local] Hint Resolve keeps_bind keeps_try_or P_marker P_fill P_call P_remember : stages.
#[local] Hint Extern 1 (keeps _ (ret _)) => apply keeps_ret : stages.
#[local] Hint Extern 1 (keeps _ throw) => (intros ? ?; assumption) : stages.
#[local] Hint Extern 1 (keeps _ out_of_fuel) => (intros ? ?; assumption) : stages.
#[local] Hint Extern 1 (keeps _ read_emitted) => (intros ? ?; assumption) : stages.
#[local] Hint Extern 1 (keeps _ (seen _)) => (intros ? ?; assumption) : stages.
#[local] Hint Extern 2 (keeps _ (if ?b then _ else _)) => destruct b : stages.

Lemma keeps_diag (stage : option string) : keeps P (diag stage).
Proof. destruct stage; cbn [diag]; auto with stages. Qed.

#[local] Hint Resolve keeps_diag : stages.

Lemma keeps_try_line (sanitize : bool) (t : tier) (d1 d2 : option string) (line : string) :
  coherent sanitize t = true -> keeps P (try_line JSON_parse count sanitize t d1 d2 line).
Proof.
  intros Hc. unfold try_line. destruct (JSON_parse line) as [obj|]; [|auto with stages].
  destruct (isValidQuestion obj) eqn:E; auto 6 with stages.
Qed.

Lemma keeps_drain (fuel : nat) : forall buffer, keeps P (drain JSON_parse count fuel buffer).
Proof.
  induction fuel as [|fuel IH]; intros buffer; cbn [drain];
    destruct (Text.cut_line buffer) as [[slice rest]|]; auto with stages.
  apply keeps_bind; [|auto].
  destruct (Text.is_empty (Text.trim slice)); [auto with stages|].
  now apply keeps_try_line.
Qed.

Lemma keeps_consume (chunks : list reply) :
  forall buffer, keeps P (consume JSON_parse count chunks buffer).
Proof.
  induction chunks as [|[|txt] more IH]; intros buffer; cbn [consume]; auto with stages.
  apply keeps_bind; [auto with stages|]. intros _.
  apply keeps_bind; [apply keeps_drain | auto].
Qed.

Lemma keeps_flush_lines (lines : list string) : keeps P (flush_lines JSON_parse count lines).
Proof.
  induction lines as [|line more IH]; cbn [flush_lines]; [auto with stages|].
  apply keeps_bind; [auto with stages|]. intros e.
  destruct (short_of count e); [|auto with stages].
  apply keeps_bind; [now apply keeps_try_line | auto].
Qed.

Lemma keeps_flush (buffer : string) : keeps P (flush JSON_parse count buffer).
Proof.
  unfold flush. apply keeps_bind; [auto with stages|]. intros e.
  destruct (_ && _); [apply keeps_flush_lines | auto with stages].
Qed.

Lemma keeps_topup_lines (sanitize : bool) (t : tier) (d1 d2 : option string)
    (lines : list string) :
  coherent sanitize t = true ->
  keeps P (topup_lines JSON_parse count sanitize t d1 d2 lines).
Proof.
  intros Hc. induction lines as [|line more IH]; cbn [topup_lines]; [auto with stages|].
  apply keeps_bind; [now apply keeps_try_line|]. intros ok.
  apply keeps_bind; [auto with stages|]. intros e.
  destruct (_ && _); auto with stages.
Qed.

Lemma keeps_bulk_topup : keeps P (bulk_topup JSON_parse upstream count).
Proof.
  pose proof (fun d1 d2 n l => keeps_topup_lines true (Bulk n) d1 d2 l eq_refl) as H.
  unfold bulk_topup, second_round, third_round. auto 30 with stages.
Qed.

Lemma keeps_try_candidate (t : tier) (candidate : option value) :
  checks_duplicates t = true -> keeps P (try_candidate count t candidate).
Proof.
  intros Ht. unfold try_candidate. destruct candidate as [c|]; [|auto with stages].
  destruct (truthy c); cbn [andb]; [|auto with stages].
  destruct (isValidQuestion c) eqn:E; [|auto with stages].
  apply keeps_bind; [auto with stages|]. intros dup. destruct dup; [auto with stages|].
  apply keeps_bind; [auto with stages|]. intros _.
  apply keeps_bind; [|auto with stages]. apply P_accept; [exact E | now right].
Qed.

Lemma keeps_attempt : keeps P (attempt JSON_parse upstream count).
Proof.
  pose proof (fun c => keeps_try_candidate Single c eq_refl) as H1.
  pose proof (fun c => keeps_try_candidate Retry c eq_refl) as H2.
  unfold attempt. auto 20 with stages.
Qed.

Lemma keeps_single_loop (fuel : nat) :
  keeps P (single_loop JSON_parse upstream count topic fuel).
Proof.
  pose proof keeps_attempt as Ha.
  induction fuel as [|fuel IH]; cbn [single_loop]; auto 20 with stages.
Qed.

Lemma keeps_single_recovery : keeps P (single_recovery JSON_parse upstream count topic).
Proof.
  pose proof keeps_single_loop as H. unfold single_recovery. auto 20 with stages.
Qed.

Lemma keeps_each_line (lines : list string) : keeps P (each_line JSON_parse count lines).
Proof.
  induction lines as [|line more IH]; cbn [each_line]; [auto with stages|].
  apply keeps_bind; [now apply keeps_try_line | auto].
Qed.

Lemma keeps_start :
  keeps P (enqueue Done) -> keeps P (start JSON_parse upstream count topic).
Proof.
  intros Hd.
  pose proof keeps_consume as H1. pose proof keeps_flush as H2.
  pose proof keeps_bulk_topup as H3. pose proof keeps_single_recovery as H4.
  pose proof keeps_each_line as H5.
  pose proof (fun l => keeps_topup_lines false FallbackTopup None None l eq_refl) as H6.
  unfold start, streaming, fallback. destruct (open_stream upstream); auto 30 with stages.
Qed.

Lemma keeps_run :
  keeps P (enqueue Done) -> keeps P (enqueue Error) -> P initial ->
  P (snd (run JSON_parse upstream count topic)).
Proof.
  intros Hd He H0. unfold run. pose proof (keeps_start Hd initial H0) as H.
  destruct (start JSON_parse upstream count topic initial) as [[[]| |] st];
    cbn [snd] in *; try exact H.
  now apply He.
Qed.

Lemma closes_bind {A B} (m : M A) (f : A -> M B) :
  keeps P m -> (forall a, closes P (f a)) -> closes P (bind m f).
Proof.
  intros Hm Hf st H. unfold bind. specialize (Hm st H).
  destruct (m st) as [[a| |] st']; cbn [fst snd] in *; try exact Hm.
  now apply Hf.
Qed.

Lemma closes_done : closes P (enqueue Done).
Proof. intros st H. cbn. now exists st. Qed.

Lemma closes_branch :
  closes P (match open_stream upstream with
            | StreamThrows => throw
            | Stream chunks => streaming JSON_parse upstream count topic chunks
            | NoStream => fallback JSON_parse upstream count
            end).
Proof.
  destruct (open_stream upstream).
  - intros st H. exact H.
  - unfold fallback.
    apply closes_bind; [auto with stages|]. intros _.
    apply closes_bind; [auto with stages|]. intros text.
    apply closes_bind; [apply keeps_each_line|]. intros _.
    apply closes_bind; [auto with stages|]. intros e.
    apply closes_bind; [|intros _; apply closes_done].
    destruct (short_of count e); [|auto with stages].
    apply keeps_bind; [auto with stages|]. intros _.
    apply keeps_bind; [auto with stages|]. intros t2.
    now apply keeps_topup_lines.
  - unfold streaming.
    apply closes_bind; [auto with stages|]. intros _.
    apply closes_bind; [apply keeps_consume|]. intros buffer.
    apply closes_bind; [apply keeps_flush|]. intros _.
    apply closes_bind; [apply keeps_bulk_topup|]. intros _.
    apply closes_bind; [apply keeps_single_recovery|]. intros _.
    apply closes_done.
Qed.

End Invariant.

(** *** The layout of the lines *)

Lemma paired_app (total : Q) (a b : list event) :
  paired total a -> paired total b -> paired total (a ++ b).
Proof.
  intros Ha Hb.
  assert (G : forall n a, List.length a <= n -> paired total a -> paired total (a ++ b)).
  { clear a Ha. induction n as [|n IH]; intros a Hn Ha.
    - destruct a; [exact Hb | cbn in Hn; lia].
    - destruct a as [|e a]; [exact Hb|].
      destruct e as [s|i q|c t| |]; cbn [app paired] in *;
        try (apply IH; [cbn in Hn; lia | exact Ha]); try contradiction.
      destruct a as [|[s|i' q'|c t| |] a]; try contradiction.
      cbn [app]. destruct Ha as (E1 & E2 & Ha). repeat split; try assumption.
      apply IH; [cbn in Hn; lia | exact Ha]. }
  exact (G (List.length a) a (le_n _) Ha).
Qed.

Lemma paired_other (total : Q) (a : list event) (e : event) :
  paired total a ->
  match e with Question _ _ | Progress _ _ => False | _ => True end ->
  paired total (a ++ [e]).
Proof.
  intros Ha He. apply paired_app; [exact Ha|]. now destruct e.
Qed.

Lemma open_ended_snoc (a : list event) (e : event) :
  open_ended a -> is_terminal e = false -> open_ended (a ++ [e]).
Proof. intros Ha He. apply Forall_app. split; [exact Ha | now constructor]. Qed.

Section Layout.

Variable JSON_parse : string -> option value.
Variable upstream : model.
Variable count : Q.
Variable topic : string.

Lemma paired_accept (sanitize : bool) (t : tier) (obj : value) :
  keeps (fun st => paired count (out st)) (accept count sanitize t obj).
Proof.
  intros st H. cbn. rewrite <- app_assoc. apply paired_app; [exact H|]. now cbn.
Qed.

Lemma paired_fill : keeps (fun st => paired count (out st)) (fill count topic).
Proof.
  intros st H. unfold fill, bind, read_emitted.
  destruct (short_of count (emitted st)); [|exact H].
  cbn. rewrite <- app_assoc. apply paired_app; [exact H|]. now cbn.
Qed.

Lemma run_paired : paired count (out (snd (run JSON_parse upstream count topic))).
Proof.
  apply (keeps_run JSON_parse upstream count topic (fun st => paired count (out st))).
  - intros s st H. now apply paired_other.
  - intros sanitize t obj _ _. apply paired_accept.
  - apply paired_fill.
  - intros st H. unfold generateContent. now destruct (generate upstream (calls st)).
  - intros norm st H. exact H.
  - intros st H. now apply paired_other.
  - intros st H. now apply paired_other.
  - exact I.
Qed.

Lemma opens_accept (pre : list event) (sanitize : bool) (t : tier) (obj : value) :
  keeps (opens pre) (accept count sanitize t obj).
Proof.
  intros st (body & E & H). cbn. rewrite E.
  exists ((body ++ [Question (emitted st + 1) (if sanitize then sanitizeQuestion obj else obj)])
          ++ [Progress (emitted st + 1) count]).
  split; [now rewrite <- !app_assoc|]. now repeat apply open_ended_snoc.
Qed.

Lemma opens_fill (pre : list event) : keeps (opens pre) (fill count topic).
Proof.
  intros st (body & E & H). unfold fill, bind, read_emitted.
  destruct (short_of count (emitted st)); [|now exists body].
  cbn. rewrite E.
  exists ((body ++ [Question (emitted st + 1)
                      (sanitizeQuestion (synthetic (emitted st + 1) topic))])
          ++ [Progress (emitted st + 1) count]).
  split; [now rewrite <- !app_assoc|]. now repeat apply open_ended_snoc.
Qed.

Lemma opens_marker (pre : list event) (s : string) : keeps (opens pre) (enqueue (Server s)).
Proof.
  intros st (body & E & H). cbn. rewrite E. exists (body ++ [Server s]).
  split; [now rewrite <- app_assoc | now apply open_ended_snoc].
Qed.

(** The lines of a session: the two opening markers, lines that are not
    terminal, and one terminal line, the last. *)
Lemma run_frame :
  let r := run JSON_parse upstream count topic in
  fst r <> OutOfFuel
  /\ exists body,
       open_ended body
       /\ out (snd r)
          = Server "received" :: Server "prompt-built" :: body
            ++ [match fst r with Returned _ => Done | _ => Error end].
Proof.
  cbn zeta. split; [apply SessionFacts.run_fueled|].
  pose proof SessionFacts.run_fueled JSON_parse upstream count topic as Hf.
  set (pre := [Server "received"; Server "prompt-built"]).
  assert (Hc : keeps (opens pre) (generateContent upstream)).
  { intros st Hst. unfold generateContent. now destruct (generate upstream (calls st)). }
  pose proof (closes_branch JSON_parse upstream count topic (opens pre) (opens_marker pre)
                (fun s t o _ _ => opens_accept pre s t o) (opens_fill pre) Hc
                (fun norm st Hst => Hst)) as H.
  set (s00 := snd (enqueue (Server "prompt-built")
                     (snd (enqueue (Server "received") initial)))).
  specialize (H s00).
  assert (H0 : opens pre s00) by (exists []; split; [reflexivity | constructor]).
  specialize (H H0). unfold run in *.
  change (start JSON_parse upstream count topic initial)
    with (match open_stream upstream with
          | StreamThrows => throw
          | Stream chunks => streaming JSON_parse upstream count topic chunks
          | NoStream => fallback JSON_parse upstream count
          end s00) in *.
  destruct (match open_stream upstream with
            | StreamThrows => throw
            | Stream chunks => streaming JSON_parse upstream count topic chunks
            | NoStream => fallback JSON_parse upstream count
            end s00) as [[[]| |] st]; cbn [fst snd] in *.
  - destruct H as (st' & (body & E & Hb) & Ho). exists body. split; [exact Hb|].
    now rewrite Ho, E.
  - destruct H as (body & E & Hb). exists body. split; [exact Hb|]. cbn. now rewrite E.
  - now elim Hf.
Qed.

End Layout.

End InvariantFacts.
(* ===================================================================== *)
(** ** What a session accepts, and what it spends *)
(* ===================================================================== *)

Module EffortFacts.
Import Trace Lines InvariantFacts.
Local Open Scope pipeline_scope.

Section Effort.

Variable JSON_parse : string -> option value.
Variable upstream : model.
Variable count : Q.
Variable topic : string.

(** Every accepted unit passed the validator, the filler included. *)
Lemma run_valid : all_valid (snd (run JSON_parse upstream count topic)).
Proof.
  apply (keeps_run JSON_parse upstream count topic all_valid).
  - intros s st H. exact H.
  - intros sanitize t obj Hv _ st H. unfold all_valid in *. cbn.
    apply Forall_app. split; [exact H | now constructor].
  - intros st H. unfold fill, bind, read_emitted.
    destruct (short_of count (emitted st)); [|exact H].
    unfold all_valid in *. cbn. apply Forall_app. split; [exact H|].
    constructor; [|constructor]. apply FillerFacts.filler_valid.
  - intros st H. unfold generateContent. now destruct (generate upstream (calls st)).
  - intros norm st H. exact H.
  - intros st H. exact H.
  - intros st H. exact H.
  - constructor.
Qed.

(** *** Calls of the model *)

Lemma counted_accept (sanitize : bool) (t : tier) (obj : value) :
  keeps counted (accept count sanitize t obj).
Proof. intros st H. unfold counted in *. cbn. lia. Qed.

Lemma counted_fill : keeps counted (fill count topic).
Proof.
  intros st H. unfold fill, bind, read_emitted, counted in *.
  destruct (short_of count (emitted st)); cbn; lia.
Qed.

Lemma counted_call : keeps counted (generateContent upstream).
Proof. intros st H. unfold generateContent. now destruct (generate upstream (calls st)). Qed.

Lemma capped_accept (c : nat) (sanitize : bool) (t : tier) (obj : value) :
  keeps (capped c) (accept count sanitize t obj).
Proof. intros st H. exact H. Qed.

Lemma capped_fill (c : nat) : keeps (capped c) (fill count topic).
Proof.
  intros st H. unfold fill, bind, read_emitted.
  now destruct (short_of count (emitted st)).
Qed.

Lemma costs_free {A} (m : M A) : (forall c, keeps (capped c) m) -> costs counted 0 m.
Proof. intros H st _. specialize (H (calls st) st (le_n _)). unfold capped in H. lia. Qed.

Lemma costs_weaken {A} (a b : nat) (m : M A) :
  a <= b -> costs counted a m -> costs counted b m.
Proof. intros Hab H st Hst. specialize (H st Hst). lia. Qed.

Lemma costs_bind {A B} (a b : nat) (m : M A) (f : A -> M B) :
  costs counted a m -> keeps counted m -> (forall x, costs counted b (f x)) ->
  costs counted (a + b) (bind m f).
Proof.
  intros Hm Hk Hf st Hst. unfold bind. specialize (Hm st Hst). specialize (Hk st Hst).
  destruct (m st) as [[x| |] st']; cbn [snd] in *; try lia.
  specialize (Hf x st' Hk). lia.
Qed.

Lemma costs_try_or {A} (a : nat) (d : A) (m : M A) :
  costs counted a m -> costs counted a (try_or d m).
Proof.
  intros Hm st Hst. unfold try_or. specialize (Hm st Hst).
  now destruct (m st) as [[x| |] st'].
Qed.

Lemma costs_call : costs counted 1 (generateContent upstream).
Proof.
  intros st _. unfold generateContent. destruct (generate upstream (calls st)); cbn; lia.
Qed.

Lemma costs_marker (e : event) : costs counted 0 (enqueue e).
Proof. intros st _. cbn. lia. Qed.

Lemma costs_ret {A} (a : A) : costs counted 0 (ret a).
Proof. intros st _. cbn. lia. Qed.

Lemma costs_read : costs counted 0 read_emitted.
Proof. intros st _. cbn. lia. Qed.

Lemma counted_marker (e : event) : keeps counted (enqueue e).
Proof. intros st H. exact H. Qed.

Lemma capped_marker (c : nat) (e : event) : keeps (capped c) (enqueue e).
Proof. intros st H. exact H. Qed.

Lemma costs_topup_lines (sanitize : bool) (t : tier) (d1 d2 : option string)
    (lines : list string) :
  coherent sanitize t = true ->
  costs counted 0 (topup_lines JSON_parse count sanitize t d1 d2 lines).
Proof.
  intros Hc. apply costs_free. intros c.
  apply keeps_topup_lines; [intros s; apply capped_marker | | exact Hc].
  intros s t' o _ _. apply capped_accept.
Qed.

Lemma counted_topup_lines (sanitize : bool) (t : tier) (d1 d2 : option string)
    (lines : list string) :
  coherent sanitize t = true ->
  keeps counted (topup_lines JSON_parse count sanitize t d1 d2 lines).
Proof.
  intros Hc. apply keeps_topup_lines; [intros s; apply counted_marker | | exact Hc].
  intros s t' o _ _. apply counted_accept.
Qed.

(** One guarded round costs its call and what follows it. *)
Lemma costs_round {B} (k : nat) (stage : string) (sanitize : bool) (t : tier)
    (d1 d2 : option string) (next : M B) (skip : M B) :
  coherent sanitize t = true ->
  costs counted k next -> costs counted 0 skip ->
  costs counted (S k)
    (e <- read_emitted ;;
     if short_of count e then
       enqueue (Server stage) ;;;
       text <- generateContent upstream ;;
       topup_lines JSON_parse count sanitize t d1 d2 (Text.nonempty_lines text) ;;;
       next
     else skip).
Proof.
  intros Hc Hn Hs.
  apply (costs_bind 0 (S k)); [apply costs_read | intros st H; exact H |]. intros e.
  destruct (short_of count e); [|apply (costs_weaken 0); [lia | exact Hs]].
  apply (costs_bind 0 (S k)); [apply costs_marker | apply counted_marker |]. intros _.
  apply (costs_bind 1 k); [apply costs_call | apply counted_call |]. intros text.
  apply (costs_bind 0 k); [now apply costs_topup_lines | now apply counted_topup_lines |].
  intros _. exact Hn.
Qed.

Lemma costs_bulk_topup : costs counted 3 (bulk_topup JSON_parse upstream count).
Proof.
  unfold bulk_topup. apply costs_round; [reflexivity | | apply costs_ret].
  unfold second_round. apply costs_round; [reflexivity | | apply costs_ret].
  unfold third_round.
  apply (costs_bind 0 1); [apply costs_read | intros st H; exact H |]. intros e.
  destruct (short_of count e); [|apply (costs_weaken 0); [lia | apply costs_ret]].
  apply (costs_bind 0 1); [apply costs_marker | apply counted_marker |]. intros _.
  apply (costs_bind 1 0); [apply costs_call | apply counted_call |]. intros text.
  now apply costs_topup_lines.
Qed.

Lemma costs_try_candidate (t : tier) (candidate : option value) :
  checks_duplicates t = true -> costs counted 0 (try_candidate count t candidate).
Proof.
  intros Ht. apply costs_free. intros c.
  apply keeps_try_candidate; [| intros norm st H; exact H | exact Ht].
  intros s t' o _ _. apply capped_accept.
Qed.

Lemma counted_try_candidate (t : tier) (candidate : option value) :
  checks_duplicates t = true -> keeps counted (try_candidate count t candidate).
Proof.
  intros Ht. apply keeps_try_candidate; [| intros norm st H; exact H | exact Ht].
  intros s t' o _ _. apply counted_accept.
Qed.

Lemma costs_attempt : costs counted 2 (attempt JSON_parse upstream count).
Proof.
  unfold attempt. apply costs_try_or.
  apply (costs_bind 1 1); [apply costs_call | apply counted_call |]. intros single.
  apply (costs_bind 0 1);
    [now apply costs_try_candidate | now apply counted_try_candidate |].
  intros ok. destruct ok; [apply (costs_weaken 0); [lia | apply costs_ret]|].
  apply (costs_bind 1 0); [apply costs_call | apply counted_call |]. intros retry.
  now apply costs_try_candidate.
Qed.

Lemma counted_attempt : keeps counted (attempt JSON_parse upstream count).
Proof.
  apply keeps_attempt; [| apply counted_call | intros norm st H; exact H].
  intros s t o _ _. apply counted_accept.
Qed.

Lemma costs_single_loop (fuel : nat) :
  costs counted (2 * fuel) (single_loop JSON_parse upstream count topic fuel).
Proof.
  induction fuel as [|fuel IH]; cbn [single_loop].
  - apply (costs_bind 0 0); [apply costs_read | intros st H; exact H |]. intros e.
    destruct (short_of count e); [intros st _; cbn; lia | apply costs_ret].
  - apply (costs_bind 0 (2 * S fuel)); [apply costs_read | intros st H; exact H |].
    intros e.
    destruct (short_of count e); [|apply (costs_weaken 0); [lia | apply costs_ret]].
    replace (2 * S fuel) with (2 + (0 + 2 * fuel)) by lia.
    apply costs_bind; [apply costs_attempt | apply counted_attempt |]. intros continue.
    apply costs_bind; [| | intros _; exact IH].
    + destruct continue; [apply costs_ret|].
      apply costs_free. intros c. apply capped_fill.
    + destruct continue; [intros st H; exact H | apply counted_fill].
Qed.

Lemma costs_single_recovery :
  costs counted (2 * Z.to_nat (Qceiling count))
    (single_recovery JSON_parse upstream count topic).
Proof.
  intros st Hst. unfold single_recovery, bind, read_emitted.
  destruct (short_of count (emitted st)); [|cbn; lia].
  cbn [enqueue].
  match goal with |- context [single_loop _ _ _ _ ?f ?s] =>
    pose proof (costs_single_loop f s Hst) as H end.
  cbn [calls] in H. unfold counted in Hst.
  assert (Z.to_nat (Qceiling count - emitted st) <= Z.to_nat (Qceiling count)) by lia.
  lia.
Qed.

Lemma counted_stage {A} (m : M A) :
  (forall P : session -> Prop,
      (forall s, keeps P (enqueue (Server s))) ->
      (forall sanitize t obj,
          isValidQuestion obj = true ->
          coherent sanitize t = true \/ checks_duplicates t = true ->
          keeps P (accept count sanitize t obj)) ->
      keeps P m) ->
  keeps counted m /\ costs counted 0 m.
Proof.
  intros H. split.
  - apply H; [intros s; apply counted_marker | intros s t o _ _; apply counted_accept].
  - apply costs_free. intros c.
    apply H; [intros s; apply capped_marker | intros s t o _ _; apply capped_accept].
Qed.

Lemma costs_streaming (chunks : list reply) :
  costs counted (3 + 2 * Z.to_nat (Qceiling count))
    (streaming JSON_parse upstream count topic chunks).
Proof.
  unfold streaming. set (k := Z.to_nat (Qceiling count)).
  apply (costs_bind 0 (3 + 2 * k)); [apply costs_marker | apply counted_marker |].
  intros _.
  destruct (counted_stage (consume JSON_parse count chunks EmptyString)) as [K1 C1].
  { intros P H1 H2. now apply keeps_consume. }
  apply (costs_bind 0 (3 + 2 * k)); [exact C1 | exact K1 |]. intros buffer.
  destruct (counted_stage (flush JSON_parse count buffer)) as [K2 C2].
  { intros P H1 H2. now apply keeps_flush. }
  apply (costs_bind 0 (3 + 2 * k)); [exact C2 | exact K2 |]. intros _.
  apply (costs_bind 3 (2 * k)); [apply costs_bulk_topup | |].
  { apply keeps_bulk_topup; [intros s; apply counted_marker | | apply counted_call].
    intros s t o _ _. apply counted_accept. }
  intros _.
  replace (2 * k) with (2 * k + 0) by lia.
  apply (costs_bind (2 * k) 0); [apply costs_single_recovery | | intros _; apply costs_marker].
  apply keeps_single_recovery;
    [intros s; apply counted_marker | | apply counted_fill | apply counted_call
     | intros norm st H; exact H].
  intros s t o _ _. apply counted_accept.
Qed.

Lemma costs_fallback : costs counted 2 (fallback JSON_parse upstream count).
Proof.
  unfold fallback.
  apply (costs_bind 0 2); [apply costs_marker | apply counted_marker |]. intros _.
  apply (costs_bind 1 1); [apply costs_call | apply counted_call |]. intros text.
  destruct (counted_stage (each_line JSON_parse count (Text.nonempty_lines text)))
    as [K1 C1].
  { intros P H1 H2. now apply keeps_each_line. }
  apply (costs_bind 0 1); [exact C1 | exact K1 |]. intros _.
  apply (costs_bind 0 1); [apply costs_read | intros st H; exact H |]. intros e.
  apply (costs_bind 1 0); [| | intros _; apply costs_marker].
  - destruct (short_of count e); [|apply (costs_weaken 0); [lia | apply costs_ret]].
    apply (costs_bind 0 1); [apply costs_marker | apply counted_marker |]. intros _.
    apply (costs_bind 1 0); [apply costs_call | apply counted_call |]. intros t2.
    now apply costs_topup_lines.
  - destruct (short_of count e); [|intros st H; exact H].
    apply keeps_bind; [apply counted_marker|]. intros _.
    apply keeps_bind; [apply counted_call|]. intros t2.
    now apply counted_topup_lines.
Qed.

Lemma run_calls :
  calls (snd (run JSON_parse upstream count topic))
  <= match open_stream upstream with
     | StreamThrows => 0
     | NoStream => 2
     | Stream _ => 3 + 2 * Z.to_nat (Qceiling count)
     end.
Proof.
  set (s00 := snd (enqueue (Server "prompt-built")
                     (snd (enqueue (Server "received") initial)))).
  assert (H0 : counted s00) by (unfold counted; cbn; lia).
  unfold run.
  change (start JSON_parse upstream count topic initial)
    with (match open_stream upstream with
          | StreamThrows => throw
          | Stream chunks => streaming JSON_parse upstream count topic chunks
          | NoStream => fallback JSON_parse upstream count
          end s00).
  destruct (open_stream upstream) as [| |chunks].
  - cbn. lia.
  - pose proof (costs_fallback s00 H0) as H.
    destruct (fallback JSON_parse upstream count s00) as [[[]| |] st]; cbn in *; lia.
  - pose proof (costs_streaming chunks s00 H0) as H.
    destruct (streaming JSON_parse upstream count topic chunks s00) as [[[]| |] st];
      cbn in *; lia.
Qed.

End Effort.

End EffortFacts.
(* ===================================================================== *)
(** ** How a session ends *)
(* ===================================================================== *)

Module OutcomeFacts.
Import Trace Lines InvariantFacts EffortFacts.
Local Open Scope pipeline_scope.

Lemma calm_bind {A B} (P Q : session -> Prop) (m : M A) (f : A -> M B) :
  calm P m -> (forall st, P st -> Q (snd (m st))) -> (forall a, calm Q (f a)) ->
  calm P (bind m f).
Proof.
  intros Hm Hk Hf st Hst. unfold bind. specialize (Hm st Hst). specialize (Hk st Hst).
  destruct (m st) as [[a| |] st']; cbn [fst snd] in *; try congruence.
  now apply Hf.
Qed.

Section Outcome.

Variable JSON_parse : string -> option value.
Variable upstream : model.
Variable count : Q.
Variable topic : string.

Lemma capped_stage {A} (c : nat) (m : M A) :
  (forall P : session -> Prop,
      (forall s, keeps P (enqueue (Server s))) ->
      (forall sanitize t obj,
          isValidQuestion obj = true ->
          coherent sanitize t = true \/ checks_duplicates t = true ->
          keeps P (accept count sanitize t obj)) ->
      keeps P m) ->
  keeps (capped c) m.
Proof.
  intros H. apply H; [intros s; apply capped_marker | intros s t o _ _; apply capped_accept].
Qed.

Lemma topup_lines_returns (sanitize : bool) (t : tier) (d1 d2 : option string)
    (lines : list string) (st : session) :
  fst (topup_lines JSON_parse count sanitize t d1 d2 lines st) = Returned tt.
Proof.
  revert st. induction lines as [|line more IH]; intros st; [reflexivity|].
  cbn [topup_lines]. unfold bind at 1.
  destruct (SessionFacts.try_line_accepted JSON_parse count sanitize t d1 d2 line st)
    as (b & st1 & E1 & _).
  rewrite E1. unfold bind, read_emitted.
  destruct (b && negb (short_of count (emitted st1))); [reflexivity | apply IH].
Qed.

Lemma each_line_returns (lines : list string) (st : session) :
  fst (each_line JSON_parse count lines st) = Returned tt.
Proof.
  revert st. induction lines as [|line more IH]; intros st; [reflexivity|].
  cbn [each_line]. unfold bind.
  destruct (SessionFacts.try_line_accepted JSON_parse count false Fallback None None line st)
    as (b & st1 & E1 & _).
  rewrite E1. apply IH.
Qed.

Lemma flush_returns (buffer : string) (st : session) :
  fst (flush JSON_parse count buffer st) = Returned tt.
Proof.
  unfold flush, bind, read_emitted.
  destruct ((0 <? String.length (Text.trim buffer))%nat && short_of count (emitted st));
    [|reflexivity].
  generalize (Text.nonempty_lines buffer). intros lines. revert st.
  induction lines as [|line more IH]; intros st; [reflexivity|].
  cbn [flush_lines]. unfold bind, read_emitted.
  destruct (short_of count (emitted st)); [|reflexivity].
  destruct (SessionFacts.try_line_accepted JSON_parse count true Trailing
              (Some "invalid-trailing") (Some "parse-error-trailing") line st)
    as (b & st1 & E1 & _).
  rewrite E1. apply IH.
Qed.

(** The calls numbered below [k] do not throw. *)
Hypothesis first_calls : forall n, n < 3 -> generate upstream n <> Throws.

Lemma calm_call (c : nat) : c < 3 -> calm (capped c) (generateContent upstream).
Proof.
  intros Hc st Hst. unfold generateContent, capped in *.
  destruct (generate upstream (calls st)) eqn:E; [|discriminate].
  exfalso. apply (first_calls (calls st)); [lia | exact E].
Qed.

Lemma capped_call (c : nat) (st : session) :
  capped c st -> capped (S c) (snd (generateContent upstream st)).
Proof.
  unfold capped, generateContent. intros H.
  destruct (generate upstream (calls st)); cbn; lia.
Qed.

(** One guarded round does not throw when its call does not. *)
Lemma calm_round {B} (c : nat) (stage : string) (sanitize : bool) (t : tier)
    (d1 d2 : option string) (next : M B) (skip : M B) :
  c < 3 -> coherent sanitize t = true ->
  calm (capped (S c)) next -> calm (capped c) skip ->
  calm (capped c)
    (e <- read_emitted ;;
     if short_of count e then
       enqueue (Server stage) ;;;
       text <- generateContent upstream ;;
       topup_lines JSON_parse count sanitize t d1 d2 (Text.nonempty_lines text) ;;;
       next
     else skip).
Proof.
  intros Hc Hco Hn Hs.
  apply (calm_bind _ (capped c)); [discriminate | intros st H; exact H |]. intros e.
  destruct (short_of count e); [|exact Hs].
  apply (calm_bind _ (capped c)); [discriminate | intros st H; exact H |]. intros _.
  apply (calm_bind _ (capped (S c))); [now apply calm_call | apply capped_call |].
  intros text.
  apply (calm_bind _ (capped (S c))); [| | intros _; exact Hn].
  - intros st _. now rewrite topup_lines_returns.
  - apply capped_stage. intros P H1 H2. now apply keeps_topup_lines.
Qed.

Lemma calm_bulk_topup : calm (capped 0) (bulk_topup JSON_parse upstream count).
Proof.
  unfold bulk_topup. apply calm_round; [lia | reflexivity | | discriminate].
  unfold second_round. apply calm_round; [lia | reflexivity | | discriminate].
  unfold third_round.
  apply (calm_bind _ (capped 2)); [discriminate | intros st H; exact H |]. intros e.
  destruct (short_of count e); [|discriminate].
  apply (calm_bind _ (capped 2)); [discriminate | intros st H; exact H |]. intros _.
  apply (calm_bind _ (capped 3)); [apply calm_call; lia | apply capped_call |].
  intros text st _. now rewrite topup_lines_returns.
Qed.

Lemma calm_single_recovery (P : session -> Prop) :
  calm P (single_recovery JSON_parse upstream count topic).
Proof.
  intros st _.
  destruct (SessionFacts.single_recovery_completes JSON_parse upstream count topic st)
    as (st' & E & _).
  now rewrite E.
Qed.

Lemma calm_consume (P : session -> Prop) (chunks : list reply) :
  forallb says chunks = true ->
  forall buffer, calm P (consume JSON_parse count chunks buffer).
Proof.
  intros Hs buffer st _.
  assert (E : chunks = map Says (texts chunks)).
  { clear st. induction chunks as [|[|txt] more IH]; [reflexivity | discriminate Hs|].
    cbn. f_equal. apply IH, Hs. }
  rewrite E.
  destruct (SessionFacts.consume_accepted JSON_parse count (texts chunks) buffer st)
    as (st' & E' & _).
  now rewrite E'.
Qed.

Lemma calm_streaming (chunks : list reply) :
  forallb says chunks = true ->
  calm (capped 0) (streaming JSON_parse upstream count topic chunks).
Proof.
  intros Hs. unfold streaming.
  apply (calm_bind _ (capped 0)); [discriminate | intros st H; exact H |]. intros _.
  apply (calm_bind _ (capped 0)); [now apply calm_consume | |].
  { apply capped_stage. intros P H1 H2. now apply keeps_consume. }
  intros buffer.
  apply (calm_bind _ (capped 0)).
  { intros st _. now rewrite flush_returns. }
  { apply capped_stage. intros P H1 H2. now apply keeps_flush. }
  intros _.
  apply (calm_bind _ (fun _ => True)); [apply calm_bulk_topup | trivial |]. intros _.
  apply (calm_bind _ (fun _ => True)); [apply calm_single_recovery | trivial |].
  intros _ st _. discriminate.
Qed.

Lemma calm_fallback : calm (capped 0) (fallback JSON_parse upstream count).
Proof.
  unfold fallback.
  apply (calm_bind _ (capped 0)); [discriminate | intros st H; exact H |]. intros _.
  apply (calm_bind _ (capped 1)); [apply calm_call; lia | apply capped_call |].
  intros text.
  apply (calm_bind _ (capped 1)).
  { intros st _. now rewrite each_line_returns. }
  { apply capped_stage. intros P H1 H2. now apply keeps_each_line. }
  intros _.
  apply (calm_bind _ (capped 1)); [discriminate | intros st H; exact H |]. intros e.
  apply (calm_bind _ (fun _ => True)); [| trivial | intros _ st _; discriminate].
  destruct (short_of count e); [|discriminate].
  apply (calm_bind _ (capped 1)); [discriminate | intros st H; exact H |]. intros _.
  apply (calm_bind _ (capped 2)); [apply calm_call; lia | apply capped_call |].
  intros t2 st _. now rewrite topup_lines_returns.
Qed.

(** A session throws only when the model does: at the opening of the
    stream, in a chunk, or in one of the first three calls. *)
Lemma run_returns :
  open_stream upstream <> StreamThrows ->
  (forall chunks, open_stream upstream = Stream chunks -> forallb says chunks = true) ->
  fst (run JSON_parse upstream count topic) = Returned tt.
Proof.
  intros Ho Hc.
  pose proof (SessionFacts.run_fueled JSON_parse upstream count topic) as Hf.
  set (s00 := snd (enqueue (Server "prompt-built")
                     (snd (enqueue (Server "received") initial)))).
  assert (H0 : capped 0 s00) by (unfold capped; cbn; lia).
  unfold run in *.
  change (start JSON_parse upstream count topic initial)
    with (match open_stream upstream with
          | StreamThrows => throw
          | Stream chunks => streaming JSON_parse upstream count topic chunks
          | NoStream => fallback JSON_parse upstream count
          end s00) in *.
  destruct (open_stream upstream) as [| |chunks]; [now elim Ho | |].
  - pose proof (calm_fallback s00 H0) as H.
    destruct (fallback JSON_parse upstream count s00) as [[[]| |] st]; cbn in *;
      congruence.
  - pose proof (calm_streaming chunks (Hc chunks eq_refl) s00 H0) as H.
    destruct (streaming JSON_parse upstream count topic chunks s00) as [[[]| |] st];
      cbn in *; congruence.
Qed.

End Outcome.

End OutcomeFacts.
(* ===================================================================== *)
(** ** The branch without a stream, and the stream that is enough *)
(* ===================================================================== *)

Module BranchFacts.
Import Trace Lines InvariantFacts EffortFacts OutcomeFacts.
Local Open Scope pipeline_scope.

Section Branches.

Variable JSON_parse : string -> option value.
Variable upstream : model.
Variable count : Q.
Variable topic : string.

(** One line, in full. *)
Lemma try_line_full (sanitize : bool) (t : tier) (d1 d2 : option string)
    (line : string) (st : session) :
  exists st',
    try_line JSON_parse count sanitize t d1 d2 line st
    = (Returned (match valid_units JSON_parse [line] with [] => false | _ => true end), st')
    /\ accepted st' = accepted st ++ map (pair t) (valid_units JSON_parse [line])
    /\ emitted st' = (emitted st + Z.of_nat (List.length (valid_units JSON_parse [line])))%Z
    /\ calls st' = calls st.
Proof.
  unfold try_line, valid_units. cbn [flat_map]. rewrite app_nil_r.
  destruct (JSON_parse line) as [obj|]; [destruct (isValidQuestion obj)|].
  - eexists. split; [reflexivity|]. cbn. repeat split.
  - destruct d1; eexists; (split; [reflexivity|]); cbn; rewrite app_nil_r;
      repeat split; lia.
  - destruct d2; eexists; (split; [reflexivity|]); cbn; rewrite app_nil_r;
      repeat split; lia.
Qed.

Lemma units_cons (line : string) (more : list string) :
  valid_units JSON_parse (line :: more) = valid_units JSON_parse [line] ++ valid_units JSON_parse more.
Proof. exact (SessionFacts.valid_units_app JSON_parse [line] more). Qed.

Lemma units_single (line : string) :
  valid_units JSON_parse [line] = [] \/ exists obj, valid_units JSON_parse [line] = [obj].
Proof.
  unfold valid_units. cbn [flat_map]. rewrite app_nil_r.
  destruct (JSON_parse line) as [obj|]; [destruct (isValidQuestion obj)|]; eauto.
Qed.

(** The first loop of the branch without a stream accepts every valid
    line. *)
Lemma each_line_exact (lines : list string) :
  forall st,
    exists st',
      each_line JSON_parse count lines st = (Returned tt, st')
      /\ accepted st' = accepted st ++ map (pair Fallback) (valid_units JSON_parse lines)
      /\ emitted st' = (emitted st + Z.of_nat (List.length (valid_units JSON_parse lines)))%Z
      /\ calls st' = calls st.
Proof.
  induction lines as [|line more IH]; intros st.
  - exists st. cbn. rewrite app_nil_r. repeat split. lia.
  - cbn [each_line]. unfold bind.
    destruct (try_line_full false Fallback None None line st) as (st1 & E1 & A1 & M1 & C1).
    rewrite E1. destruct (IH st1) as (st' & E' & A' & M' & C').
    exists st'. split; [exact E'|]. rewrite (units_cons line more), map_app, length_app.
    rewrite A', A1, M', M1, C', C1, <- app_assoc. repeat split. lia.
Qed.

(** A top-up loop entered short of the target accepts the valid lines up
    to the one that meets the target. *)
Lemma topup_lines_exact (sanitize : bool) (t : tier) (d1 d2 : option string)
    (lines : list string) :
  forall st,
    (emitted st < Qceiling count)%Z ->
    let taken := firstn (Z.to_nat (Qceiling count - emitted st)) (valid_units JSON_parse lines) in
    exists st',
      topup_lines JSON_parse count sanitize t d1 d2 lines st = (Returned tt, st')
      /\ accepted st' = accepted st ++ map (pair t) taken
      /\ emitted st' = (emitted st + Z.of_nat (List.length taken))%Z
      /\ calls st' = calls st.
Proof.
  induction lines as [|line more IH]; intros st Hlt; cbn zeta.
  - exists st. cbn. rewrite firstn_nil. cbn. rewrite app_nil_r. repeat split. lia.
  - cbn [topup_lines]. unfold bind at 1.
    destruct (try_line_full sanitize t d1 d2 line st) as (st1 & E1 & A1 & M1 & C1).
    rewrite E1, (units_cons line more). unfold bind, read_emitted.
    destruct (units_single line) as [Hu|[obj Hu]]; rewrite Hu in *; cbn [app andb].
    + cbn in A1, M1. rewrite app_nil_r in A1. rewrite Z.add_0_r in M1.
      destruct (IH st1) as (st' & E' & A' & M' & C'); [lia|].
      cbn zeta in *. rewrite M1 in *. exists st'. split; [exact E'|].
      rewrite A', A1, M', C', C1. repeat split.
    + cbn in A1, M1.
      replace (Z.to_nat (Qceiling count - emitted st))
        with (S (Z.to_nat (Qceiling count - emitted st1))) by lia.
      cbn [firstn map List.length].
      destruct (short_of count (emitted st1)) eqn:Es; cbn [negb].
      * apply (SessionFacts.short_of_ceiling count) in Es.
        destruct (IH st1 Es) as (st' & E' & A' & M' & C'). cbn zeta in *.
        exists st'. split; [exact E'|].
        rewrite A', A1, M', M1, C', C1, <- app_assoc. repeat split. lia.
      * assert (Hge : ~ (emitted st1 < Qceiling count)%Z).
        { intros H. apply (SessionFacts.short_of_ceiling count) in H. congruence. }
        replace (Z.to_nat (Qceiling count - emitted st1)) with 0 by lia.
        exists st1. cbn. split; [reflexivity|]. rewrite A1, M1, C1. repeat split.
Qed.

Lemma not_short (e : Z) : (Qceiling count <= e)%Z -> short_of count e = false.
Proof.
  intros H. destruct (short_of count e) eqn:E; [|reflexivity].
  apply (SessionFacts.short_of_ceiling count) in E. lia.
Qed.

Lemma bind_eq {A B} (m : M A) (f : A -> M B) (st st1 : session) (a : A) :
  m st = (Returned a, st1) -> bind m f st = f a st1.
Proof. intros E. unfold bind. now rewrite E. Qed.

Ltac step_marker :=
  match goal with
  | |- context [bind (enqueue ?e) ?f ?s] => rewrite (bind_eq (enqueue e) f s _ tt eq_refl)
  end.

Ltac step_read :=
  match goal with
  | |- context [bind read_emitted ?f ?s] =>
      rewrite (bind_eq read_emitted f s _ (emitted s) eq_refl)
  end.

Lemma call_says (st : session) (text : string) :
  generate upstream (calls st) = Says text ->
  generateContent upstream st = (Returned text, called st).
Proof. intros E. unfold generateContent. now rewrite E. Qed.

Ltac step_call t :=
  match goal with
  | |- context [bind (generateContent ?u) ?f ?s] =>
      let H := fresh in
      assert (H : generate u (calls s) = Says t);
      [ cbn [calls enqueue snd called]
      | rewrite (bind_eq (generateContent u) f s _ t (call_says s t H)); clear H ]
  end.

Lemma fallback_exact (t1 t2 : string) (st : session) :
  calls st = 0 ->
  generate upstream 0 = Says t1 ->
  generate upstream 1 = Says t2 ->
  let v1 := valid_units JSON_parse (Text.nonempty_lines t1) in
  let v2 := valid_units JSON_parse (Text.nonempty_lines t2) in
  let e1 := (emitted st + Z.of_nat (List.length v1))%Z in
  exists st',
    fallback JSON_parse upstream count st = (Returned tt, st')
    /\ accepted st'
       = accepted st ++ map (pair Fallback) v1
         ++ map (pair FallbackTopup) (firstn (Z.to_nat (Qceiling count - e1)) v2)
    /\ calls st' = if (e1 <? Qceiling count)%Z then 2 else 1.
Proof.
  intros Hc H1 H2 v1 v2 e1. unfold fallback. step_marker.
  step_call t1; [now rewrite Hc|].
  match goal with |- context [bind (each_line _ _ ?l) ?f ?s] =>
    destruct (each_line_exact l s) as (st2 & E2 & A2 & M2 & C2);
    rewrite (bind_eq _ f s _ tt E2) end.
  cbn [accepted emitted calls called] in A2, M2, C2. fold v1 in A2, M2. fold e1 in M2.
  step_read.
  destruct (e1 <? Qceiling count)%Z eqn:Elt.
  - apply Z.ltb_lt in Elt.
    assert (Es : short_of count (emitted st2) = true)
      by (apply (SessionFacts.short_of_ceiling count); lia).
    rewrite Es.
    match goal with |- context [topup_lines _ _ _ _ _ _ _] =>
      destruct (topup_lines_exact false FallbackTopup None None (Text.nonempty_lines t2)
                  (called (snd (enqueue (Server "fallback-topup") st2))))
        as (st3 & E3 & A3 & M3 & C3) end.
    { cbn [emitted called snd enqueue]. lia. }
    cbn zeta in *. cbn [accepted emitted calls called snd enqueue] in A3, M3, C3.
    fold v2 in A3.
    erewrite bind_eq; cycle 1.
    { step_marker.
      step_call t2; [now rewrite C2, Hc|].
      exact E3. }
    eexists. split; [reflexivity|]. cbn [accepted calls enqueue snd].
    rewrite A3, A2, M2, C3, C2, Hc, <- app_assoc. split; reflexivity.
  - apply Z.ltb_ge in Elt.
    assert (Es : short_of count (emitted st2) = false) by (apply not_short; lia).
    rewrite Es. rewrite (bind_eq (ret tt) _ st2 _ tt eq_refl).
    eexists. split; [reflexivity|]. cbn [accepted calls enqueue snd].
    replace (Z.to_nat (Qceiling count - e1)) with 0 by lia.
    cbn [firstn map]. rewrite A2, C2, Hc, app_nil_r. split; reflexivity.
Qed.

Lemma start_branch :
  start JSON_parse upstream count topic initial
  = match open_stream upstream with
    | StreamThrows => throw
    | Stream chunks => streaming JSON_parse upstream count topic chunks
    | NoStream => fallback JSON_parse upstream count
    end (snd (enqueue (Server "prompt-built") (snd (enqueue (Server "received") initial)))).
Proof. reflexivity. Qed.

(** The branch without a stream, when both calls answer: it accepts every
    valid line of the first text, then the valid lines of the second up to
    the target, and shows them as they were parsed. *)
Lemma run_fallback (t1 t2 : string) :
  open_stream upstream = NoStream ->
  generate upstream 0 = Says t1 ->
  generate upstream 1 = Says t2 ->
  let v1 := valid_units JSON_parse (Text.nonempty_lines t1) in
  let v2 := valid_units JSON_parse (Text.nonempty_lines t2) in
  let r := run JSON_parse upstream count topic in
  fst r = Returned tt
  /\ question_units (out (snd r))
     = v1 ++ firstn (Z.to_nat (Qceiling count - Z.of_nat (List.length v1))) v2
  /\ calls (snd r) = if (Z.of_nat (List.length v1) <? Qceiling count)%Z then 2 else 1.
Proof.
  intros Ho H1 H2 v1 v2 r.
  assert (Hu : question_units (out (snd r)) = map shown (accepted (snd r)))
    by apply (SessionFacts.run_wf JSON_parse upstream count topic).
  rewrite Hu. subst r. unfold run. rewrite start_branch, Ho.
  match goal with |- context [fallback _ _ _ ?s] =>
    destruct (fallback_exact t1 t2 s eq_refl H1 H2) as (st' & E & A & C) end.
  rewrite E. cbn [fst snd]. cbn [emitted accepted enqueue snd initial app] in A, C.
  rewrite Z.add_0_l in A, C. fold v1 v2 in A, C.
  split; [reflexivity|]. split; [|exact C].
  rewrite A, map_app, !map_map. cbn [shown fst snd]. now rewrite !map_id.
Qed.

Lemma streaming_enough (chunks : list string) (st : session) :
  wf st -> calls st = 0 ->
  let v := valid_units JSON_parse (fst (Framer.feed chunks EmptyString)) in
  (Qceiling count <= emitted st + Z.of_nat (List.length v))%Z ->
  exists st',
    streaming JSON_parse upstream count topic (map Says chunks) st = (Returned tt, st')
    /\ accepted st' = accepted st ++ map (pair Primary) v
    /\ calls st' = 0.
Proof.
  intros W C v Hv. unfold streaming. step_marker.
  set (s0 := snd (enqueue (Server "stream-open") st)).
  destruct (SessionFacts.consume_accepted JSON_parse count chunks EmptyString s0)
    as (st1 & E1 & A1).
  assert (W1 : wf (snd (consume JSON_parse count (map Says chunks) EmptyString s0))).
  { apply SessionFacts.preserves_consume.
    now apply (SessionFacts.preserves_enqueue (Server "stream-open") eq_refl). }
  assert (C1 : capped 0 (snd (consume JSON_parse count (map Says chunks) EmptyString s0))).
  { apply (capped_stage count 0 (consume JSON_parse count (map Says chunks) EmptyString));
      [intros P K1 K2; now apply keeps_consume|].
    unfold capped. cbn. lia. }
  rewrite E1 in W1, C1. cbn [snd] in W1, C1. rewrite (bind_eq _ _ _ _ _ E1).
  cbn [accepted s0 enqueue snd] in A1. fold v in A1.
  assert (M1 : emitted st1 = (emitted st + Z.of_nat (List.length v))%Z).
  { destruct W1 as [_ W1 _ _ _]. destruct W as [_ W _ _ _].
    rewrite W1, A1, length_app, length_map, W. lia. }
  assert (Es : short_of count (emitted st1) = false) by (apply not_short; lia).
  assert (F1 : forall buffer, flush JSON_parse count buffer st1 = (Returned tt, st1)).
  { intros buffer. unfold flush, bind, read_emitted. now rewrite Es, andb_false_r. }
  assert (F2 : bulk_topup JSON_parse upstream count st1 = (Returned tt, st1)).
  { unfold bulk_topup, bind, read_emitted. now rewrite Es. }
  assert (F3 : single_recovery JSON_parse upstream count topic st1 = (Returned tt, st1)).
  { unfold single_recovery, bind, read_emitted. now rewrite Es. }
  rewrite (bind_eq _ _ _ _ _ (F1 _)), (bind_eq _ _ _ _ _ F2), (bind_eq _ _ _ _ _ F3).
  eexists. split; [reflexivity|]. cbn [accepted calls enqueue snd ret].
  split; [exact A1 | unfold capped in C1; lia].
Qed.

(** A stream that brings the target by itself: nothing else is asked of
    the model, and the questions are the sanitized valid lines. *)
Lemma run_stream_enough (chunks : list string) :
  open_stream upstream = Stream (map Says chunks) ->
  let v := valid_units JSON_parse (fst (Framer.feed chunks EmptyString)) in
  (Qceiling count <= Z.of_nat (List.length v))%Z ->
  let r := run JSON_parse upstream count topic in
  fst r = Returned tt
  /\ calls (snd r) = 0
  /\ question_units (out (snd r)) = map sanitizeQuestion v.
Proof.
  intros Ho v Hv r.
  assert (Hu : question_units (out (snd r)) = map shown (accepted (snd r)))
    by apply (SessionFacts.run_wf JSON_parse upstream count topic).
  rewrite Hu. subst r. unfold run. rewrite start_branch, Ho.
  match goal with |- context [streaming _ _ _ _ _ ?s] =>
    destruct (streaming_enough chunks s) as (st' & E & A & C) end.
  { apply (SessionFacts.preserves_enqueue (Server "prompt-built") eq_refl).
    apply (SessionFacts.preserves_enqueue (Server "received") eq_refl).
    exact SessionFacts.wf_initial. }
  { reflexivity. }
  { cbn [emitted enqueue snd initial]. fold v. lia. }
  rewrite E. cbn [fst snd]. cbn [accepted enqueue snd initial app] in A. fold v in A.
  split; [reflexivity|]. split; [exact C|].
  rewrite A, map_map. reflexivity.
Qed.

End Branches.

End BranchFacts.
(* ===================================================================== *)
(** ** The reader of the practice page *)
(* ===================================================================== *)

Module ClientFacts.
Import Trace Lines Client.

Lemma array_set_end (v : value) (a : array) :
  array_set (List.length a) v a = a ++ [Some v].
Proof. induction a as [|x r IH]; [reflexivity|]. cbn. now rewrite IH. Qed.

Lemma compact_full (qs : list value) :
  Forall (fun q => truthy q = true) qs -> compact (map Some qs) = qs.
Proof.
  induction 1 as [|q qs Hq _ IH]; [reflexivity|].
  cbn. rewrite Hq. cbn. f_equal. exact IH.
Qed.

(** The slot of the [n]-th question line, for [n] from 1 on. *)
Lemma slot_of_index (k : nat) :
  (Z.of_nat k < 2 ^ 32 - 1)%Z ->
  let i := minus_one (Fin (inject_Z (Z.of_nat (S k)))) in
  nonneg i = true /\ array_index i = Some k.
Proof.
  intros Hk. cbn zeta. unfold minus_one.
  assert (E : (inject_Z (Z.of_nat (S k)) - 1 == inject_Z (Z.of_nat k))%Q).
  { unfold Qeq, Qminus, Qplus, Qopp, inject_Z. cbn [Qnum Qden]. lia. }
  assert (F : Qfloor (inject_Z (Z.of_nat (S k)) - 1) = Z.of_nat k)
    by (rewrite E; apply Qfloor_Z).
  unfold nonneg, array_index. rewrite F.
  assert (N : Qle_bool 0 (inject_Z (Z.of_nat (S k)) - 1) = true).
  { apply Qle_bool_iff. rewrite E. unfold Qle, inject_Z. cbn [Qnum Qden]. lia. }
  assert (I : Qeq_bool (inject_Z (Z.of_nat (S k)) - 1) (inject_Z (Z.of_nat k)) = true)
    by (apply Qeq_bool_iff; exact E).
  rewrite N, I. split; [reflexivity|].
  replace (Z.of_nat k <? 2 ^ 32 - 1)%Z with true by (symmetry; apply Z.ltb_lt; exact Hk).
  cbn [andb]. now rewrite Nat2Z.id.
Qed.

Section Reading.

Variable JSON_parse : string -> option value.
Variable Number_of : value -> number.

(** The loop of the reader hands to its parser the candidates that the
    framing cuts from the buffer, in order, and leaves the rest. *)
Lemma drain_candidates (fuel : nat) :
  forall buf built,
    String.length buf <= fuel ->
    drain JSON_parse Number_of fuel buf built
    = Some (snd (Framer.drained buf),
            fold_left (fun built line => on_line JSON_parse Number_of line built) (Framer.candidates (fst (Framer.drained buf))) built).
Proof.
  induction fuel as [|fuel IH]; intros buf built Hlen.
  - destruct buf; [reflexivity | cbn in Hlen; lia].
  - cbn [drain].
    pose proof (SessionFacts.cut_line_drained buf) as Hc.
    pose proof (SessionFacts.cut_line_shorter buf) as Hs.
    destruct (Text.cut_line buf) as [[slice rest]|].
    + specialize (Hs slice rest eq_refl).
      rewrite IH by lia. rewrite Hc. cbn [fst snd].
      rewrite (FramerFacts.candidates_cons slice), fold_left_app. f_equal. f_equal.
      unfold Framer.candidates. cbn [map filter].
      now destruct (Text.is_empty (Text.trim slice)).
    + now rewrite Hc.
Qed.

Lemma read_candidates (chunks : list string) :
  forall buf built,
    read JSON_parse Number_of chunks buf built
    = Some (fold_left (fun built line => on_line JSON_parse Number_of line built) (fst (Framer.feed chunks buf)) built).
Proof.
  induction chunks as [|txt more IH]; intros buf built; [reflexivity|].
  cbn [read Framer.feed]. rewrite drain_candidates by apply le_n.
  destruct (Framer.drained (buf ++ txt)) as [slices rest]. cbn [fst snd].
  rewrite IH. destruct (Framer.feed more rest) as [later final]. cbn [fst].
  now rewrite fold_left_app.
Qed.

(** *** From the lines of the response to the messages *)

Lemma drained_line (w rest : string) :
  one_line w = true ->
  Framer.drained (w ++ String Text.nl rest)
  = (w :: fst (Framer.drained rest), snd (Framer.drained rest)).
Proof.
  induction w as [|c r IH]; intros H.
  - cbn [append]. now rewrite (FramerFacts.drained_nl Text.nl rest eq_refl).
  - cbn [one_line] in H. apply andb_true_iff in H. destruct H as [Hc Hr].
    apply negb_true_iff in Hc.
    change ((String c r ++ String Text.nl rest)%string)
      with (String c (r ++ String Text.nl rest)).
    rewrite (FramerFacts.drained_char _ _ Hc), (IH Hr). reflexivity.
Qed.

Lemma drained_body (ws : list string) :
  Forall (fun w => one_line w = true) ws ->
  Framer.drained (body_text ws) = (ws, EmptyString).
Proof.
  induction 1 as [|w more Hw _ IH]; [reflexivity|].
  cbn [body_text]. rewrite (drained_line _ _ Hw), IH. reflexivity.
Qed.

Lemma candidates_wire (ws : list string) :
  Forall (fun w => Text.trim w <> EmptyString) ws ->
  Framer.candidates ws = map Text.trim ws.
Proof.
  induction 1 as [|w more Hw _ IH]; [reflexivity|].
  cbn [map]. rewrite FramerFacts.candidates_cons, IH.
  unfold Framer.candidates at 1. cbn [map filter].
  destruct (Text.trim w); [congruence | reflexivity].
Qed.

(** A line that is no question line leaves [built] as it is. *)
Lemma on_message_other (msg : value) (kind : string) (built : array) :
  get "type" msg = VStr kind -> String.eqb kind "question" = false ->
  on_message Number_of msg built = built.
Proof. intros E H. unfold on_message. rewrite E. cbn [is_str]. now rewrite H. Qed.

(** Question lines numbered without a gap fill [built] without a hole,
    whatever else their messages hold. *)
Lemma build_numbered (evs : list event) (ws : list string) :
  Forall2 (carried JSON_parse) evs ws ->
  forall (k n : nat) (built : array),
    List.length built = k ->
    question_indices evs = map Z.of_nat (seq (S k) n) ->
    Forall (fun q => truthy q = true) (question_units evs) ->
    (Z.of_nat (k + n) < 2 ^ 32)%Z ->
    fold_left (fun built line => on_line JSON_parse Number_of line built)
      (map Text.trim ws) built
    = built ++ map Some (question_units evs).
Proof.
  induction 1 as [|e w evs ws (_ & _ & msg & Hp & Hr) _ IH]; intros k n built Hk Hi Ht Hb.
  - cbn. now rewrite app_nil_r.
  - cbn [map fold_left]. unfold on_line at 2. rewrite Hp.
    destruct e as [s|i q|c t| |]; cbn [reads question_indices question_units] in *;
      try (rewrite (on_message_other msg _ built Hr eq_refl); now apply (IH k n)).
    destruct Hr as (Ty & Ix & Qu).
    destruct n as [|n]; [discriminate Hi|]. cbn [seq map] in Hi.
    injection Hi as Hi1 Hi2. inversion Ht as [|x l Hq Ht']. subst x l.
    assert (E : on_message Number_of msg built = built ++ [Some q]).
    { unfold on_message. rewrite Ty, Qu, Ix.
      cbn [is_str String.eqb Ascii.eqb Bool.eqb andb to_number]. rewrite Hq. subst i.
      destruct (slot_of_index k) as [H1 H2]; [lia|]. cbn zeta in H1, H2.
      change (Z.pos (Pos.of_succ_nat k)) with (Z.of_nat (S k)).
      rewrite H1, H2, <- Hk. apply array_set_end. }
    rewrite E, (IH (S k) n); cbn [map].
    + now rewrite <- app_assoc.
    + rewrite length_app, Hk. cbn. lia.
    + exact Hi2.
    + exact Ht'.
    + lia.
Qed.

Lemma carried_lines (evs : list event) (ws : list string) :
  Forall2 (carried JSON_parse) evs ws ->
  Forall (fun w => one_line w = true) ws
  /\ Forall (fun w => Text.trim w <> EmptyString) ws.
Proof.
  induction 1 as [|e w evs ws (H1 & H2 & _) _ [IH1 IH2]]; split; constructor; assumption.
Qed.

(** The questions that the reader ends with, from the whole text of the
    body: the loop never runs out of fuel. *)
Lemma questions_whole (chunks : list string) :
  questions JSON_parse Number_of chunks
  = Some (compact
            (fold_left (fun built line => on_line JSON_parse Number_of line built)
               (Framer.candidates (fst (Framer.drained (Shape.concat chunks)))) [])).
Proof.
  unfold questions. rewrite read_candidates.
  now rewrite (FramerFacts.feed_whole chunks EmptyString eq_refl).
Qed.

Lemma one_line_drained (s : string) : one_line s = true -> Framer.drained s = ([], s).
Proof.
  induction s as [|c r IH]; [reflexivity|]. cbn [one_line]. intros H.
  apply andb_true_iff in H. destruct H as [Hc Hr]. apply negb_true_iff in Hc.
  now rewrite (FramerFacts.drained_char _ _ Hc), (IH Hr).
Qed.

Lemma rest_one_line (s : string) : one_line (snd (Framer.drained s)) = true.
Proof.
  induction s as [|c r IH]; [reflexivity|].
  destruct (Text.is_nl c) eqn:E.
  - now rewrite (FramerFacts.drained_nl _ _ E).
  - rewrite (FramerFacts.drained_char _ _ E).
    destruct (fst (Framer.drained r)); cbn [snd one_line]; [|exact IH].
    now rewrite E, IH.
Qed.

Lemma one_line_app (a b : string) : one_line (a ++ b) = one_line a && one_line b.
Proof.
  induction a as [|c r IH]; [reflexivity|]. cbn [append one_line].
  now rewrite IH, andb_assoc.
Qed.

Lemma concat_app (a b : list string) :
  Shape.concat (a ++ b) = (Shape.concat a ++ Shape.concat b)%string.
Proof.
  induction a as [|x r IH]; [reflexivity|]. cbn [app Shape.concat].
  now rewrite IH, FramerFacts.append_assoc.
Qed.

(** A tail without a line feed adds no slice. *)
Lemma drained_tail (s tail : string) :
  one_line tail = true ->
  fst (Framer.drained (s ++ tail)) = fst (Framer.drained s).
Proof.
  intros H. rewrite FramerFacts.drained_app. cbn [fst].
  rewrite (one_line_drained (snd (Framer.drained s) ++ tail)).
  - apply app_nil_r.
  - now rewrite one_line_app, rest_one_line, H.
Qed.

End Reading.

(** *** The units of a response *)

Lemma valid_object (q : value) : isValidQuestion q = true -> exists props, q = VObj props.
Proof.
  rewrite ValidatorFacts.isValidQuestion_guards, !andb_true_iff.
  intros [[[[[_ H] _] _] _] _].
  apply ValidatorFacts.trimmed_string_iff in H. now apply ValidatorFacts.stem_is_object.
Qed.

Lemma shown_truthy (a : tier * value) : isValidQuestion (snd a) = true -> truthy (shown a) = true.
Proof.
  intros H. destruct (valid_object _ H) as [props E]. destruct a as [t q]. cbn [snd] in E.
  subst q. unfold shown. cbn [fst snd]. now destruct t.
Qed.

Lemma run_units_truthy (JSON_parse : string -> option value) (upstream : model)
    (count : Q) (topic : string) :
  Forall (fun q => truthy q = true)
    (question_units (out (snd (run JSON_parse upstream count topic)))).
Proof.
  destruct (SessionFacts.run_wf JSON_parse upstream count topic) as [_ _ -> _ _].
  pose proof (EffortFacts.run_valid JSON_parse upstream count topic) as H.
  unfold all_valid in H. apply Forall_map.
  eapply Forall_impl; [|exact H]. intros a. apply shown_truthy.
Qed.

(** *** The guard of the page *)

Lemma every_answered (parsed_choices : value -> option nat) (answers : nat -> value)
    (qs : list value) :
  forall idx,
    Forall (fun q => truthy q = true /\ has_choices parsed_choices q = true) qs ->
    every_from parsed_choices answers idx qs
    = Some (forallb (fun i => truthy (answers i)) (seq idx (List.length qs))).
Proof.
  induction qs as [|q more IH]; intros idx H; [reflexivity|].
  inversion H as [|x l [Ht Hc] H']. subst x l.
  cbn [every_from List.length seq forallb]. unfold answered_or_skipped.
  rewrite Hc. cbn [negb orb].
  destruct q; try discriminate Ht;
    (destruct (truthy (answers idx)); cbn [andb]; [now apply IH | reflexivity]).
Qed.

(** A unit that passed the validator has its four options, as it was
    parsed and after the sanitizer. *)
Lemma shown_has_choices (parsed_choices : value -> option nat) (a : tier * value) :
  isValidQuestion (snd a) = true -> has_choices parsed_choices (shown a) = true.
Proof.
  intros Hv. destruct a as [t q]. cbn [snd] in Hv.
  pose proof Hv as Hg.
  rewrite ValidatorFacts.isValidQuestion_guards, !andb_true_iff in Hg.
  destruct Hg as [[[[_ Ho] _] _] _].
  apply ValidatorFacts.options_iff in Ho. destruct Ho as (items & Ei & Hl & _).
  destruct (valid_object q Hv) as [props ->].
  assert (Raw : has_choices parsed_choices (VObj props) = true)
    by (unfold has_choices; now rewrite Ei, Hl).
  assert (San : has_choices parsed_choices (sanitizeQuestion (VObj props)) = true).
  { unfold has_choices.
    rewrite (proj2 (EntryFacts.sanitizeQuestion_writes props)), Ei.
    cbn [clean_options]. now rewrite length_map, Hl. }
  unfold shown. cbn [fst snd]. now destruct t.
Qed.

Lemma run_units_answerable (JSON_parse : string -> option value) (upstream : model)
    (count : Q) (topic : string) (parsed_choices : value -> option nat) :
  Forall (fun q => truthy q = true /\ has_choices parsed_choices q = true)
    (question_units (out (snd (run JSON_parse upstream count topic)))).
Proof.
  destruct (SessionFacts.run_wf JSON_parse upstream count topic) as [_ _ -> _ _].
  pose proof (EffortFacts.run_valid JSON_parse upstream count topic) as H.
  unfold all_valid in H. apply Forall_map.
  eapply Forall_impl; [|exact H]. intros a Ha. split.
  - now apply shown_truthy.
  - now apply shown_has_choices.
Qed.

End ClientFacts.
(* ===================================================================== *)
(** ** More on the text helpers *)
(* ===================================================================== *)

Module HelperFacts.
Import Text Shape TextFacts.

Lemma remove_blank_length (s : string) :
  forall k p, String.length (remove_blank k p s) <= String.length s.
Proof.
  induction s as [|c r IH]; intros k p; [reflexivity|].
  cbn [remove_blank]. destruct k as [|k].
  - destruct (negb p && match_word blank (String c r)).
    + specialize (IH 4 true). cbn [String.length]. lia.
    + specialize (IH 0 (is_word c)). cbn [String.length]. lia.
  - specialize (IH k true). cbn [String.length]. lia.
Qed.

Lemma collapse_length (s : string) :
  forall b, String.length (collapse_spaces b s) <= String.length s.
Proof.
  induction s as [|c r IH]; intros b; [reflexivity|].
  cbn [collapse_spaces].
  destruct (is_space c); [destruct b; [|destruct (starts_space r)]|];
    cbn [String.length];
    try (specialize (IH true); lia); specialize (IH false); lia.
Qed.

Lemma trimStart_length (s : string) : String.length (trimStart s) <= String.length s.
Proof.
  induction s as [|c r IH]; [reflexivity|]. cbn [trimStart].
  destruct (is_space c); cbn [String.length]; lia.
Qed.

Lemma trimEnd_length (s : string) : String.length (trimEnd s) <= String.length s.
Proof.
  induction s as [|c r IH]; [reflexivity|]. rewrite trimEnd_cons.
  destruct (is_empty (trimEnd r) && is_space c); cbn [String.length]; lia.
Qed.

Lemma clean_length (s : string) : String.length (clean s) <= String.length s.
Proof.
  unfold clean, trim.
  pose proof (trimEnd_length (trimStart (collapse_spaces false (remove_blank 0 false s)))).
  pose proof (trimStart_length (collapse_spaces false (remove_blank 0 false s))).
  pose proof (collapse_length (remove_blank 0 false s) false).
  pose proof (remove_blank_length s 0 false). lia.
Qed.

Lemma clean_trimmed (s : string) : trim (clean s) = clean s.
Proof. unfold clean. apply trim_idem. Qed.

(** The texts that the cleaning leaves as they are. *)
Lemma clean_fixed (s : string) :
  clean s = s <-> quiet false s = true /\ tight s = true /\ trim s = s.
Proof.
  split.
  - intros E. rewrite <- E. repeat split; [apply clean_quiet | apply clean_tight|].
    apply clean_trimmed.
  - intros (Hq & Ht & Hs). unfold clean.
    now rewrite (remove_blank_fixed _ _ Hq), (collapse_fixed _ Ht).
Qed.

(** *** The fingerprint *)

Lemma lower_space (c : ascii) : is_space (lower_char c) = is_space c.
Proof. each_char c; reflexivity. Qed.

Lemma lower_lower (c : ascii) : lower_char (lower_char c) = lower_char c.
Proof. each_char c; reflexivity. Qed.

Lemma toLowerCase_idem (s : string) : toLowerCase (toLowerCase s) = toLowerCase s.
Proof.
  unfold toLowerCase. induction s as [|c r IH]; [reflexivity|].
  cbn [smap]. now rewrite lower_lower, IH.
Qed.

Lemma squeeze_lower (s : string) :
  forall b, squeeze_spaces b (toLowerCase s) = toLowerCase (squeeze_spaces b s).
Proof.
  unfold toLowerCase. induction s as [|c r IH]; intros b; [reflexivity|].
  cbn [smap squeeze_spaces]. rewrite lower_space.
  destruct (is_space c); [destruct b|]; cbn [smap]; now rewrite IH.
Qed.

Lemma squeeze_idem (s : string) :
  forall b b', b' = false \/ b = true ->
    squeeze_spaces b' (squeeze_spaces b s) = squeeze_spaces b s.
Proof.
  induction s as [|c r IH]; intros b b' H; [reflexivity|].
  cbn [squeeze_spaces]. destruct (is_space c) eqn:Hs.
  - destruct b.
    + apply IH. now right.
    + destruct H as [-> | H]; [|discriminate].
      cbn [squeeze_spaces].
      replace (is_space sp) with true by reflexivity.
      f_equal. apply IH. now right.
  - cbn [squeeze_spaces]. rewrite Hs. f_equal. apply IH. now left.
Qed.

Lemma take_length (n : nat) (s : string) : String.length (take n s) <= n.
Proof.
  revert s. induction n as [|n IH]; intros s; [reflexivity|].
  destruct s as [|c r]; cbn [take String.length]; [lia|]. specialize (IH r). lia.
Qed.

(** *** Code fences *)

Lemma eqb_length (a b : string) : String.length a <> String.length b -> String.eqb a b = false.
Proof. intros H. apply String.eqb_neq. intros E. now subst. Qed.

Lemma length_append (a b : string) :
  String.length (a ++ b) = String.length a + String.length b.
Proof. induction a as [|c r IH]; [reflexivity|]. cbn. now rewrite IH. Qed.

Lemma strip_fence_close_end (body : string) : strip_fence_close (body ++ fence) = body.
Proof.
  induction body as [|c r IH]; [reflexivity|].
  change ((String c r ++ fence)%string) with (String c (r ++ fence)).
  cbn [strip_fence_close]. rewrite eqb_length; [now rewrite IH|].
  cbn [String.length]. rewrite length_append. cbn. lia.
Qed.

End HelperFacts.
(* ===================================================================== *)
(** ** The cut of the stream into chunks *)
(* ===================================================================== *)

Module ChunkFacts.
Import Trace Lines.
Local Open Scope pipeline_scope.

Lemma steady_ret {A} (a : A) : steady (ret a).
Proof.
  intros st. exists (Returned a), st, []. intros pre. cbn. now rewrite app_nil_r.
Qed.

Lemma steady_bind {A B} (m : M A) (f : A -> M B) :
  steady m -> (forall a, steady (f a)) -> steady (bind m f).
Proof.
  intros Hm Hf st. destruct (Hm st) as (r & core & evs & E).
  destruct r as [a| |].
  - destruct (Hf a core) as (r' & core' & evs' & E').
    exists r', core', (evs ++ evs'). intros pre. unfold bind. rewrite E.
    now rewrite E', app_assoc.
  - exists Thrown, core, evs. intros pre. unfold bind. now rewrite E.
  - exists OutOfFuel, core, evs. intros pre. unfold bind. now rewrite E.
Qed.

Lemma steady_try_or {A} (d : A) (m : M A) : steady m -> steady (try_or d m).
Proof.
  intros Hm st. destruct (Hm st) as (r & core & evs & E).
  exists (match r with Thrown => Returned d | _ => r end), core, evs.
  intros pre. unfold try_or. rewrite E. now destruct r.
Qed.

Lemma steady_enqueue (e : event) : steady (enqueue e).
Proof. intros st. exists (Returned tt), st, [e]. reflexivity. Qed.

Lemma steady_same {A} (m : M A) :
  (forall st, exists r core, forall pre, m (with_out st pre) = (r, with_out core pre)) ->
  steady m.
Proof.
  intros H st. destruct (H st) as (r & core & E). exists r, core, [].
  intros pre. now rewrite app_nil_r.
Qed.

Section Chunks.

Variable JSON_parse : string -> option value.
Variable upstream : model.
Variable count : Q.
Variable topic : string.

Lemma steady_call : steady (generateContent upstream).
Proof.
  apply steady_same. intros st. unfold generateContent. cbn [calls with_out].
  destruct (generate upstream (calls st)) as [|text];
    [now exists Thrown, (called st) | now exists (Returned text), (called st)].
Qed.

Lemma steady_throw {A} : steady (@throw A).
Proof. apply steady_same. intros st. now exists Thrown, st. Qed.

Lemma steady_out_of_fuel {A} : steady (@out_of_fuel A).
Proof. apply steady_same. intros st. now exists OutOfFuel, st. Qed.

Lemma steady_read : steady read_emitted.
Proof. apply steady_same. intros st. now exists (Returned (emitted st)), st. Qed.

Lemma steady_bump : steady bump_emitted.
Proof.
  apply steady_same. intros st.
  now exists (Returned (emitted st + 1)%Z), (snd (bump_emitted st)).
Qed.

Lemma steady_record (t : tier) (q : value) : steady (record_accepted t q).
Proof.
  apply steady_same. intros st. now exists (Returned tt), (snd (record_accepted t q st)).
Qed.

Lemma steady_seen (norm : string) : steady (seen norm).
Proof.
  apply steady_same. intros st.
  now exists (Returned (existsb (String.eqb norm) (existingQuestions st))), st.
Qed.

Lemma steady_remember (norm : string) : steady (remember norm).
Proof.
  apply steady_same. intros st. now exists (Returned tt), (snd (remember norm st)).
Qed.

Create HintDb chunks.
#[local] Hint Resolve steady_bind steady_try_or steady_enqueue steady_call steady_read
  steady_bump steady_record steady_seen steady_remember : chunks.
#[local] Hint Extern 1 (steady (ret _)) => apply steady_ret : chunks.
#[local] Hint Extern 1 (steady throw) => apply steady_throw : chunks.
#[local] Hint Extern 1 (steady out_of_fuel) => apply steady_out_of_fuel : chunks.
#[local] Hint Extern 2 (steady (if ?b then _ else _)) => destruct b : chunks.
#[local] Hint Extern 2 (steady (match ?x with Some _ => _ | None => _ end)) =>
  destruct x : chunks.

Lemma steady_accept (sanitize : bool) (t : tier) (obj : value) :
  steady (accept count sanitize t obj).
Proof. unfold accept, emit_question. auto 10 with chunks. Qed.

#[local] Hint Resolve steady_accept : chunks.

Lemma steady_try_line (sanitize : bool) (t : tier) (d1 d2 : option string) (line : string) :
  steady (try_line JSON_parse count sanitize t d1 d2 line).
Proof. unfold try_line, diag. auto 10 with chunks. Qed.

#[local] Hint Resolve steady_try_line : chunks.

Lemma steady_flush_lines (lines : list string) : steady (flush_lines JSON_parse count lines).
Proof. induction lines as [|line more IH]; cbn [flush_lines]; auto 10 with chunks. Qed.

Lemma steady_topup_lines (sanitize : bool) (t : tier) (d1 d2 : option string)
    (lines : list string) :
  steady (topup_lines JSON_parse count sanitize t d1 d2 lines).
Proof. induction lines as [|line more IH]; cbn [topup_lines]; auto 10 with chunks. Qed.

#[local] Hint Resolve steady_flush_lines steady_topup_lines : chunks.

Lemma steady_flush (buffer : string) : steady (flush JSON_parse count buffer).
Proof. unfold flush. auto 10 with chunks. Qed.

Lemma steady_bulk_topup : steady (bulk_topup JSON_parse upstream count).
Proof. unfold bulk_topup, second_round, third_round. auto 30 with chunks. Qed.

Lemma steady_try_candidate (t : tier) (candidate : option value) :
  steady (try_candidate count t candidate).
Proof. unfold try_candidate. auto 12 with chunks. Qed.

#[local] Hint Resolve steady_try_candidate : chunks.

Lemma steady_attempt : steady (attempt JSON_parse upstream count).
Proof. unfold attempt. auto 12 with chunks. Qed.

Lemma steady_fill : steady (fill count topic).
Proof. unfold fill. auto 12 with chunks. Qed.

#[local] Hint Resolve steady_attempt steady_fill : chunks.

Lemma steady_single_loop (fuel : nat) :
  steady (single_loop JSON_parse upstream count topic fuel).
Proof. induction fuel as [|fuel IH]; cbn [single_loop]; auto 12 with chunks. Qed.

#[local] Hint Resolve steady_single_loop steady_flush steady_bulk_topup : chunks.

Lemma steady_single_recovery : steady (single_recovery JSON_parse upstream count topic).
Proof. unfold single_recovery. auto 12 with chunks. Qed.

#[local] Hint Resolve steady_single_recovery : chunks.

(** What follows the primary stream, from the buffer it left. *)
Lemma steady_after_stream (buffer : string) :
  steady (flush JSON_parse count buffer ;;;
          bulk_topup JSON_parse upstream count ;;;
          single_recovery JSON_parse upstream count topic ;;;
          enqueue Done).
Proof. auto 12 with chunks. Qed.

Lemma steady_handle (cands : list string) : steady (handle_all JSON_parse count cands).
Proof. induction cands as [|line more IH]; cbn [handle_all]; auto with chunks. Qed.

Lemma handle_returns (cands : list string) :
  forall st, fst (handle_all JSON_parse count cands st) = Returned tt.
Proof.
  induction cands as [|line more IH]; intros st; [reflexivity|].
  cbn [handle_all]. unfold bind.
  destruct (SessionFacts.try_line_accepted JSON_parse count true Primary (Some "invalid")
              None line st) as (b & st1 & E1 & _).
  rewrite E1. apply IH.
Qed.

Lemma handle_app (a b : list string) (st : session) :
  handle_all JSON_parse count (a ++ b) st
  = handle_all JSON_parse count b (snd (handle_all JSON_parse count a st)).
Proof.
  revert st. induction a as [|line more IH]; intros st; [reflexivity|].
  cbn [app handle_all]. unfold bind.
  destruct (SessionFacts.try_line_accepted JSON_parse count true Primary (Some "invalid")
              None line st) as (b' & st1 & E1 & _).
  rewrite E1. apply IH.
Qed.

(** The framing loop of one chunk is the primary tier on the candidates
    of the buffer. *)
Lemma drain_handle (fuel : nat) :
  forall buffer st,
    String.length buffer <= fuel ->
    drain JSON_parse count fuel buffer st
    = (Returned (snd (Framer.drained buffer)),
       snd (handle_all JSON_parse count
              (Framer.candidates (fst (Framer.drained buffer))) st)).
Proof.
  induction fuel as [|fuel IH]; intros buffer st Hlen.
  - destruct buffer; [reflexivity | cbn in Hlen; lia].
  - cbn [drain].
    pose proof (SessionFacts.cut_line_drained buffer) as Hc.
    pose proof (SessionFacts.cut_line_shorter buffer) as Hs.
    destruct (Text.cut_line buffer) as [[slice rest]|]; [|now rewrite Hc].
    specialize (Hs slice rest eq_refl). rewrite Hc. cbn [fst snd].
    rewrite (FramerFacts.candidates_cons slice), handle_app.
    unfold Framer.candidates at 2. cbn [map filter]. unfold bind.
    destruct (Text.is_empty (Text.trim slice)); cbn [negb handle_all ret snd].
    + apply IH. lia.
    + unfold bind.
      destruct (SessionFacts.try_line_accepted JSON_parse count true Primary
                  (Some "invalid") None (Text.trim slice) st) as (b & st1 & E1 & _).
      rewrite E1. cbn [snd]. apply IH. lia.
Qed.

(** The primary stream is the primary tier on the candidates of all
    chunks, with a marker for each chunk in between. *)
Lemma consume_handle (chunks : list string) :
  forall buffer st,
    exists (core : session) (evs evs' : list event),
      (forall pre,
          handle_all JSON_parse count (fst (Framer.feed chunks buffer)) (with_out st pre)
          = (Returned tt, with_out core (pre ++ evs)))
      /\ (forall pre,
            consume JSON_parse count (map Says chunks) buffer (with_out st pre)
            = (Returned (snd (Framer.feed chunks buffer)), with_out core (pre ++ evs')))
      /\ filter not_chunk evs' = filter not_chunk evs.
Proof.
  induction chunks as [|txt more IH]; intros buffer st.
  - exists st, [], []. repeat split; intros pre; cbn; now rewrite app_nil_r.
  - cbn [Framer.feed map consume].
    destruct (Framer.drained (buffer ++ txt)) as [slices rest] eqn:Ed.
    destruct (steady_handle (Framer.candidates slices) st) as (r1 & core1 & evs1 & E1).
    assert (R1 : r1 = Returned tt).
    { pose proof (handle_returns (Framer.candidates slices) (with_out st [])) as H.
      rewrite E1 in H. exact H. }
    subst r1.
    destruct (IH rest core1) as (core & evs2 & evs2' & H1 & H2 & H3).
    destruct (Framer.feed more rest) as [later final]. cbn [fst snd] in *.
    exists core, (evs1 ++ evs2), (Server "chunk" :: evs1 ++ evs2'). split; [|split].
    + intros pre. rewrite handle_app, E1. cbn [snd]. now rewrite H1, app_assoc.
    + intros pre. unfold bind at 1. cbn [enqueue with_out emitted existingQuestions calls
                                           out accepted].
      change {| emitted := emitted st; existingQuestions := existingQuestions st;
                calls := calls st; out := pre ++ [Server "chunk"];
                accepted := accepted st |}
        with (with_out st (pre ++ [Server "chunk"])).
      unfold bind. rewrite drain_handle by apply le_n.
      rewrite Ed. cbn [fst snd]. rewrite E1. cbn [snd]. rewrite H2.
      f_equal. f_equal. rewrite <- !app_assoc. reflexivity.
    + cbn [filter not_chunk String.eqb Ascii.eqb Bool.eqb negb].
      now rewrite !filter_app, H3.
Qed.

(** Two cuts of the same text: the sessions end alike and write the
    same lines, the markers of the chunks apart. *)
Lemma streaming_cut (c1 c2 : list string) (st : session) (pre : list event) :
  Shape.concat c1 = Shape.concat c2 ->
  exists (r : outcome unit) (core : session) (evs1 evs2 : list event),
    streaming JSON_parse upstream count topic (map Says c1) (with_out st pre)
    = (r, with_out core (pre ++ evs1))
    /\ streaming JSON_parse upstream count topic (map Says c2) (with_out st pre)
       = (r, with_out core (pre ++ evs2))
    /\ filter not_chunk evs1 = filter not_chunk evs2.
Proof.
  intros Hc.
  destruct (consume_handle c1 EmptyString st) as (core1 & evs1 & evs1' & A1 & B1 & F1).
  destruct (consume_handle c2 EmptyString st) as (core2 & evs2 & evs2' & A2 & B2 & F2).
  rewrite (FramerFacts.feed_whole c1 EmptyString eq_refl) in A1, B1.
  rewrite (FramerFacts.feed_whole c2 EmptyString eq_refl) in A2, B2.
  cbn [fst snd append] in A1, B1, A2, B2. rewrite Hc in A1, B1.
  assert (E : with_out core1 evs1 = with_out core2 evs2).
  { specialize (A1 []). specialize (A2 []). cbn [app] in A1, A2. congruence. }
  assert (Ee : evs1 = evs2) by (now injection E).
  assert (Ec : forall o, with_out core2 o = with_out core1 o).
  { intros o. injection E as E1 E2 E3 E4 E5. unfold with_out. congruence. }
  destruct (steady_after_stream (snd (Framer.drained (Shape.concat c2))) core1)
    as (r & coreF & evsF & EF).
  exists r, coreF, (Server "stream-open" :: evs1' ++ evsF),
    (Server "stream-open" :: evs2' ++ evsF).
  unfold streaming. split; [|split].
  - rewrite (BranchFacts.bind_eq (enqueue (Server "stream-open")) _ (with_out st pre)
               (with_out st (pre ++ [Server "stream-open"])) tt eq_refl).
    rewrite (BranchFacts.bind_eq _ _ _ _ _ (B1 _)), EF. f_equal. f_equal.
    rewrite <- !app_assoc. reflexivity.
  - rewrite (BranchFacts.bind_eq (enqueue (Server "stream-open")) _ (with_out st pre)
               (with_out st (pre ++ [Server "stream-open"])) tt eq_refl).
    rewrite (BranchFacts.bind_eq _ _ _ _ _ (B2 _)), Ec, EF. f_equal. f_equal.
    rewrite <- !app_assoc. reflexivity.
  - cbn [filter not_chunk String.eqb Ascii.eqb Bool.eqb negb].
    rewrite !filter_app, F1, F2, Ee. reflexivity.
Qed.

End Chunks.

Lemma units_not_chunk (evs : list event) :
  question_units (filter not_chunk evs) = question_units evs.
Proof.
  induction evs as [|e more IH]; [reflexivity|].
  destruct e as [s|i q|c t| |]; cbn [filter not_chunk question_units]; try (now rewrite IH).
  destruct (negb (String.eqb s "chunk")); cbn [question_units]; exact IH.
Qed.

(** The whole session under two cuts of the same text. *)
Lemma run_cut (JSON_parse : string -> option value) (answers : nat -> reply) (count : Q)
    (topic : string) (c1 c2 : list string) :
  Shape.concat c1 = Shape.concat c2 ->
  let r1 := run JSON_parse (streams c1 answers) count topic in
  let r2 := run JSON_parse (streams c2 answers) count topic in
  fst r1 = fst r2
  /\ filter not_chunk (out (snd r1)) = filter not_chunk (out (snd r2))
  /\ calls (snd r1) = calls (snd r2).
Proof.
  intros Hc. cbn zeta. unfold run. rewrite !BranchFacts.start_branch.
  cbn [open_stream streams].
  change (streaming JSON_parse (streams c2 answers) count topic)
    with (streaming JSON_parse (streams c1 answers) count topic).
  destruct (streaming_cut JSON_parse (streams c1 answers) count topic c1 c2 initial
              [Server "received"; Server "prompt-built"] Hc)
    as (r & core & evs1 & evs2 & E1 & E2 & F).
  change (snd (enqueue (Server "prompt-built") (snd (enqueue (Server "received") initial))))
    with (with_out initial [Server "received"; Server "prompt-built"]).
  rewrite E1, E2.
  destruct r as [[]| |]; cbn [fst snd out calls with_out enqueue];
    (split; [reflexivity|]); (split; [|reflexivity]);
    rewrite ?filter_app, F; reflexivity.
Qed.

End ChunkFacts.
(* ===================================================================== *)
(** ** What a session takes from its stream, and the filler *)
(* ===================================================================== *)

Module StreamFacts.
Import Trace Lines.
Local Open Scope pipeline_scope.

Lemma adds_same (ok : tier -> bool) {A} (m : M A) :
  (forall st, accepted (snd (m st)) = accepted st) -> adds ok m.
Proof. intros H st. exists []. now rewrite H, app_nil_r. Qed.

Lemma adds_bind (ok : tier -> bool) {A B} (m : M A) (f : A -> M B) :
  adds ok m -> (forall a, adds ok (f a)) -> adds ok (bind m f).
Proof.
  intros Hm Hf st. unfold bind. destruct (Hm st) as (l1 & H1 & K1).
  destruct (m st) as [[a| |] st1]; cbn [snd] in *; try (now exists l1).
  destruct (Hf a st1) as (l2 & H2 & K2). exists (l1 ++ l2).
  split; [now rewrite H2, H1, app_assoc|]. now rewrite forallb_app, K1, K2.
Qed.

Lemma adds_try_or (ok : tier -> bool) {A} (d : A) (m : M A) :
  adds ok m -> adds ok (try_or d m).
Proof.
  intros Hm st. unfold try_or. destruct (Hm st) as (l & H & K).
  destruct (m st) as [[a| |] st1]; now exists l.
Qed.

Section Stream.

Variable JSON_parse : string -> option value.
Variable upstream : model.
Variable count : Q.
Variable topic : string.
Variable ok : tier -> bool.

Lemma adds_call : adds ok (generateContent upstream).
Proof.
  apply adds_same. intros st. unfold generateContent.
  now destruct (generate upstream (calls st)).
Qed.

Lemma adds_accept (sanitize : bool) (t : tier) (obj : value) :
  ok t = true -> adds ok (accept count sanitize t obj).
Proof.
  intros Ht st. exists [(t, obj)]. split; [reflexivity|]. cbn. now rewrite Ht.
Qed.

Create HintDb tiers.
#[local] Hint Resolve adds_bind adds_try_or adds_call adds_accept : tiers.
#[local] Hint Extern 1 (adds _ (ret _)) => (apply adds_same; reflexivity) : tiers.
#[local] Hint Extern 1 (adds _ throw) => (apply adds_same; reflexivity) : tiers.
#[local] Hint Extern 1 (adds _ out_of_fuel) => (apply adds_same; reflexivity) : tiers.
#[local] Hint Extern 1 (adds _ read_emitted) => (apply adds_same; reflexivity) : tiers.
#[local] Hint Extern 1 (adds _ bump_emitted) => (apply adds_same; reflexivity) : tiers.
#[local] Hint Extern 1 (adds _ (seen _)) => (apply adds_same; reflexivity) : tiers.
#[local] Hint Extern 1 (adds _ (remember _)) => (apply adds_same; reflexivity) : tiers.
#[local] Hint Extern 1 (adds _ (enqueue _)) => (apply adds_same; reflexivity) : tiers.
#[local] Hint Extern 2 (adds _ (if ?b then _ else _)) => destruct b : tiers.
#[local] Hint Extern 2 (adds _ (match ?x with Some _ => _ | None => _ end)) =>
  destruct x : tiers.

Lemma adds_try_line (sanitize : bool) (t : tier) (d1 d2 : option string) (line : string) :
  ok t = true -> adds ok (try_line JSON_parse count sanitize t d1 d2 line).
Proof. intros Ht. unfold try_line, diag. auto 10 with tiers. Qed.

Lemma adds_topup_lines (sanitize : bool) (t : tier) (d1 d2 : option string)
    (lines : list string) :
  ok t = true -> adds ok (topup_lines JSON_parse count sanitize t d1 d2 lines).
Proof.
  intros Ht. pose proof (fun l => adds_try_line sanitize t d1 d2 l Ht) as H.
  induction lines as [|line more IH]; cbn [topup_lines]; auto 10 with tiers.
Qed.

Lemma adds_bulk_topup :
  (forall n, ok (Bulk n) = true) -> adds ok (bulk_topup JSON_parse upstream count).
Proof.
  intros Hb.
  pose proof (fun d1 d2 n l => adds_topup_lines true (Bulk n) d1 d2 l (Hb n)) as H.
  unfold bulk_topup, second_round, third_round. auto 30 with tiers.
Qed.

Lemma adds_try_candidate (t : tier) (candidate : option value) :
  ok t = true -> adds ok (try_candidate count t candidate).
Proof.
  intros Ht. pose proof (fun c => adds_accept true t c Ht) as H.
  unfold try_candidate. auto 12 with tiers.
Qed.

Lemma adds_fill : ok Filler = true -> adds ok (fill count topic).
Proof.
  intros Hf st. unfold fill, bind, read_emitted.
  destruct (short_of count (emitted st)).
  - eexists [_]. split; [reflexivity|]. cbn. now rewrite Hf.
  - exists []. split; [now rewrite app_nil_r | reflexivity].
Qed.

Lemma adds_single_recovery :
  ok Single = true -> ok Retry = true -> ok Filler = true ->
  adds ok (single_recovery JSON_parse upstream count topic).
Proof.
  intros H1 H2 H3.
  pose proof (fun c => adds_try_candidate Single c H1) as K1.
  pose proof (fun c => adds_try_candidate Retry c H2) as K2.
  pose proof (adds_fill H3) as K3.
  assert (L : forall fuel, adds ok (single_loop JSON_parse upstream count topic fuel)).
  { induction fuel as [|fuel IH]; cbn [single_loop]; unfold attempt; auto 14 with tiers. }
  unfold single_recovery. auto 10 with tiers.
Qed.

End Stream.

Section Taken.

Variable JSON_parse : string -> option value.
Variable upstream : model.
Variable count : Q.
Variable topic : string.

Lemma adds_after_stream :
  adds after_stream
    (bulk_topup JSON_parse upstream count ;;;
     single_recovery JSON_parse upstream count topic ;;;
     enqueue Done).
Proof.
  apply adds_bind; [now apply adds_bulk_topup|]. intros _.
  apply adds_bind; [now apply adds_single_recovery|]. intros _.
  apply adds_same. reflexivity.
Qed.

(** The loop of the flush accepts the valid lines up to the one that
    meets the target, and none when the target is met already. *)
Lemma flush_lines_exact (lines : list string) :
  forall st,
    let taken := firstn (Z.to_nat (Qceiling count - emitted st))
                   (valid_units JSON_parse lines) in
    exists st',
      flush_lines JSON_parse count lines st = (Returned tt, st')
      /\ accepted st' = accepted st ++ map (pair Trailing) taken
      /\ emitted st' = (emitted st + Z.of_nat (List.length taken))%Z
      /\ calls st' = calls st.
Proof.
  induction lines as [|line more IH]; intros st; cbn zeta.
  - exists st. cbn. rewrite firstn_nil. cbn. rewrite app_nil_r. repeat split. lia.
  - cbn [flush_lines]. unfold bind at 1. unfold read_emitted.
    destruct (short_of count (emitted st)) eqn:Es.
    + apply (SessionFacts.short_of_ceiling count) in Es. unfold bind.
      destruct (BranchFacts.try_line_full JSON_parse count true Trailing
                  (Some "invalid-trailing") (Some "parse-error-trailing") line st)
        as (st1 & E1 & A1 & M1 & C1).
      rewrite E1, (BranchFacts.units_cons JSON_parse line more).
      destruct (IH st1) as (st' & E' & A' & M' & C'). cbn zeta in *.
      destruct (BranchFacts.units_single JSON_parse line) as [Hu|[obj Hu]];
        rewrite Hu in *; cbn [app] in *.
      * cbn in A1, M1. rewrite app_nil_r in A1. rewrite Z.add_0_r in M1.
        rewrite M1 in *. exists st'. split; [exact E'|].
        rewrite A', A1, M', C', C1. repeat split.
      * cbn in A1, M1.
        replace (Z.to_nat (Qceiling count - emitted st))
          with (S (Z.to_nat (Qceiling count - emitted st1))) by lia.
        cbn [firstn map List.length].
        exists st'. split; [exact E'|].
        rewrite A', A1, M', M1, C', C1, <- app_assoc. repeat split. lia.
    + assert (Hge : ~ (emitted st < Qceiling count)%Z).
      { intros H. apply (SessionFacts.short_of_ceiling count) in H. congruence. }
      replace (Z.to_nat (Qceiling count - emitted st)) with 0 by lia.
      exists st. cbn. rewrite app_nil_r. repeat split. lia.
Qed.

(** The flush, with its two guards. *)
Lemma flush_exact (buffer : string) (st : session) :
  let taken := firstn (Z.to_nat (Qceiling count - emitted st))
                 (valid_units JSON_parse (Text.nonempty_lines buffer)) in
  exists st',
    flush JSON_parse count buffer st = (Returned tt, st')
    /\ accepted st' = accepted st ++ map (pair Trailing) taken
    /\ emitted st' = (emitted st + Z.of_nat (List.length taken))%Z
    /\ calls st' = calls st.
Proof.
  cbn zeta. unfold flush, bind, read_emitted.
  destruct (0 <? String.length (Text.trim buffer))%nat eqn:Eb; cbn [andb].
  - destruct (short_of count (emitted st)) eqn:Es; [apply flush_lines_exact|].
    assert (Hge : ~ (emitted st < Qceiling count)%Z).
    { intros H. apply (SessionFacts.short_of_ceiling count) in H. congruence. }
    replace (Z.to_nat (Qceiling count - emitted st)) with 0 by lia.
    exists st. cbn. rewrite app_nil_r. repeat split. lia.
  - apply Nat.ltb_ge in Eb.
    rewrite (FramerFacts.blank_no_lines buffer)
      by (destruct (Text.trim buffer); [reflexivity | cbn in Eb; lia]).
    exists st. cbn. rewrite firstn_nil. cbn. rewrite app_nil_r. repeat split. lia.
Qed.

(** What a session takes from a stream that does not fail: every valid
    delimited line, then the valid lines of the remainder up to the target;
    whatever else it accepts comes from the later tiers. *)
Lemma streaming_taken (chunks : list string) (st : session) :
  wf st ->
  let v1 := valid_units JSON_parse (fst (Framer.feed chunks EmptyString)) in
  let v2 := valid_units JSON_parse
              (Text.nonempty_lines (snd (Framer.feed chunks EmptyString))) in
  exists more,
    accepted (snd (streaming JSON_parse upstream count topic (map Says chunks) st))
    = accepted st
      ++ map (pair Primary) v1
      ++ map (pair Trailing)
           (firstn (Z.to_nat (Qceiling count - (emitted st + Z.of_nat (List.length v1)))) v2)
      ++ more
    /\ forallb (fun a => after_stream (fst a)) more = true.
Proof.
  intros W v1 v2. unfold streaming.
  rewrite (BranchFacts.bind_eq (enqueue (Server "stream-open")) _ st _ tt eq_refl).
  set (s0 := snd (enqueue (Server "stream-open") st)).
  destruct (SessionFacts.consume_accepted JSON_parse count chunks EmptyString s0)
    as (st1 & E1 & A1).
  assert (W1 : wf (snd (consume JSON_parse count (map Says chunks) EmptyString s0))).
  { apply SessionFacts.preserves_consume.
    now apply (SessionFacts.preserves_enqueue (Server "stream-open") eq_refl). }
  rewrite E1 in W1. cbn [snd] in W1. rewrite (BranchFacts.bind_eq _ _ _ _ _ E1).
  cbn [accepted s0 enqueue snd] in A1. fold v1 in A1.
  assert (M1 : emitted st1 = (emitted st + Z.of_nat (List.length v1))%Z).
  { destruct W1 as [_ W1 _ _ _]. destruct W as [_ W _ _ _].
    rewrite W1, A1, length_app, length_map, W. lia. }
  destruct (flush_exact (snd (Framer.feed chunks EmptyString)) st1)
    as (st2 & E2 & A2 & _ & _).
  cbn zeta in A2. fold v2 in A2. rewrite M1 in A2.
  rewrite (BranchFacts.bind_eq _ _ _ _ _ E2).
  destruct (adds_after_stream st2) as (more & Am & Km).
  exists more. split; [|exact Km].
  rewrite Am, A2, A1, <- !app_assoc. reflexivity.
Qed.

Lemma run_stream_taken (chunks : list string) :
  open_stream upstream = Stream (map Says chunks) ->
  let v1 := valid_units JSON_parse (fst (Framer.feed chunks EmptyString)) in
  let v2 := valid_units JSON_parse
              (Text.nonempty_lines (snd (Framer.feed chunks EmptyString))) in
  exists more,
    accepted (snd (run JSON_parse upstream count topic))
    = map (pair Primary) v1
      ++ map (pair Trailing)
           (firstn (Z.to_nat (Qceiling count - Z.of_nat (List.length v1))) v2)
      ++ more
    /\ forallb (fun a => after_stream (fst a)) more = true.
Proof.
  intros Ho v1 v2. unfold run. rewrite BranchFacts.start_branch, Ho.
  match goal with |- context [streaming _ _ _ _ _ ?s] =>
    destruct (streaming_taken chunks s) as (more & A & K) end.
  { apply (SessionFacts.preserves_enqueue (Server "prompt-built") eq_refl).
    apply (SessionFacts.preserves_enqueue (Server "received") eq_refl).
    exact SessionFacts.wf_initial. }
  cbn zeta in A. cbn [accepted emitted enqueue snd initial app] in A.
  rewrite Z.add_0_l in A. fold v1 v2 in A.
  exists more. split; [|exact K].
  destruct (streaming JSON_parse upstream count topic (map Says chunks) _) as [[[]| |] st'];
    exact A.
Qed.

(** *** The filler *)

(** A turn of the single-item loop whose call throws ends with the filler
    in its slot; so a tier all of whose calls throw fills every missing
    slot with the filler. *)
Lemma single_loop_fills (fuel : nat) :
  forall st,
    fuel = Z.to_nat (Qceiling count - emitted st) ->
    (forall n, calls st <= n -> generate upstream n = Throws) ->
    exists st',
      single_loop JSON_parse upstream count topic fuel st = (Returned tt, st')
      /\ accepted st' = accepted st ++ fillers topic (emitted st) fuel
      /\ emitted st' = (emitted st + Z.of_nat fuel)%Z
      /\ calls st' = calls st + fuel
      /\ existingQuestions st' = existingQuestions st.
Proof.
  induction fuel as [|fuel IH]; intros st Hf Ht.
  - cbn [single_loop]. unfold bind, read_emitted.
    rewrite (BranchFacts.not_short count) by lia.
    exists st. cbn. rewrite app_nil_r. repeat split; lia.
  - cbn [single_loop]. unfold bind at 1. unfold read_emitted.
    assert (Es : short_of count (emitted st) = true)
      by (apply (SessionFacts.short_of_ceiling count); lia).
    rewrite Es.
    assert (Ea : attempt JSON_parse upstream count st = (Returned false, called st)).
    { unfold attempt, try_or, bind, generateContent. now rewrite (Ht (calls st) (le_n _)). }
    rewrite (BranchFacts.bind_eq _ _ _ _ _ Ea).
    assert (Efill : fill count topic (called st)
                    = (Returned tt,
                       snd (enqueue (Progress (emitted st + 1) count)
                              (snd (enqueue (Question (emitted st + 1)
                                               (sanitizeQuestion
                                                  (synthetic (emitted st + 1) topic)))
                                      (snd (record_accepted Filler
                                              (synthetic (emitted st + 1) topic)
                                              (snd (bump_emitted (called st)))))))))).
    { unfold fill, bind, read_emitted. cbn [emitted called]. now rewrite Es. }
    rewrite (BranchFacts.bind_eq _ _ _ _ _ Efill).
    match goal with |- context [single_loop _ _ _ _ fuel ?s] =>
      destruct (IH s) as (st' & E' & A' & M' & C' & X') end.
    { cbn. lia. }
    { intros n Hn. apply Ht. cbn in Hn. lia. }
    cbn [accepted emitted calls existingQuestions enqueue record_accepted bump_emitted
           called snd] in A', M', C', X'.
    exists st'. split; [exact E'|]. cbn [fillers].
    rewrite A', M', C', X', <- app_assoc. repeat split; lia.
Qed.

Lemma single_recovery_fills (st : session) :
  (forall n, calls st <= n -> generate upstream n = Throws) ->
  let missing := Z.to_nat (Qceiling count - emitted st) in
  exists st',
    single_recovery JSON_parse upstream count topic st = (Returned tt, st')
    /\ accepted st' = accepted st ++ fillers topic (emitted st) missing
    /\ emitted st' = (emitted st + Z.of_nat missing)%Z
    /\ calls st' = calls st + missing.
Proof.
  intros Ht missing. unfold single_recovery, bind, read_emitted.
  destruct (short_of count (emitted st)) eqn:Es.
  - cbn [enqueue].
    match goal with |- context [single_loop _ _ _ _ ?f ?s] =>
      destruct (single_loop_fills f s) as (st' & E' & A' & M' & C' & _) end.
    { reflexivity. }
    { exact Ht. }
    exists st'. split; [exact E'|]. split; [exact A'|]. split; [exact M' | exact C'].
  - assert (Hge : ~ (emitted st < Qceiling count)%Z).
    { intros H. apply (SessionFacts.short_of_ceiling count) in H. congruence. }
    subst missing. replace (Z.to_nat (Qceiling count - emitted st)) with 0 by lia.
    exists st. cbn. rewrite app_nil_r. repeat split; lia.
Qed.

End Taken.

End StreamFacts.
(* ===================================================================== *)
(** * Further properties of the two routes and of the reader *)
(* ===================================================================== *)

Import Trace Lines.

(** X1. In every response of the streaming route the question lines carry
    the indices 1, 2, ... in order, one per question line, on every branch
    and however the session ends. *)
Theorem question_lines_numbered :
  forall (JSON_parse : string -> option value) (upstream : model) (count : Q)
         (topic : string),
    let lines := out (snd (run JSON_parse upstream count topic)) in
    question_indices lines = numbered (List.length (question_units lines)).
Proof.
  intros JSON_parse upstream count topic lines.
  destruct (SessionFacts.run_wf JSON_parse upstream count topic) as [H1 _ H3 _ _].
  fold lines in H1, H3. now rewrite H1, H3, length_map.
Qed.

(** X2. Every question line is followed at once by a progress line whose
    [completed] is the index of the question and whose [total] is the
    effective count, and a progress line stands nowhere else. *)
Theorem question_line_followed_by_progress :
  forall (JSON_parse : string -> option value) (upstream : model) (count : Q)
         (topic : string),
    paired count (out (snd (run JSON_parse upstream count topic))).
Proof. exact InvariantFacts.run_paired. Qed.

(** X3. The answer of the streaming route.  A request that has a key and
    a body, whose section and topic have a string form, and one of the two
    blank, gets the status 400.  Every other request that fails a check or
    whose prompt cannot be built (no key, a body that cannot be read, a
    section, topic or difficulty without a string form) gets the status
    500.  No line is written for them.  A request that passes gets the
    line stream: the markers "received" and "prompt-built", then lines
    that are not terminal, then exactly one terminal line, which is the
    "done" line when the session returned and the "error" line when it
    threw. *)
Theorem stream_response_layout :
  forall (JSON_parse : string -> option value) (String_of : value -> option string)
         (req : request) (upstream : model),
    match POST_stream JSON_parse String_of req upstream with
    | Reject s =>
        Shape.well_formed String_of req = false
        /\ s = (if Shape.lacks_field String_of req then 400 else 500)
    | Lines ended lines =>
        Shape.well_formed String_of req = true
        /\ Shape.lacks_field String_of req = false
        /\ ended <> OutOfFuel
        /\ exists middle,
             open_ended middle
             /\ lines
                = Server "received" :: Server "prompt-built" :: middle
                  ++ [match ended with Returned _ => Done | _ => Error end]
    end.
Proof.
  intros JSON_parse String_of req upstream.
  unfold POST_stream, Shape.well_formed, Shape.lacks_field.
  destruct (Text.is_empty (apiKey req)); [now split|]. cbn [negb andb].
  destruct (body req) as [b|]; [|now split].
  assert (G : forall b',
             match
               match text_field String_of (get "section" b'),
                     text_field String_of (get "topic" b') with
               | Some section, Some topic =>
                   if Text.is_empty section || Text.is_empty topic then Reject 400
                   else
                     match build_prompt String_of section topic b' with
                     | None => Reject 500
                     | Some _ =>
                         let (ended, st) :=
                           run JSON_parse upstream (effectiveCount b') topic in
                         Lines ended (out st)
                     end
               | _, _ => Reject 500
               end
             with
             | Reject s =>
                 match text_field String_of (get "section" b'),
                       text_field String_of (get "topic" b') with
                 | Some section, Some topic =>
                     negb (Text.is_empty section) && negb (Text.is_empty topic)
                     && match build_prompt String_of section topic b' with
                        | Some _ => true
                        | None => false
                        end
                 | _, _ => false
                 end = false
                 /\ s = (if match text_field String_of (get "section" b'),
                                   text_field String_of (get "topic" b') with
                             | Some section, Some topic =>
                                 Text.is_empty section || Text.is_empty topic
                             | _, _ => false
                             end
                         then 400 else 500)
             | Lines ended lines =>
                 match text_field String_of (get "section" b'),
                       text_field String_of (get "topic" b') with
                 | Some section, Some topic =>
                     negb (Text.is_empty section) && negb (Text.is_empty topic)
                     && match build_prompt String_of section topic b' with
                        | Some _ => true
                        | None => false
                        end
                 | _, _ => false
                 end = true
                 /\ match text_field String_of (get "section" b'),
                          text_field String_of (get "topic" b') with
                    | Some section, Some topic =>
                        Text.is_empty section || Text.is_empty topic
                    | _, _ => false
                    end = false
                 /\ ended <> OutOfFuel
                 /\ exists middle,
                      open_ended middle
                      /\ lines
                         = Server "received" :: Server "prompt-built" :: middle
                           ++ [match ended with Returned _ => Done | _ => Error end]
             end).
  { intros b'.
    destruct (text_field String_of (get "section" b')) as [section|]; [|now split].
    destruct (text_field String_of (get "topic" b')) as [topic|]; [|now split].
    destruct (Text.is_empty section); [now split|].
    destruct (Text.is_empty topic); [now split|].
    cbn [orb negb andb].
    destruct (build_prompt String_of section topic b'); [|now split].
    pose proof (InvariantFacts.run_frame JSON_parse upstream (effectiveCount b') topic)
      as H.
    cbn zeta in H.
    destruct (run JSON_parse upstream (effectiveCount b') topic) as [ended st].
    cbn [fst snd] in H. destruct H as [H1 H2]. now repeat split. }
  destruct b; try (now split); apply G.
Qed.

(** X4. A session of the streaming route calls [generateContent] at most
    three times for the bulk rounds and twice for each missing unit of the
    single-item tier: at most 3 + 2 * ceil(count) times, so at most 23 times
    for the count of any request.  The branch without a stream calls it at
    most twice, and a session whose stream cannot be opened never. *)
Theorem session_calls_bounded :
  forall (JSON_parse : string -> option value) (upstream : model) (topic : string),
    (forall count : Q,
        calls (snd (run JSON_parse upstream count topic))
        <= match open_stream upstream with
           | StreamThrows => 0
           | NoStream => 2
           | Stream _ => 3 + 2 * Z.to_nat (Qceiling count)
           end)
    /\ (forall body : value,
          calls (snd (run JSON_parse upstream (effectiveCount body) topic)) <= 23).
Proof.
  intros JSON_parse upstream topic. split.
  - intros count. apply EffortFacts.run_calls.
  - intros body.
    pose proof (EffortFacts.run_calls JSON_parse upstream (effectiveCount body) topic) as H.
    assert (Hc : (Qceiling (effectiveCount body) <= 10)%Z).
    { change 10%Z with (Qceiling (inject_Z 10)). apply Qceiling_resp_le.
      apply CountFacts.clampCount_bounds. }
    destruct (open_stream upstream); lia.
Qed.

(** X5. A stream that by itself brings at least the requested number of
    valid lines: the session returns, [generateContent] is never called, and
    the questions of the response are the valid lines of the stream,
    sanitized, in their order. *)
Theorem stream_enough_no_more_calls :
  forall (JSON_parse : string -> option value) (upstream : model) (count : Q)
         (topic : string) (chunks : list string),
    open_stream upstream = Stream (map Says chunks) ->
    let v := valid_units JSON_parse (fst (Framer.feed chunks EmptyString)) in
    (Qceiling count <= Z.of_nat (List.length v))%Z ->
    let r := run JSON_parse upstream count topic in
    fst r = Returned tt
    /\ calls (snd r) = 0
    /\ question_units (out (snd r)) = map sanitizeQuestion v.
Proof. exact BranchFacts.run_stream_enough. Qed.

Lemma stream_enough_no_more_calls_witness :
  let r := run Sample.parse (Sample.always (Stream [Says Sample.two_lines]) Throws)
             2%Q "Algebra" in
  fst r = Returned tt /\ calls (snd r) = 0
  /\ question_units (out (snd r)) = map sanitizeQuestion [Sample.q1; Sample.q2].
Proof.
  apply (stream_enough_no_more_calls Sample.parse
           (Sample.always (Stream [Says Sample.two_lines]) Throws) 2%Q "Algebra"
           [Sample.two_lines]).
  - reflexivity.
  - vm_compute. discriminate.
Defined.

(** X6. The branch without a stream, when its calls answer: every valid
    line of the first text is accepted, whatever the count; then, if the
    session is short, the valid lines of the second text up to the target;
    the units are written as they were parsed, without sanitizing, and no
    filler is added. *)
Theorem fallback_branch_units :
  forall (JSON_parse : string -> option value) (upstream : model) (count : Q)
         (topic : string) (t1 t2 : string),
    open_stream upstream = NoStream ->
    generate upstream 0 = Says t1 ->
    generate upstream 1 = Says t2 ->
    let v1 := valid_units JSON_parse (Text.nonempty_lines t1) in
    let v2 := valid_units JSON_parse (Text.nonempty_lines t2) in
    let r := run JSON_parse upstream count topic in
    fst r = Returned tt
    /\ question_units (out (snd r))
       = v1 ++ firstn (Z.to_nat (Qceiling count - Z.of_nat (List.length v1))) v2
    /\ calls (snd r) = if (Z.of_nat (List.length v1) <? Qceiling count)%Z then 2 else 1.
Proof. exact BranchFacts.run_fallback. Qed.

Lemma fallback_branch_units_witness :
  let r := run Sample.parse (Sample.always NoStream (Says Sample.two_lines))
             3%Q "Algebra" in
  fst r = Returned tt
  /\ question_units (out (snd r)) = [Sample.q1; Sample.q2; Sample.q1]
  /\ calls (snd r) = 2.
Proof.
  exact (fallback_branch_units Sample.parse (Sample.always NoStream (Says Sample.two_lines))
           3%Q "Algebra" Sample.two_lines Sample.two_lines eq_refl eq_refl eq_refl).
Defined.

(** X7. A session fails only when the model does.  If the stream opens
    (or there is none), no chunk of it throws and the first three calls of
    [generateContent] answer, the session returns, with its "done" line:
    a failure of any later call, which can only come from the single-item
    tier, is absorbed. *)
Theorem session_fails_only_with_model :
  forall (JSON_parse : string -> option value) (upstream : model) (count : Q)
         (topic : string),
    (forall n, n < 3 -> generate upstream n <> Throws) ->
    open_stream upstream <> StreamThrows ->
    (forall chunks, open_stream upstream = Stream chunks -> forallb says chunks = true) ->
    fst (run JSON_parse upstream count topic) = Returned tt.
Proof. exact OutcomeFacts.run_returns. Qed.

Lemma session_fails_only_with_model_witness :
  fst (run Sample.parse (Sample.fails_from 3) 2%Q "Algebra") = Returned tt.
Proof.
  apply session_fails_only_with_model.
  - intros n Hn. apply Nat.ltb_lt in Hn. unfold Sample.fails_from. cbn [generate].
    rewrite Hn. discriminate.
  - discriminate.
  - intros chunks H. cbn in H. injection H as <-. reflexivity.
Defined.

(** X8. A stream without failure and a session that returns: the number
    of question lines is the requested count rounded up, or the number of
    valid delimited lines of the stream when that is larger. *)
Theorem stream_session_question_count :
  forall (JSON_parse : string -> option value) (upstream : model) (count : Q)
         (topic : string) (chunks : list string),
    open_stream upstream = Stream (map Says chunks) ->
    fst (run JSON_parse upstream count topic) = Returned tt ->
    Z.of_nat (List.length (question_units (out (snd (run JSON_parse upstream count topic)))))
    = Z.max (Qceiling count)
        (Z.of_nat (List.length
                     (valid_units JSON_parse (fst (Framer.feed chunks EmptyString))))).
Proof.
  intros JSON_parse upstream count topic chunks Hs Hr.
  pose proof (SessionFacts.run_stream_count JSON_parse upstream count topic chunks Hs Hr) as H.
  destruct (SessionFacts.run_wf JSON_parse upstream count topic) as [_ H2 H3 _ _].
  now rewrite H3, length_map, <- H2.
Qed.

Lemma stream_session_question_count_witness :
  Z.of_nat (List.length
              (question_units
                 (out (snd (run Sample.parse
                              (Sample.always (Stream [Says Sample.two_lines]) Throws)
                              1%Q "Algebra")))))
  = Z.max (Qceiling 1%Q)
      (Z.of_nat (List.length
                   (valid_units Sample.parse
                      (fst (Framer.feed [Sample.two_lines] EmptyString))))).
Proof.
  exact (stream_session_question_count Sample.parse
           (Sample.always (Stream [Says Sample.two_lines]) Throws) 1%Q "Algebra"
           [Sample.two_lines] eq_refl eq_refl).
Defined.

(** X9. No unit reaches a response unchecked: every question line shows
    a unit that passed the validator, either as it was parsed (the branch
    without a stream) or after the sanitizer (every other tier, the filler
    included). *)
Theorem question_units_validated :
  forall (JSON_parse : string -> option value) (upstream : model) (count : Q)
         (topic : string),
    Forall (fun q => exists raw, isValidQuestion raw = true
                                 /\ (q = raw \/ q = sanitizeQuestion raw))
           (question_units (out (snd (run JSON_parse upstream count topic)))).
Proof.
  intros JSON_parse upstream count topic.
  destruct (SessionFacts.run_wf JSON_parse upstream count topic) as [_ _ -> _ _].
  pose proof (EffortFacts.run_valid JSON_parse upstream count topic) as H.
  unfold all_valid in H. apply Forall_map.
  eapply Forall_impl; [|exact H]. intros [t raw] Hv. exists raw. split; [exact Hv|].
  unfold shown. cbn [fst snd]. destruct t; auto.
Qed.

(** X10. The filler of the single-item tier passes the validator, before
    and after the sanitizer, whatever the slot and the topic, also for a
    topic that is blank or holds the placeholder word. *)
Theorem filler_passes_validator :
  forall (n : Z) (topic : string),
    isValidQuestion (synthetic n topic) = true
    /\ isValidQuestion (sanitizeQuestion (synthetic n topic)) = true.
Proof. exact FillerFacts.filler_valid. Qed.

(** X11. What the sanitizer makes of a unit that passed the validator:
    the stem and the four options are strings and come out cleaned, one for
    one; the unit still passes the validator exactly when the cleaned stem
    keeps five characters and no cleaned option is empty. *)
Theorem sanitized_unit_shape :
  forall q : value,
    isValidQuestion q = true ->
    exists (s : string) (opts : list string),
      get "question" q = VStr s
      /\ get "multipleChoiceOptions" q = VArr (map VStr opts)
      /\ List.length opts = 4
      /\ get "question" (sanitizeQuestion q) = VStr (Text.clean s)
      /\ get "multipleChoiceOptions" (sanitizeQuestion q)
         = VArr (map (fun o => VStr (Text.clean o)) opts)
      /\ (isValidQuestion (sanitizeQuestion q) = true
          <-> 5 <= String.length (Text.clean s)
              /\ Forall (fun o => Text.clean o <> EmptyString) opts).
Proof.
  intros q Hv. pose proof Hv as Hg.
  rewrite ValidatorFacts.isValidQuestion_guards, !andb_true_iff in Hg.
  destruct Hg as [[[[[Hobj Hstem] Hopts] Hans] Hexp] Hrat].
  destruct (ClientFacts.valid_object q Hv) as [props ->].
  apply ValidatorFacts.trimmed_string_iff in Hstem. destruct Hstem as (s & Es & Hs).
  pose proof Hopts as Ho. apply ValidatorFacts.options_iff in Ho.
  destruct Ho as (items & Ei & Hl & Hf).
  assert (Hitems : exists opts, items = map VStr opts).
  { clear Hl Ei. induction Hf as [|x l (o & -> & _) _ (os & ->)].
    - now exists [].
    - now exists (o :: os). }
  destruct Hitems as (opts & ->). rewrite length_map in Hl.
  destruct (EntryFacts.sanitizeQuestion_writes props) as [W1 W2].
  rewrite Es in W1. rewrite Ei in W2. cbn [clean clean_options] in W1, W2.
  rewrite map_map in W2. cbn [clean] in W2.
  exists s, opts.
  split; [exact Es|]. split; [exact Ei|]. split; [exact Hl|].
  split; [exact W1|]. split; [exact W2|]. split.
  - intros H. rewrite ValidatorFacts.isValidQuestion_guards, !andb_true_iff in H.
    destruct H as [[[[[_ H1] H2] _] _] _]. split.
    + rewrite W1 in H1. cbn [trimmed_string_at_least] in H1.
      apply Nat.leb_le in H1. now rewrite HelperFacts.clean_trimmed in H1.
    + rewrite W2 in H2.
      apply ValidatorFacts.options_iff in H2. destruct H2 as (items & E & _ & H).
      injection E as <-.
      apply (proj1 (Forall_map _ _ _)) in H. eapply Forall_impl; [|exact H].
      intros o (x & E & Hx). cbn beta in E. injection E as <-.
      now rewrite HelperFacts.clean_trimmed in Hx.
  - intros [H5 Hne].
    rewrite ValidatorFacts.isValidQuestion_guards.
    rewrite SanitizerFacts.sanitizeQuestion_shape by discriminate.
    rewrite !(EntryFacts.written_frame props _ _ "correctAnswer") by discriminate.
    rewrite !(EntryFacts.written_frame props _ _ "incorrectExplanations") by discriminate.
    rewrite !(EntryFacts.written_frame props _ _ "correctExplanation") by discriminate.
    rewrite Hans, Hexp, Hrat, !andb_true_r.
    rewrite <- SanitizerFacts.sanitizeQuestion_shape by discriminate.
    rewrite W1, W2. apply andb_true_iff. split; [apply andb_true_iff; split|].
    + reflexivity.
    + cbn [trimmed_string_at_least]. apply Nat.leb_le.
      now rewrite HelperFacts.clean_trimmed.
    + apply ValidatorFacts.options_iff. eexists. split; [reflexivity|].
      split; [now rewrite length_map|]. apply Forall_map.
      eapply Forall_impl; [|exact Hne]. intros o Ho. exists (Text.clean o).
      split; [reflexivity|]. now rewrite HelperFacts.clean_trimmed.
Qed.

Lemma sanitized_unit_shape_witness :
  exists (s : string) (opts : list string),
    get "question" Sample.q1 = VStr s
    /\ get "multipleChoiceOptions" Sample.q1 = VArr (map VStr opts)
    /\ List.length opts = 4
    /\ get "question" (sanitizeQuestion Sample.q1) = VStr (Text.clean s)
    /\ get "multipleChoiceOptions" (sanitizeQuestion Sample.q1)
       = VArr (map (fun o => VStr (Text.clean o)) opts)
    /\ (isValidQuestion (sanitizeQuestion Sample.q1) = true
        <-> 5 <= String.length (Text.clean s)
            /\ Forall (fun o => Text.clean o <> EmptyString) opts).
Proof. exact (sanitized_unit_shape Sample.q1 eq_refl). Defined.

(** X12. The cleaning of a string: the result holds no whole-word
    occurrence of the placeholder, no two whitespace characters in a row
    and no outer whitespace, and it is never longer than the input; the
    strings with these three properties are exactly those that the cleaning
    leaves as they are. *)
Theorem clean_normal_form :
  forall s : string,
    Shape.quiet false (Text.clean s) = true
    /\ Shape.tight (Text.clean s) = true
    /\ Text.trim (Text.clean s) = Text.clean s
    /\ String.length (Text.clean s) <= String.length s
    /\ (Text.clean s = s
        <-> Shape.quiet false s = true /\ Shape.tight s = true /\ Text.trim s = s).
Proof.
  intros s. split; [apply TextFacts.clean_quiet|]. split; [apply TextFacts.clean_tight|].
  split; [apply HelperFacts.clean_trimmed|]. split; [apply HelperFacts.clean_length|].
  apply HelperFacts.clean_fixed.
Qed.

Lemma clean_normal_form_witness :
  Shape.quiet false "a b" = true /\ Shape.tight "a b" = true /\ Text.trim "a b" = "a b"
  /\ Text.clean "a b" = "a b".
Proof.
  split; [reflexivity|]. split; [reflexivity|]. split; [reflexivity|].
  exact (proj2 (proj2 (proj2 (proj2 (proj2 (clean_normal_form "a b")))))
           (conj eq_refl (conj eq_refl eq_refl))).
Defined.

(** X13. The fingerprint of a stem has at most 140 characters, and it
    does not change when the stem is put in lower case or when its runs of
    whitespace are replaced by single spaces: stems that differ only in
    letter case or in the length and kind of their whitespace runs count as
    duplicates. *)
Theorem fingerprint_insensitive :
  forall s : string,
    String.length (normalize s) <= 140
    /\ normalize (Text.toLowerCase s) = normalize s
    /\ normalize (Text.squeeze_spaces false s) = normalize s.
Proof.
  intros s. unfold normalize. split; [apply HelperFacts.take_length|]. split.
  - now rewrite HelperFacts.toLowerCase_idem.
  - rewrite (HelperFacts.squeeze_lower (Text.squeeze_spaces false s) false).
    rewrite (HelperFacts.squeeze_lower s false).
    now rewrite HelperFacts.squeeze_idem by now left.
Qed.

(** X14. The single-item tier strips a code fence from a reply: a text
    wrapped in a fence with the json tag, or in a bare fence followed by a
    line feed, is read as the text inside, trimmed. *)
Theorem unfence_strips_fences :
  forall body : string,
    unfence ("```json" ++ body ++ "```") = Text.trim body
    /\ unfence ("```" ++ String Text.nl (body ++ "```")) = Text.trim body.
Proof.
  intros body. unfold unfence. split.
  - change (Text.strip_fence_open ("```json" ++ body ++ "```"))
      with (body ++ Text.fence)%string.
    now rewrite HelperFacts.strip_fence_close_end.
  - change (Text.strip_fence_open ("```" ++ String Text.nl (body ++ "```")))
      with (String Text.nl body ++ Text.fence)%string.
    now rewrite HelperFacts.strip_fence_close_end.
Qed.

(** X15. The one-shot route answers 200 exactly when the request passes
    its checks and lets the route build its prompt (section, topic and
    difficulty have a string form) and the text of the model parses to a
    document with a questions array; the 200 body is then that document with its fields in
    their order, every field but the questions unchanged.  Every answer has
    one of the statuses 200, 400, 500, 502, and a 502 body hands back the
    text of the model. *)
Theorem one_shot_document :
  forall (JSON_parse : string -> option value) (String_of : value -> option string)
         (req : request) (answer : reply),
    let r := POST_generate JSON_parse String_of req answer in
    In (status r) [200; 400; 500; 502]
    /\ (status r = 200
        <-> Shape.well_formed String_of req = true
            /\ exists text parsed items,
                 answer = Says text /\ JSON_parse text = Some parsed
                 /\ get "questions" parsed = VArr items)
    /\ (status r = 200 ->
        exists text parsed,
          answer = Says text /\ JSON_parse text = Some parsed
          /\ keys (own_props (payload r)) = keys (own_props parsed)
          /\ forall k, k <> "questions" -> get k (payload r) = get k parsed)
    /\ (status r = 502 ->
        exists text,
          answer = Says text
          /\ payload r = VObj [("error", VStr "Model did not return valid JSON");
                               ("raw", VStr text)]).
Proof.
  intros JSON_parse String_of req answer r. subst r.
  destruct (Shape.well_formed String_of req) eqn:W.
  - rewrite (OneShotFacts.POST_generate_well_formed JSON_parse String_of req answer W).
    destruct answer as [|text].
    { cbn. split; [tauto|]. split; [|split; discriminate].
      split; [discriminate|]. now intros (_ & t & p & i & E & _). }
    destruct (JSON_parse text) as [parsed|] eqn:P.
    2:{ cbn. split; [tauto|]. split; [|split; [discriminate|]].
        - split; [discriminate|]. now intros (_ & t & p & i & [= <-] & E & _); congruence.
        - intros _. now exists text. }
    destruct (get "questions" parsed) as [| | | | |items|] eqn:G;
      try (cbn; split; [tauto|]; split; [|split; [discriminate|]];
           [ split; [discriminate|];
             intros (_ & t & p & i & E1 & E2 & E3); injection E1 as <-; congruence
           | intros _; now exists text ]).
    destruct (OneShotFacts.questions_is_object parsed items G) as [props ->].
    cbn [truthy status payload own_props]. split; [cbn; tauto|]. split; [|split].
    + split; [|reflexivity]. intros _. split; [reflexivity|].
      exists text, (VObj props), items. repeat split; assumption.
    + intros _. exists text, (VObj props). split; [reflexivity|]. split; [exact P|].
      split.
      * cbn [own_props]. apply ObjFacts.keys_set_present.
        cbn [get] in G. clear -G. induction props as [|[k v] ps IH]; [discriminate|].
        cbn in G |- *. destruct (String.eqb k "questions") eqn:E.
        -- left. now apply String.eqb_eq.
        -- right. apply IH. exact G.
      * intros k Hk. now apply ObjFacts.get_set_other.
    + discriminate.
  - destruct (OneShotFacts.POST_generate_rejected JSON_parse String_of req answer W)
      as [Hs' _].
    assert (Hs : status (POST_generate JSON_parse String_of req answer) = 400
                 \/ status (POST_generate JSON_parse String_of req answer) = 500)
      by (rewrite Hs'; destruct (Shape.lacks_field String_of req); auto).
    clear Hs'.
    split; [cbn; destruct Hs as [-> | ->]; tauto|].
    split; [|split; intros H; destruct Hs as [E | E]; rewrite E in H; discriminate].
    split; [intros H; destruct Hs as [E | E]; rewrite E in H; discriminate|].
    intros [H _]. discriminate.
Qed.

Lemma one_shot_document_witness :
  status (POST_generate Sample.parse Sample.to_string (Sample.req_of 3)
            (Says Sample.empty_batch)) = 200
  /\ exists text parsed,
       Says Sample.empty_batch = Says text /\ Sample.parse text = Some parsed
       /\ keys (own_props (payload (POST_generate Sample.parse Sample.to_string
                                      (Sample.req_of 3) (Says Sample.empty_batch))))
          = keys (own_props parsed)
       /\ forall k, k <> "questions" ->
            get k (payload (POST_generate Sample.parse Sample.to_string
                              (Sample.req_of 3) (Says Sample.empty_batch)))
            = get k parsed.
Proof.
  split; [reflexivity|].
  exact (proj1 (proj2 (proj2 (one_shot_document Sample.parse Sample.to_string
                                (Sample.req_of 3) (Says Sample.empty_batch))))
           eq_refl).
Defined.

(** X16. The practice page, on a session of the streaming route that
    returned.  Let the body of the response be lines, one for each event
    of the session and each ended by a line feed, such that the parser of
    the page reads from each line a message of the type of its event and,
    for a question line, with its index and its unit, whatever other
    fields (times, sizes, stages) the message carries.  Then the questions
    that the page ends with are exactly the units of the question lines,
    in their order, without a hole and without a loss, however the body is
    cut into chunks on its way. *)
Theorem reader_receives_questions :
  forall (JSON_parse : string -> option value) (upstream : model) (count : Q)
         (topic : string)
         (page_parse : string -> option value) (Number_of : value -> number)
         (wires chunks : list string),
    let r := run JSON_parse upstream count topic in
    fst r = Returned tt ->
    (Z.of_nat (List.length (question_units (out (snd r)))) < 2 ^ 32)%Z ->
    Forall2 (Client.carried page_parse) (out (snd r)) wires ->
    Shape.concat chunks = Client.body_text wires ->
    Client.questions page_parse Number_of chunks = Some (question_units (out (snd r))).
Proof.
  intros JSON_parse upstream count topic page_parse Number_of wires chunks r _ Hb Hc He.
  destruct (ClientFacts.carried_lines page_parse _ _ Hc) as [H1 H2].
  rewrite ClientFacts.questions_whole, He.
  rewrite (ClientFacts.drained_body wires H1). cbn [fst].
  rewrite (ClientFacts.candidates_wire wires H2).
  rewrite (ClientFacts.build_numbered page_parse Number_of (out (snd r)) wires Hc 0
             (List.length (question_units (out (snd r)))) []).
  - cbn [app]. f_equal. apply ClientFacts.compact_full. apply ClientFacts.run_units_truthy.
  - reflexivity.
  - destruct (SessionFacts.run_wf JSON_parse upstream count topic) as [K1 _ K3 _ _].
    fold r in K1, K3. now rewrite K1, K3, length_map.
  - apply ClientFacts.run_units_truthy.
  - cbn [Nat.add]. exact Hb.
Qed.

Lemma reader_receives_questions_witness :
  let r := run Sample.parse (Sample.always (Stream [Says Sample.two_lines]) Throws)
             2%Q "Algebra" in
  Client.questions Client.sample_parse (fun _ => NaN)
    Client.sample_chunks
  = Some (question_units (out (snd r))).
Proof.
  cbn zeta.
  apply (reader_receives_questions Sample.parse
           (Sample.always (Stream [Says Sample.two_lines]) Throws) 2%Q "Algebra"
           Client.sample_parse (fun _ => NaN) Client.sample_lines).
  - reflexivity.
  - vm_compute. reflexivity.
  - vm_compute out.
    repeat (apply Forall2_cons;
            [split; [reflexivity|]; split; [discriminate|];
             eexists; split; [vm_compute; reflexivity | vm_compute; repeat split]|]).
    apply Forall2_nil.
  - vm_compute. reflexivity.
Defined.

(** X17. The framing of the page reads the lines that end with a line
    feed and nothing else: what it ends with depends on the whole text of
    the body and not on the cut into chunks, a tail without a line feed is
    never parsed, and its loop comes to an end on every body. *)
Theorem reader_framing :
  forall (page_parse : string -> option value) (Number_of : value -> number),
    (forall c1 c2 : list string,
        Shape.concat c1 = Shape.concat c2 ->
        Client.questions page_parse Number_of c1 = Client.questions page_parse Number_of c2)
    /\ (forall (chunks : list string) (tail : string),
          Client.one_line tail = true ->
          Client.questions page_parse Number_of (chunks ++ [tail])
          = Client.questions page_parse Number_of chunks)
    /\ (forall chunks : list string,
          Client.questions page_parse Number_of chunks <> None).
Proof.
  intros page_parse Number_of. split; [|split].
  - intros c1 c2 H. now rewrite !ClientFacts.questions_whole, H.
  - intros chunks tail H. rewrite !ClientFacts.questions_whole.
    rewrite ClientFacts.concat_app. cbn [Shape.concat].
    rewrite FramerFacts.append_empty. now rewrite (ClientFacts.drained_tail _ _ H).
  - intros chunks. now rewrite ClientFacts.questions_whole.
Qed.

Lemma reader_framing_witness :
  Client.questions Sample.parse (fun _ => NaN) [Sample.ab; Sample.c_newline]
  = Client.questions Sample.parse (fun _ => NaN)
      [("A" ++ Sample.newline ++ "BC" ++ Sample.newline)%string]
  /\ Client.questions Sample.parse (fun _ => NaN) ([Sample.c_newline] ++ ["tail"])
     = Client.questions Sample.parse (fun _ => NaN) [Sample.c_newline].
Proof.
  split.
  - exact (proj1 (reader_framing Sample.parse (fun _ => NaN))
             [Sample.ab; Sample.c_newline]
             [("A" ++ Sample.newline ++ "BC" ++ Sample.newline)%string] eq_refl).
  - exact (proj1 (proj2 (reader_framing Sample.parse (fun _ => NaN)))
             [Sample.c_newline] "tail" eq_refl).
Defined.

(** X18. The cut of the model stream into chunks does not matter to a
    session: for two streams with the same whole text and the same answers
    to the later calls, the sessions end the same way, make the same number
    of calls and write the same lines, question lines included, apart from
    the diagnostic markers of the chunks themselves. *)
Theorem session_independent_of_chunking :
  forall (JSON_parse : string -> option value) (answers : nat -> reply) (count : Q)
         (topic : string) (c1 c2 : list string),
    Shape.concat c1 = Shape.concat c2 ->
    let r1 := run JSON_parse (streams c1 answers) count topic in
    let r2 := run JSON_parse (streams c2 answers) count topic in
    fst r1 = fst r2
    /\ filter not_chunk (out (snd r1)) = filter not_chunk (out (snd r2))
    /\ question_units (out (snd r1)) = question_units (out (snd r2))
    /\ calls (snd r1) = calls (snd r2).
Proof.
  intros JSON_parse answers count topic c1 c2 Hc r1 r2.
  destruct (ChunkFacts.run_cut JSON_parse answers count topic c1 c2 Hc) as (H1 & H2 & H3).
  fold r1 r2 in H1, H2, H3. repeat split; try assumption.
  rewrite <- (ChunkFacts.units_not_chunk (out (snd r1))), H2.
  apply ChunkFacts.units_not_chunk.
Qed.

Lemma session_independent_of_chunking_witness :
  let r1 := run Sample.parse (streams [Sample.two_lines] (fun _ => Throws)) 2%Q "Algebra" in
  let r2 := run Sample.parse
              (streams [Sample.line1; (Sample.newline ++ Sample.line2)%string; Sample.newline]
                 (fun _ => Throws)) 2%Q "Algebra" in
  fst r1 = fst r2
  /\ filter not_chunk (out (snd r1)) = filter not_chunk (out (snd r2))
  /\ question_units (out (snd r1)) = question_units (out (snd r2))
  /\ calls (snd r1) = calls (snd r2).
Proof.
  apply (session_independent_of_chunking Sample.parse (fun _ => Throws) 2%Q "Algebra"
           [Sample.two_lines]
           [Sample.line1; (Sample.newline ++ Sample.line2)%string; Sample.newline]).
  vm_compute. reflexivity.
Defined.

(** X19. The guard of the practice page on the questions of the streaming
    route: every unit of a question line has its four options, so none is
    ever treated as skippable, whatever the parsing of its text would give.
    The next step is allowed exactly when the current question has an
    answer, and the session counts as answered exactly when it has a
    question and every question has an answer. *)
Theorem page_guard_on_route_questions :
  forall (JSON_parse : string -> option value) (upstream : model) (count : Q)
         (topic : string) (parsed_choices : value -> option nat) (answers : nat -> value),
    let qs := question_units (out (snd (run JSON_parse upstream count topic))) in
    Client.allAnswered parsed_choices qs answers
    = Some ((0 <? List.length qs)%nat
            && forallb (fun i => truthy (answers i)) (seq 0 (List.length qs)))
    /\ forall i, i < List.length qs ->
         Client.isCurrentQuestionValid parsed_choices qs i = true
         /\ Client.canProceedNext parsed_choices qs answers i = truthy (answers i).
Proof.
  intros JSON_parse upstream count topic parsed_choices answers qs.
  pose proof (ClientFacts.run_units_answerable JSON_parse upstream count topic parsed_choices)
    as H.
  fold qs in H. split.
  - unfold Client.allAnswered. destruct (0 <? List.length qs)%nat; [|reflexivity].
    cbn [andb]. now apply ClientFacts.every_answered.
  - intros i Hi.
    assert (V : Client.isCurrentQuestionValid parsed_choices qs i = true).
    { unfold Client.isCurrentQuestionValid.
      destruct (nth_error qs i) as [q|] eqn:E.
      - apply nth_error_In in E. rewrite Forall_forall in H.
        destruct (H q E) as [-> ->]. reflexivity.
      - apply nth_error_None in E. lia. }
    split; [exact V|]. unfold Client.canProceedNext. now rewrite V.
Qed.

Lemma page_guard_on_route_questions_witness :
  let qs := question_units
              (out (snd (run Sample.parse
                           (Sample.always (Stream [Says Sample.two_lines]) Throws)
                           2%Q "Algebra"))) in
  0 < List.length qs
  /\ Client.isCurrentQuestionValid (fun _ => None) qs 0 = true
  /\ Client.canProceedNext (fun _ => None) qs (fun _ => VStr "A") 0 = true.
Proof.
  cbn zeta. split; [vm_compute; lia|].
  exact (proj2 (page_guard_on_route_questions Sample.parse
                  (Sample.always (Stream [Says Sample.two_lines]) Throws) 2%Q "Algebra"
                  (fun _ => None) (fun _ => VStr "A"))
           0 ltac:(vm_compute; lia)).
Defined.

(** X20. The two routes sanitize a unit alike: on an object, every field
    reads the same from the result of the mapping function of the one-shot
    route as from the result of the sanitizer of the streaming route. *)
Theorem sanitizers_agree_on_units :
  forall (props : list (string * value)) (k : string),
    get k (sanitizeEntry (VObj props)) = get k (sanitizeQuestion (VObj props)).
Proof.
  intros props k.
  rewrite SanitizerFacts.sanitizeEntry_shape by reflexivity.
  rewrite SanitizerFacts.sanitizeQuestion_shape by discriminate.
  cbn [own_props]. set (W := Shape.written props _ _).
  assert (Hw : forall k', k' <> Shape.stem_key -> k' <> Shape.options_key ->
                          get k' (VObj W) = get k' (VObj props))
    by (intros; now apply EntryFacts.written_frame).
  rewrite <- (Hw "incorrectExplanations") by discriminate.
  rewrite <- (Hw "correctExplanation") by discriminate.
  rewrite <- (ObjFacts.get_set_own "incorrectExplanations" "correctExplanation" W).
  now rewrite !ObjFacts.get_set_own.
Qed.

(** X21. What the duplicate check of the single-item tier does.  In every
    session the set of fingerprints holds exactly the fingerprints of the
    units that the single-item tier accepted (first attempt or variant
    retry), taken from the stem as the model sent it, and these are
    pairwise distinct; the question lines show the accepted units in their
    order.  The units of the other tiers are not in the set. *)
Theorem single_tier_fingerprints_distinct :
  forall (JSON_parse : string -> option value) (upstream : model) (count : Q)
         (topic : string),
    let st := snd (run JSON_parse upstream count topic) in
    NoDup (fingerprints checks_duplicates (accepted st))
    /\ existingQuestions st = fingerprints checks_duplicates (accepted st)
    /\ question_units (out st) = map shown (accepted st).
Proof.
  intros JSON_parse upstream count topic st.
  destruct (SessionFacts.run_wf JSON_parse upstream count topic) as [_ _ H3 H4 H5].
  fold st in H3, H4, H5. repeat split; [now rewrite <- H4 | exact H4 | exact H3].
Qed.

(** X22. The filler of the single-item tier.  When every call that the
    tier makes throws, the tier makes one call for each missing slot (no
    variant retry follows a throw), returns, and has accepted for the
    slots e + 1, ..., ceil(count) the filler of that slot and nothing
    else. *)
Theorem single_tier_fills_with_filler :
  forall (JSON_parse : string -> option value) (upstream : model) (count : Q)
         (topic : string) (st : session),
    (forall n, calls st <= n -> generate upstream n = Throws) ->
    exists st',
      single_recovery JSON_parse upstream count topic st = (Returned tt, st')
      /\ accepted st'
         = accepted st
           ++ Lines.fillers topic (emitted st) (Z.to_nat (Qceiling count - emitted st))
      /\ emitted st' = (emitted st + Z.of_nat (Z.to_nat (Qceiling count - emitted st)))%Z
      /\ calls st' = calls st + Z.to_nat (Qceiling count - emitted st).
Proof.
  intros JSON_parse upstream count topic st H.
  exact (StreamFacts.single_recovery_fills JSON_parse upstream count topic st H).
Qed.

Lemma single_tier_fills_with_filler_witness :
  exists st',
    single_recovery Sample.parse (Sample.fails_from 0) 2%Q "Algebra" initial
    = (Returned tt, st')
    /\ accepted st'
       = [(Filler, synthetic 1 "Algebra"); (Filler, synthetic 2 "Algebra")]
    /\ emitted st' = 2%Z
    /\ calls st' = 2.
Proof.
  exact (single_tier_fills_with_filler Sample.parse (Sample.fails_from 0) 2%Q "Algebra"
           initial (fun n _ => eq_refl)).
Defined.

(** X23. The single-item tier absorbs what its calls do.  Whatever the
    model replies or throws during the tier, the tier returns with the
    target met and the terminal line is written next; the tier writes no
    diagnostic line but its stage marker, so an exception there leaves no
    trace among the lines.  When the opening of the stream throws, the
    handler writes the two opening markers and the error line, and the
    session ends thrown. *)
Theorem single_tier_absorbs_failures :
  (forall (JSON_parse : string -> option value) (upstream : model) (count : Q)
          (topic : string) (st : session),
      exists st',
        single_recovery JSON_parse upstream count topic st = (Returned tt, st')
        /\ short_of count (emitted st') = false
        /\ (exists evs,
              out st' = out st ++ evs
              /\ diagnostics evs
                 = if short_of count (emitted st)
                   then [Server "final-single-regeneration"] else [])
        /\ bind (single_recovery JSON_parse upstream count topic)
                (fun _ => enqueue Done) st
           = (Returned tt, snd (enqueue Done st')))
  /\ (forall (JSON_parse : string -> option value) (g : nat -> reply) (count : Q)
             (topic : string),
        let r := run JSON_parse {| open_stream := StreamThrows; generate := g |}
                   count topic in
        fst r = Thrown
        /\ out (snd r) = [Server "received"; Server "prompt-built"; Error]).
Proof.
  split.
  - intros JSON_parse upstream count topic st.
    destruct (SessionFacts.single_recovery_completes JSON_parse upstream count topic st)
      as (st' & Hret & Hmet & _ & Hout).
    exists st'. repeat split; try assumption.
    unfold bind. now rewrite Hret.
  - intros JSON_parse g count topic. split; reflexivity.
Qed.

(* ===================================================================== *)
(** * The claims of the specification *)
(* ===================================================================== *)

Import Trace.

(** C1. The claim: a completed streaming session writes exactly N question
    lines, numbered 1 to N, however many valid lines the model streams.
    The loop over the chunks of the primary stream never tests the target
    (the flush loop and the top-up loops do), so a stream with two valid
    lines answers a request for one question with two question lines. *)
Theorem primary_stream_exceeds_count :
  POST_stream Sample.parse Sample.to_string (Sample.req_of 1)
    (Sample.always (Stream [Says Sample.two_lines]) Throws)
  = Lines (Returned tt)
      [ Server "received"; Server "prompt-built"; Server "stream-open"; Server "chunk";
        Question 1 Sample.q1; Progress 1 1%Q;
        Question 2 Sample.q2; Progress 2 1%Q;
        Done ].
Proof. vm_compute. reflexivity. Qed.

(** C2. The claim: on every path, also without a stream, a session never
    ends with fewer question lines than requested, a filler standing in for
    each missing unit.  The branch without a stream has one top-up round and
    no filler: when the model returns nothing of use, the session ends with
    no question line at all. *)
Theorem fallback_branch_ends_short :
  POST_stream Sample.parse Sample.to_string (Sample.req_of 3)
    (Sample.always NoStream (Says EmptyString))
  = Lines (Returned tt)
      [ Server "received"; Server "prompt-built"; Server "fallback";
        Server "fallback-topup"; Done ].
Proof. vm_compute. reflexivity. Qed.

(** C3. The claim: no two units accepted in one session share a
    fingerprint, whichever tiers accepted them.  The set of fingerprints is
    created when the single-item tier starts, without the stems accepted
    before, and no other tier consults it.  So a stream that brings the
    same valid line twice has both accepted; and the single-item tier
    accepts a unit whose stem the stream has sent already. *)
Theorem primary_stream_accepts_duplicates :
  (let st := snd (run Sample.parse (Sample.always (Stream [Says Sample.twice]) Throws)
                    2%Q "Algebra") in
   accepted st = [(Primary, Sample.q1); (Primary, Sample.q1)]
   /\ question_units (out st) = [Sample.q1; Sample.q1]
   /\ ~ NoDup (fingerprints (fun _ => true) (accepted st)))
  /\ (let r := run Sample.parse Sample.echoes 2%Q "Algebra" in
      fst r = Returned tt
      /\ accepted (snd r) = [(Primary, Sample.q1); (Single, Sample.q1)]
      /\ question_units (out (snd r)) = [Sample.q1; Sample.q1]
      /\ ~ NoDup (fingerprints (fun _ => true) (accepted (snd r)))).
Proof.
  vm_compute. repeat split; intros H; inversion H as [|x l Hin _]; apply Hin; now left.
Qed.




(** C5. The claim: a call of the model that throws, other than the
    opening of the stream, is caught where it is made, told by a diagnostic
    line, and the session goes on to the next tier and completes.  The
    calls of the single-item tier are wrapped in a try, those of the bulk
    rounds are not.  So a bulk round whose call throws ends the session:
    the handler of the whole session writes the error line and fails the
    stream, no question line and no terminal line is written.  And a call
    of the single-item tier that throws is caught, but no line tells of
    it: the diagnostic lines are the stage markers alone. *)
Theorem topup_failure_aborts_and_single_failure_is_silent :
  (let r := run Sample.parse (Sample.fails_from 0) 1%Q "Algebra" in
   fst r = Thrown
   /\ out (snd r)
      = [ Server "received"; Server "prompt-built"; Server "stream-open";
          Server "fallback-topup"; Error ]
   /\ calls (snd r) = 1)
  /\ (let r := run Sample.parse (Sample.fails_from 1) 1%Q "Algebra" in
      fst r = Thrown
      /\ out (snd r)
         = [ Server "received"; Server "prompt-built"; Server "stream-open";
             Server "fallback-topup"; Server "second-retry"; Error ]
      /\ calls (snd r) = 2)
  /\ (let r := run Sample.parse (Sample.fails_from 3) 1%Q "Algebra" in
      fst r = Returned tt
      /\ out (snd r)
         = [ Server "received"; Server "prompt-built"; Server "stream-open";
             Server "fallback-topup"; Server "second-retry"; Server "final-retry";
             Server "final-single-regeneration";
             Question 1 (sanitizeQuestion (synthetic 1 "Algebra")); Progress 1 1%Q;
             Done ]
      /\ calls (snd r) = 4).
Proof. vm_compute. repeat split. Qed.

(** C6, as stated, fails: a count of one half is used as it is. *)
Lemma fractional_count_below_one :
  effectiveCount (Sample.body_of (1 # 2)) = (1 # 2)%Q
  /\ ~ (1 <= effectiveCount (Sample.body_of (1 # 2)))%Q.
Proof. split; [reflexivity|]. vm_compute. intros H. now apply H. Qed.

(** C6, amended.  The effective count is the smaller of 10 and the count
    of the request when that is a number greater than 0, and 10 otherwise:
    a count strictly between 0 and 10 is used unchanged, a count of 10 or
    more, or infinite, gives 10, and a count that is absent, is no number
    or is no positive number gives 10.  So the effective count is greater
    than 0 and at most 10; it is at least 1 for every integer and for every
    count of at least 1, and it is below 1 only when the caller supplied a
    number strictly between 0 and 1. *)
Theorem count_capped :
  forall body : value,
    (forall q : Q, get "count" body = VNum (Fin q) -> (0 < q)%Q -> (q < 10)%Q ->
                   effectiveCount body = q)
    /\ (forall q : Q, get "count" body = VNum (Fin q) -> (10 <= q)%Q ->
                      effectiveCount body = 10%Q)
    /\ (get "count" body = VNum PosInf -> effectiveCount body = 10%Q)
    /\ (match get "count" body with VNum n => positive n = false | _ => True end ->
        effectiveCount body = 10%Q)
    /\ ((0 < effectiveCount body)%Q /\ (effectiveCount body <= 10)%Q)
    /\ ((effectiveCount body < 1)%Q ->
        exists q, get "count" body = VNum (Fin q)
                  /\ (0 < q)%Q /\ (q < 1)%Q /\ effectiveCount body = q)
    /\ (forall z : Z, get "count" body = VNum (Fin (inject_Z z)) ->
                      (1 <= effectiveCount body)%Q)
    /\ (forall q : Q, get "count" body = VNum (Fin q) -> (1 <= q)%Q ->
                      (1 <= effectiveCount body)%Q).
Proof.
  intros body. unfold effectiveCount.
  assert (below : forall q, (0 < q)%Q -> (q < 10)%Q -> clampCount (VNum (Fin q)) = q).
  { intros q H0 H10. cbn.
    assert (E0 : Qle_bool q 0 = false).
    { destruct (Qle_bool q 0) eqn:E; [|reflexivity].
      apply Qle_bool_iff in E. exfalso. exact (Qlt_not_le _ _ H0 E). }
    assert (E10 : Qle_bool 10 q = false).
    { destruct (Qle_bool 10 q) eqn:E; [|reflexivity].
      apply Qle_bool_iff in E. exfalso. exact (Qlt_not_le _ _ H10 E). }
    now rewrite E0, E10. }
  assert (above : forall q, (10 <= q)%Q -> clampCount (VNum (Fin q)) = 10%Q).
  { intros q H10. cbn. apply Qle_bool_iff in H10. rewrite H10.
    now destruct (Qle_bool q 0). }
  split; [intros q ->; apply below|].
  split; [intros q ->; apply above|].
  split; [intros ->; reflexivity|].
  split; [apply CountFacts.clampCount_default|].
  split; [apply CountFacts.clampCount_bounds|].
  split; [apply CountFacts.clampCount_below_one|].
  split; [intros z ->; apply CountFacts.clampCount_integer|].
  intros q -> H1.
  destruct (Qlt_le_dec q 10) as [H10|H10].
  - rewrite below; [exact H1 | | exact H10].
    apply Qlt_le_trans with (y := 1%Q); [reflexivity | exact H1].
  - rewrite above by exact H10. discriminate.
Qed.

Lemma count_capped_witness :
  get "count" (Sample.body_of (1 # 2)) = VNum (Fin (1 # 2))
  /\ (0 < 1 # 2)%Q /\ (1 # 2 < 10)%Q
  /\ effectiveCount (Sample.body_of (1 # 2)) = (1 # 2)%Q.
Proof.
  split; [reflexivity|]. split; [reflexivity|]. split; [reflexivity|].
  exact (proj1 (count_capped (Sample.body_of (1 # 2))) (1 # 2)%Q eq_refl eq_refl eq_refl).
Defined.

(** C7, as stated, fails: a unit whose rationale is one space meets every
    condition of the claim, the rationale being a string that is not empty,
    and the validator rejects it. *)
Lemma blank_rationale_rejected :
  Contract.stated Sample.q_blank_rationale
  /\ isValidQuestion Sample.q_blank_rationale = false.
Proof.
  split; [|reflexivity]. unfold Contract.stated. repeat split.
  - exists "What is 2 + 2?". split; [reflexivity | vm_compute; lia].
  - exists [VStr "A. 1"; VStr "B. 2"; VStr "C. 3"; VStr "D. 4"].
    repeat split. repeat constructor; eexists; (split; [reflexivity | discriminate]).
  - exists "D". split; [cbn; tauto | reflexivity].
  - eexists. split; [reflexivity|].
    intros l [<-|[<-|[<-|[<-|[]]]]]; eexists; (split; [reflexivity | discriminate]).
  - exists " ". split; [reflexivity | discriminate].
Qed.

(** C7, amended.  The validator accepts a value exactly when: the stem is
    a string of trimmed length at least 5; the options are an array of
    exactly 4 strings, none empty after trimming; the marker is one of A, B,
    C, D; the explanations are an object with, under each of the four
    labels, a string that is not empty after trimming; and the rationale is
    a string that is not empty after trimming. *)
Theorem validator_contract :
  forall q : value, isValidQuestion q = true <-> Contract.tested q.
Proof.
  intros q. rewrite ValidatorFacts.isValidQuestion_guards. unfold Contract.tested.
  rewrite !andb_true_iff.
  rewrite ValidatorFacts.trimmed_string_iff, ValidatorFacts.options_iff,
    ValidatorFacts.answer_iff, ValidatorFacts.explanations_iff,
    ValidatorFacts.nonblank_string_iff.
  unfold Contract.stem_ok, Contract.options_ok, Contract.answer_ok,
    Contract.explanations_ok, Contract.rationale_nonblank.
  split.
  - intros [[[[[_ Hstem] Hopts] Hans] Hexp] Hrat]. tauto.
  - intros (Hstem & Hopts & Hans & Hexp & Hrat).
    destruct (ValidatorFacts.stem_is_object q Hstem) as [props ->].
    repeat split; assumption.
Qed.

Lemma validator_contract_witness :
  isValidQuestion Sample.q1 = true /\ Contract.tested Sample.q1.
Proof.
  split; [reflexivity|]. exact (proj1 (validator_contract Sample.q1) eq_refl).
Defined.

(** C8. The sanitizer is idempotent, on every value, and so is the
    cleaning of one string and the sanitizer of the one-shot route. *)
Theorem sanitizer_idempotent :
  (forall q : value, sanitizeQuestion (sanitizeQuestion q) = sanitizeQuestion q)
  /\ (forall s : string, Text.clean (Text.clean s) = Text.clean s)
  /\ (forall q : value, sanitizeEntry (sanitizeEntry q) = sanitizeEntry q).
Proof.
  split; [|split].
  - intros q.
    destruct (match q with VUndef | VNull => true | _ => false end) eqn:E.
    + destruct q; try discriminate; reflexivity.
    + rewrite (SanitizerFacts.sanitizeQuestion_shape q) by (intros ->; discriminate).
      rewrite SanitizerFacts.sanitizeQuestion_shape by discriminate.
      rewrite SanitizerFacts.written_stem, SanitizerFacts.written_options.
      rewrite ObjFacts.clean_value_idem, ObjFacts.clean_options_idem.
      cbn [own_props]. now rewrite SanitizerFacts.written_again.
  - exact TextFacts.clean_idem.
  - intros q. destruct (Shape.guarded q) eqn:G;
      [|now rewrite !(SanitizerFacts.sanitizeEntry_unguarded q G)].
    rewrite (SanitizerFacts.sanitizeEntry_shape q G).
    rewrite SanitizerFacts.sanitizeEntry_shape by reflexivity.
    unfold Shape.written, Shape.stem_key, Shape.options_key. cbn [own_props get].
    EntryFacts.look.
    rewrite ObjFacts.clean_value_idem, ObjFacts.clean_options_idem.
    repeat (rewrite ObjFacts.set_same by (EntryFacts.look; reflexivity)). reflexivity.
Qed.




(** C10. On a unit, which is an object, the sanitizer of either route
    leaves every field but the stem and the options as it was: the marker,
    the explanations, the rationale and any other field read the same
    before and after. *)
Theorem sanitizer_frame :
  forall (props : list (string * value)) (k : string),
    k <> "question" -> k <> "multipleChoiceOptions" ->
    get k (sanitizeQuestion (VObj props)) = get k (VObj props)
    /\ get k (sanitizeEntry (VObj props)) = get k (VObj props).
Proof.
  intros props k Hstem Hopts. split.
  - rewrite SanitizerFacts.sanitizeQuestion_shape by discriminate.
    now apply EntryFacts.written_frame.
  - rewrite SanitizerFacts.sanitizeEntry_shape by reflexivity. cbn [own_props].
    set (W := Shape.written props _ _).
    assert (Hw : forall k', k' <> Shape.stem_key -> k' <> Shape.options_key ->
                            get k' (VObj W) = get k' (VObj props))
      by (intros; now apply EntryFacts.written_frame).
    rewrite <- (Hw "incorrectExplanations") by discriminate.
    set (X := obj_set "incorrectExplanations" _ W).
    assert (Hx : forall k', get k' (VObj X) = get k' (VObj W))
      by (intros; apply ObjFacts.get_set_own).
    rewrite <- (Hw "correctExplanation"), <- (Hx "correctExplanation") by discriminate.
    now rewrite ObjFacts.get_set_own, Hx, Hw.
Qed.

Lemma sanitizer_frame_witness :
  "correctAnswer" <> "question" /\ "correctAnswer" <> "multipleChoiceOptions"
  /\ get "correctAnswer" (sanitizeQuestion Sample.q1) = VStr "D".
Proof.
  split; [discriminate|]. split; [discriminate|].
  exact (proj1 (sanitizer_frame _ "correctAnswer"
                  (fun E => ltac:(discriminate E)) (fun E => ltac:(discriminate E)))).
Defined.
